(** * Verification of [simulated_training.py]

    A shallow embedding of the mask builder, the coordinate extractor, the
    corpus aggregator and the balanced sampler of [simulated_training.py],
    together with the properties stated about them.

    Conventions of the embedding:
    - a Python [float] is an IEEE-754 binary64 value, modelled bit-exactly
      by [spec_float] with the operations of [SpecFloat] at precision 53;
    - a two-dimensional [ndarray] is the list of its rows; derived arrays are
      always built with the shape of the array they come from;
    - a [3 x K] coordinate array is the list of its [K] columns;
    - a [dict] is an association list in insertion order;
    - exceptions are values of [exn], and the process-wide random state of
      [numpy.random] is threaded explicitly. *)

From Stdlib Require Import String ZArith QArith Qround List Bool Lia Permutation.
From Stdlib Require Import Floats.SpecFloat.
Import ListNotations.

Close Scope Q_scope.
Local Open Scope Z_scope.

(** ** Python floats *)

Module Float64.

Definition prec : Z := 53.
Definition emax : Z := 1024.

Definition float := spec_float.

(** [float(n)] for a Python integer [n], rounded to nearest even. *)
Definition of_int (n : Z) : float := binary_normalize prec emax n 0 false.

Definition sub : float -> float -> float := SFsub prec emax.
Definition mul : float -> float -> float := SFmul prec emax.
Definition div : float -> float -> float := SFdiv prec emax.
Definition ltb : float -> float -> bool := SFltb.

(** The literals of the source. *)
Definition lit_1 : float := of_int 1.
Definition lit_0_75 : float := binary_normalize prec emax 3 (-2) false.
Definition lit_0_25 : float := binary_normalize prec emax 1 (-2) false.
Definition lit_0_1 : float := div (of_int 1) (of_int 10).

(** The exact value of [m * 2^e], truncated toward zero. *)
Definition trunc_scaled (m : positive) (e : Z) : Z :=
  match e with
  | Z0 => Zpos m
  | Zpos p => Zpos m * 2 ^ Zpos p
  | Zneg p => Zpos m / 2 ^ Zpos p
  end.

(** The rational a float stands for (0 for an infinity or a NaN). *)
Definition to_Q (x : float) : Q :=
  match x with
  | S754_finite s m e =>
      let magnitude :=
        match e with
        | Z0 => Qmake (Zpos m) 1
        | Zpos p => Qmake (Zpos m * 2 ^ Zpos p) 1
        | Zneg p => Qmake (Zpos m) (2 ^ p)
        end in
      if s then Qopp magnitude else magnitude
  | _ => Qmake 0 1
  end.

End Float64.

(** ** Exceptions *)

Inductive exn : Type :=
| ValueError (msg : string)
| OverflowError (msg : string)
| IndexError (msg : string)
| KeyError (key : string).

Definition result (A : Type) : Type := (exn + A)%type.

(** [int(x)] for a float [x]: truncation toward zero, [ValueError] on a NaN
    and [OverflowError] on an infinity. *)
Definition python_int (x : Float64.float) : result Z :=
  match x with
  | S754_zero _ => inr 0
  | S754_nan => inl (ValueError "cannot convert float NaN to integer")
  | S754_infinity _ => inl (OverflowError "cannot convert float infinity to integer")
  | S754_finite s m e => inr (cond_Zopp s (Float64.trunc_scaled m e))
  end.

(** ** Two-dimensional arrays *)

Module Nd.
Section Arrays.
Context {A : Type}.

Definition ndarray := list (list A).

Definition shape0 (a : ndarray) : nat := length a.
Definition shape1 (a : ndarray) : nat :=
  match a with
  | [] => 0%nat
  | row :: _ => length row
  end.

(** Every row has the width [shape1]: what numpy guarantees of an array. *)
Definition rect (a : ndarray) : Prop :=
  Forall (fun row => length row = shape1 a) a.

(** [a[r, c]] when [(r, c)] is inside the array, [d] when it is outside
    (negative indices do not wrap here). *)
Definition get (d : A) (a : ndarray) (r c : Z) : A :=
  if (r <? 0) || (c <? 0) then d
  else nth (Z.to_nat c) (nth (Z.to_nat r) a []) d.

Definition inside (a : ndarray) (r c : Z) : Prop :=
  0 <= r /\ (Z.to_nat r < shape0 a)%nat /\
  0 <= c /\ (Z.to_nat c < length (nth (Z.to_nat r) a []))%nat.

(** The array of shape [(h, w)] holding [f r c] at [(r, c)]. *)
Definition tabulate (h w : nat) (f : Z -> Z -> A) : ndarray :=
  map (fun r => map (fun c => f (Z.of_nat r) (Z.of_nat c)) (seq 0 w)) (seq 0 h).

End Arrays.
Arguments ndarray : clear implicits.

(** Elementwise operations (broadcast of a scalar, [&], [~]). *)
Definition map {A B} (f : A -> B) (a : ndarray A) : ndarray B :=
  List.map (List.map f) a.

Fixpoint zip_row {A B C} (f : A -> B -> C) (xs : list A) (ys : list B) : list C :=
  match xs, ys with
  | x :: xs', y :: ys' => f x y :: zip_row f xs' ys'
  | _, _ => []
  end.

Definition zip {A B C} (f : A -> B -> C) (a : ndarray A) (b : ndarray B) : ndarray C :=
  zip_row (zip_row f) a b.

Definition and_ (a b : ndarray bool) : ndarray bool := zip andb a b.
Definition not_ (a : ndarray bool) : ndarray bool := map negb a.

(** [sp.ones((h, w))], read as booleans. *)
Definition ones (h w : nat) : ndarray bool := tabulate h w (fun _ _ => true).

(** [a[:, mask]] for a grid [a] of columns: the entries of [a] at the true
    positions of [mask], in row-major order. *)
Fixpoint pick {A} (xs : list A) (bs : list bool) : list A :=
  match xs, bs with
  | x :: xs', b :: bs' => if b then x :: pick xs' bs' else pick xs' bs'
  | _, _ => []
  end.

Fixpoint select {A} (a : ndarray A) (mask : ndarray bool) : list A :=
  match a, mask with
  | ra :: a', rm :: mask' => pick ra rm ++ select a' mask'
  | _, _ => []
  end.

End Nd.

(** ** [scipy.ndimage] binary morphology

    The three library operations the source calls, with the library's default
    [border_value = 0] (a tap outside the array reads false) and the default
    origin (the centre of the structuring element). *)

Module ndimage.

(** Offsets, relative to the centre, of the true entries of a structuring
    element. *)
Definition offsets (structure : Nd.ndarray bool) : list (Z * Z) :=
  let cr := Z.of_nat (Nd.shape0 structure / 2) in
  let cc := Z.of_nat (Nd.shape1 structure / 2) in
  Nd.select
    (Nd.tabulate (Nd.shape0 structure) (Nd.shape1 structure)
       (fun r c => (r - cr, c - cc)))
    structure.

Definition dilate_once (structure : Nd.ndarray bool) (input : Nd.ndarray bool)
  : Nd.ndarray bool :=
  Nd.tabulate (Nd.shape0 input) (Nd.shape1 input)
    (fun r c =>
       existsb (fun o => Nd.get false input (r - fst o) (c - snd o))
               (offsets structure)).

Definition erode_once (structure : Nd.ndarray bool) (input : Nd.ndarray bool)
  : Nd.ndarray bool :=
  Nd.tabulate (Nd.shape0 input) (Nd.shape1 input)
    (fun r c =>
       forallb (fun o => Nd.get false input (r + fst o) (c + snd o))
               (offsets structure)).

(** [binary_dilation(input, structure, iterations)]: the dilation repeated
    [iterations] times. *)
Definition binary_dilation (input structure : Nd.ndarray bool)
           (iterations : positive) : Nd.ndarray bool :=
  Pos.iter (dilate_once structure) input iterations.

Definition binary_erosion (input structure : Nd.ndarray bool)
           (iterations : positive) : Nd.ndarray bool :=
  Pos.iter (erode_once structure) input iterations.

(** [binary_closing(input, structure)]: one dilation, then one erosion. *)
Definition binary_closing (input structure : Nd.ndarray bool) : Nd.ndarray bool :=
  binary_erosion (binary_dilation input structure 1) structure 1.

End ndimage.

(** ** Mask builder *)

Definition truth_field := Nd.ndarray Float64.float.
Definition mask := Nd.ndarray bool.

(** [0.75 < truth], [truth < 1] and [truth < 0.25], broadcast. *)
Definition gt_0_75 (truth : truth_field) : mask :=
  Nd.map (fun t => Float64.ltb Float64.lit_0_75 t) truth.
Definition lt_1 (truth : truth_field) : mask :=
  Nd.map (fun t => Float64.ltb t Float64.lit_1) truth.
Definition lt_0_25 (truth : truth_field) : mask :=
  Nd.map (fun t => Float64.ltb t Float64.lit_0_25) truth.

Definition make_damaged_spot_mask (truth : truth_field) : mask :=
  let damaged_pixel := Nd.and_ (gt_0_75 truth) (lt_1 truth) in
  let damaged_area := ndimage.binary_closing damaged_pixel (Nd.ones 3 3) in
  let damaged_spot := Nd.and_ damaged_area (gt_0_75 truth) in
  damaged_spot.

Definition make_outside_near_damaged_spot_mask (truth : truth_field) : mask :=
  let damaged_spot := make_damaged_spot_mask truth in
  let near_damaged_spot := ndimage.binary_dilation damaged_spot (Nd.ones 3 3) 5 in
  let outside_near_damaged_spot := Nd.and_ near_damaged_spot (lt_0_25 truth) in
  outside_near_damaged_spot.

Definition make_block_border_mask (truth : truth_field) : mask :=
  let very_near_block := ndimage.binary_dilation (gt_0_75 truth) (Nd.ones 3 3) 3 in
  let near_block := ndimage.binary_dilation (gt_0_75 truth) (Nd.ones 3 3) 15 in
  let block_border := Nd.and_ near_block (Nd.not_ very_near_block) in
  block_border.

Definition make_between_spot_mask (truth : truth_field) : mask :=
  let near_spot := ndimage.binary_dilation (gt_0_75 truth) (Nd.ones 3 3) 4 in
  let outside_near_spot := Nd.and_ near_spot (lt_0_25 truth) in
  outside_near_spot.

(** ** Python slices and dicts *)

(** The bounds [slice(start, stop).indices(len)] clips to: a negative bound
    counts from the end, and both are clipped to [0 .. len]. *)
Definition slice_bound (len : nat) (i : Z) : Z :=
  if i <? 0 then Z.max (i + Z.of_nat len) 0 else Z.min i (Z.of_nat len).

Definition in_slice (len : nat) (start stop : Z) (i : Z) : bool :=
  (slice_bound len start <=? i) && (i <? slice_bound len stop).

(** [l[:stop]] and [l[start:]]. *)
Definition slice_to {A} (stop : Z) (l : list A) : list A :=
  firstn (Z.to_nat (slice_bound (length l) stop)) l.
Definition slice_from {A} (start : Z) (l : list A) : list A :=
  skipn (Z.to_nat (slice_bound (length l) start)) l.

(** [a[r0:r1, c0:c1] = v] *)
Definition set_slice {A} (d : A) (a : Nd.ndarray A) (r0 r1 c0 c1 : Z) (v : A)
  : Nd.ndarray A :=
  Nd.tabulate (Nd.shape0 a) (Nd.shape1 a)
    (fun r c =>
       if in_slice (Nd.shape0 a) r0 r1 r && in_slice (Nd.shape1 a) c0 c1 c
       then v else Nd.get d a r c).

Definition dict (V : Type) : Type := list (string * V).

Definition keys {V} (d : dict V) : list string := map fst d.

Fixpoint lookup {V} (d : dict V) (k : string) : result V :=
  match d with
  | [] => inl (KeyError k)
  | (k', v) :: d' => if String.eqb k' k then inr v else lookup d' k
  end.

(** [d[k] = v] *)
Fixpoint setitem {V} (d : dict V) (k : string) (v : V) : dict V :=
  match d with
  | [] => [(k, v)]
  | (k', v') :: d' =>
      if String.eqb k' k then (k', v) :: d' else (k', v') :: setitem d' k v
  end.

(** The error monad of a computation that may raise. *)
Definition bind {A B} (m : result A) (k : A -> result B) : result B :=
  match m with
  | inl e => inl e
  | inr a => k a
  end.

Notation "x <- m ;; k" := (bind m (fun x => k))
  (at level 61, m at next level, right associativity).

Fixpoint mapM {A B} (f : A -> result B) (l : list A) : result (list B) :=
  match l with
  | [] => inr []
  | x :: l' => y <- f x ;; ys <- mapM f l' ;; inr (y :: ys)
  end.

Fixpoint foldM {A B} (f : B -> A -> result B) (l : list A) (acc : B) : result B :=
  match l with
  | [] => inr acc
  | x :: l' => acc' <- f acc x ;; foldM f l' acc'
  end.

(** [sp.concatenate(arrays, 1)] on coordinate arrays, and [sp.concatenate]
    on one-dimensional arrays: both join the columns in order, and raise on
    an empty sequence of arrays. *)
Definition sp_concatenate {A} (arrays : list (list A)) : result (list A) :=
  match arrays with
  | [] => inl (ValueError "need at least one array to concatenate")
  | _ => inr (concat arrays)
  end.

(** ** Coordinate extractor *)

(** A column [(row index, column index, image index)] of a coordinate array,
    and a coordinate array as the list of its columns. *)
Definition column : Type := Z * Z * Z.
Definition coords : Type := list column.

Definition category_names : list string :=
  ["inside"; "outside"; "inside_damaged"; "outside_damaged"; "block_border";
   "between"]%string.

(** The integers of numpy's [dtype=int]. *)
Definition int64 (z : Z) : Prop := - 2 ^ 63 <= z < 2 ^ 63.

(** The plane [im_no*sp.ones(..., dtype=int)] holds the integer [im_no] when
    [int64 im_no], as for every index [get_centers] passes; outside that range
    numpy leaves the integers, and the third row below is not what it
    returns. *)
Definition get_centers_single_image (truth : truth_field) (im_no : Z) (border : Z)
  : dict coords :=
  let h := Nd.shape0 truth in
  let w := Nd.shape1 truth in
  let indices := Nd.tabulate h w (fun r c => (r, c)) in
  let im_nos := Nd.tabulate h w (fun _ _ => im_no * 1) in
  let indices := Nd.zip (fun rc i => (fst rc, snd rc, i)) indices im_nos in
  let away_from_border := Nd.tabulate h w (fun _ _ => false) in
  let away_from_border :=
    set_slice false away_from_border border (- border) border (- border) true in
  [ ("inside", Nd.select indices (Nd.and_ (gt_0_75 truth) away_from_border));
    ("outside", Nd.select indices (Nd.and_ (lt_0_25 truth) away_from_border));
    ("inside_damaged",
      Nd.select indices (Nd.and_ (make_damaged_spot_mask truth) away_from_border));
    ("outside_damaged",
      Nd.select indices
        (Nd.and_ (make_outside_near_damaged_spot_mask truth) away_from_border));
    ("block_border",
      Nd.select indices (Nd.and_ (make_block_border_mask truth) away_from_border));
    ("between",
      Nd.select indices (Nd.and_ (make_between_spot_mask truth) away_from_border))
  ]%string.

(** ** Corpus aggregator *)

(** [enumerate(l)], counting from [start]. *)
Fixpoint enumerate_from {A} (start : Z) (l : list A) : list (Z * A) :=
  match l with
  | [] => []
  | x :: l' => (start, x) :: enumerate_from (start + 1) l'
  end.

Definition get_centers (truths : list truth_field) (border : Z)
  : result (dict coords) :=
  let centers :=
    map (fun it => get_centers_single_image (snd it) (fst it) border)
        (enumerate_from 0 truths) in
  first <- match centers with
           | [] => inl (IndexError "list index out of range")
           | cs :: _ => inr cs
           end ;;
  foldM (fun result name =>
           arrays <- mapM (fun cs => lookup cs name) centers ;;
           pool <- sp_concatenate arrays ;;
           inr (setitem result name pool))
        (keys first) [].

(** ** Balanced sampler *)

(** The mapping from types of pixels to classifier labels. *)
Definition LABEL_ENUM : dict Z :=
  [ ("inside", 1); ("outside", 0); ("inside_damaged", 1);
    ("outside_damaged", 0); ("block_border", 0); ("between", 0) ]%string.

(** The quotas the source hard-codes ([2e5] and [1e5], used as sizes). *)
Definition counts : dict positive :=
  [ ("inside", 200000); ("outside", 100000); ("inside_damaged", 200000);
    ("outside_damaged", 100000); ("block_border", 100000);
    ("between", 100000) ]%string%positive.

(** [sp.arange(n)] and [sp.repeat(v, n)]. *)
Definition arange (n : nat) : list Z := map Z.of_nat (seq 0 n).
Definition sp_repeat {A} (v : A) (n : positive) : list A := repeat v (Pos.to_nat n).

(** [a[i]] for one integer index: a negative index counts from the end, an
    index outside the array raises [IndexError]. *)
Definition getitem {A} (a : list A) (i : Z) : result A :=
  let n := Z.of_nat (length a) in
  let j := if i <? 0 then i + n else i in
  if (0 <=? j) && (j <? n) then
    match nth_error a (Z.to_nat j) with
    | Some x => inr x
    | None => inl (IndexError "index out of bounds")
    end
  else inl (IndexError "index out of bounds").

(** [a[:, idx]] (and [a[idx]] on a one-dimensional array) for an integer
    index array [idx]. *)
Definition take {A} (a : list A) (idx : list Z) : result (list A) :=
  mapM (getitem a) idx.

(** The random state behind [sp.random]: how the uniform draws of
    [randint] and the in-place [shuffle] consume it. *)
Record RandomSource : Type := {
  rng_state : Type;
  randint : rng_state -> nat -> nat -> list nat * rng_state;
  shuffle : rng_state -> list Z -> list Z * rng_state
}.

(** What numpy guarantees of the two: [randint(0, high, size)] gives [size]
    integers below [high], and [shuffle] permutes its array. *)
Record lawful (R : RandomSource) : Prop := {
  randint_length : forall g high size,
      length (fst (randint R g high size)) = size;
  randint_range : forall g high size,
      (0 < high)%nat ->
      Forall (fun i => (i < high)%nat) (fst (randint R g high size));
  shuffle_perm : forall g l, Permutation (fst (shuffle R g l)) l
}.

Section Sampler.

Variable R : RandomSource.

(** A computation that reads and advances the random state and may raise. *)
Definition M (A : Type) : Type := rng_state R -> result (A * rng_state R).

Definition ret {A} (a : A) : M A := fun g => inr (a, g).
Definition lift {A} (m : result A) : M A :=
  fun g => match m with inl e => inl e | inr a => inr (a, g) end.
Definition bindS {A B} (m : M A) (k : A -> M B) : M B :=
  fun g => match m g with
           | inl e => inl e
           | inr (a, g') => k a g'
           end.

Notation "x <~ m ;; k" := (bindS m (fun x => k))
  (at level 61, m at next level, right associativity).

Fixpoint mapS {A B} (f : A -> M B) (l : list A) : M (list B) :=
  match l with
  | [] => ret []
  | x :: l' => y <~ f x ;; ys <~ mapS f l' ;; ret (y :: ys)
  end.

(** [sp.random.choice(a, size)]: [size] uniform draws, with replacement,
    from the one-dimensional array [a]. *)
Definition random_choice (a : list Z) (size : positive) : M (list Z) :=
  fun g =>
    match a with
    | [] => inl (ValueError "a must be non-empty")
    | _ =>
        let (idx, g') := randint R g (length a) (Pos.to_nat size) in
        inr (map (fun i => nth i a 0) idx, g')
    end.

(** [sp.random.permutation(x)]: a shuffled copy of the array [x]. *)
Definition random_permutation (x : list Z) : M (list Z) :=
  fun g => inr (shuffle R g x).

(** Lines 120 to 125: the draws of every category, then the concatenated
    coordinate and label arrays. *)
Definition draw_samples (quotas : dict positive) (centers : dict coords)
  : M (coords * list Z) :=
  choices <~ mapS (fun name =>
                     pool <~ lift (lookup centers name) ;;
                     count <~ lift (lookup quotas name) ;;
                     chosen <~ random_choice (arange (length pool)) count ;;
                     ret (name, chosen))
                  (keys centers) ;;
  center_sets <~ lift (mapM (fun name =>
                               pool <- lookup centers name ;;
                               chosen <- lookup choices name ;;
                               cols <- take pool chosen ;;
                               inr (name, cols))
                            (keys centers)) ;;
  label_sets <~ lift (mapM (fun name =>
                              label <- lookup LABEL_ENUM name ;;
                              count <- lookup quotas name ;;
                              inr (name, sp_repeat label count))
                           (keys centers)) ;;
  center_set <~ lift (arrays <- mapM (lookup center_sets) (keys centers) ;;
                      sp_concatenate arrays) ;;
  label_set <~ lift (arrays <- mapM (lookup label_sets) (keys centers) ;;
                     sp_concatenate arrays) ;;
  ret (center_set, label_set).

(** Lines 127 to 129: one permutation, applied to both arrays. *)
Definition shuffle_samples (center_set : coords) (label_set : list Z)
  : M (coords * list Z) :=
  order <~ random_permutation (arange (length center_set)) ;;
  ordered_centers <~ lift (take center_set order) ;;
  ordered_labels <~ lift (take label_set order) ;;
  ret (ordered_centers, ordered_labels).

(** [(1 - test_split) * n] in binary64, for the column count [n]. *)
Definition training_share (test_split : Float64.float) (n : Z) : Float64.float :=
  Float64.mul (Float64.sub (Float64.of_int 1) test_split) (Float64.of_int n).

(** Lines 131 to 137: the split of the shuffled arrays. *)
Definition split_samples (test_split : Float64.float) (n : Z)
           (ordered_centers : coords) (ordered_labels : list Z)
  : result (coords * list Z * coords * list Z) :=
  n_training <- python_int (training_share test_split n) ;;
  let training_centers := slice_to n_training ordered_centers in
  let training_labels := slice_to n_training ordered_labels in
  let test_centers := slice_from n_training ordered_centers in
  let test_labels := slice_from n_training ordered_labels in
  inr (training_centers, training_labels, test_centers, test_labels).

(** The body of [make_labelled_sets], for given quotas. *)
Definition make_labelled_sets_with (quotas : dict positive)
           (centers : dict coords) (test_split : Float64.float)
  : M (coords * list Z * coords * list Z) :=
  sets <~ draw_samples quotas centers ;;
  ordered <~ shuffle_samples (fst sets) (snd sets) ;;
  lift (split_samples test_split (Z.of_nat (length (fst sets)))
                      (fst ordered) (snd ordered)).

Definition make_labelled_sets (centers : dict coords) (test_split : Float64.float)
  : M (coords * list Z * coords * list Z) :=
  make_labelled_sets_with counts centers test_split.

End Sampler.

Arguments ret {R A} a.
Arguments lift {R A} m.
Arguments bindS {R A B} m k.

(** *** A concrete random source

    A linear congruential generator: [draws] reduces each new state modulo
    the bound, and [insert_all] inserts every element at a drawn position. *)

Module Lcg.

Definition next (g : Z) : Z := (g * 1103515245 + 12345) mod 2147483648.

Fixpoint draws (g : Z) (high size : nat) : list nat * Z :=
  match size with
  | O => ([], g)
  | S size' =>
      let g' := next g in
      let (rest, g'') := draws g' high size' in
      (Z.to_nat (g' mod Z.of_nat high) :: rest, g'')
  end.

Fixpoint insert_all (g : Z) (l : list Z) : list Z * Z :=
  match l with
  | [] => ([], g)
  | x :: l' =>
      let (done, g') := insert_all g l' in
      let g'' := next g' in
      let k := Z.to_nat (g'' mod Z.of_nat (S (length done))) in
      (firstn k done ++ x :: skipn k done, g'')
  end.

Definition source : RandomSource :=
  {| rng_state := Z; randint := draws; shuffle := insert_all |}.

End Lcg.

(** * Vocabulary of the properties *)

(** The damage-value range [0.75 < t < 1]. *)
Definition in_damage_range (t : Float64.float) : Prop :=
  Float64.ltb Float64.lit_0_75 t = true /\ Float64.ltb t Float64.lit_1 = true.

(** The closing of the damaged pixels, as [make_damaged_spot_mask] forms it. *)
Definition damaged_area (truth : truth_field) : mask :=
  ndimage.binary_closing (Nd.and_ (gt_0_75 truth) (lt_1 truth)) (Nd.ones 3 3).

(** A 3 x 3 field: a spot-interior pixel of value 1 surrounded by damage 0.9. *)
Definition f_0_9 : Float64.float := Float64.div (Float64.of_int 9) (Float64.of_int 10).
Definition truth_enclosed : truth_field :=
  [ [f_0_9; f_0_9; f_0_9];
    [f_0_9; Float64.lit_1; f_0_9];
    [f_0_9; f_0_9; f_0_9] ].

(** A 6 x 6 field with a 2 x 2 spot whose anti-diagonal is damaged, and small
    pools and quotas to run the sampler on. *)
Definition truth_block : truth_field :=
  let o := S754_zero false in
  let i := Float64.lit_1 in
  let d := f_0_9 in
  [ [o; o; o; o; o; o];
    [o; o; o; o; o; o];
    [o; o; i; d; o; o];
    [o; o; d; i; o; o];
    [o; o; o; o; o; o];
    [o; o; o; o; o; o] ].

Definition small_quotas : dict positive :=
  [ ("inside", 3); ("outside", 2); ("inside_damaged", 1);
    ("outside_damaged", 1); ("block_border", 2);
    ("between", 1) ]%string%positive.

Definition small_pools : dict coords :=
  [ ("inside", [(1, 1, 0); (2, 2, 0)]); ("outside", [(3, 3, 0)]);
    ("inside_damaged", [(4, 4, 0)]); ("outside_damaged", [(5, 5, 0)]);
    ("block_border", [(6, 6, 0); (7, 7, 0); (8, 8, 0)]);
    ("between", [(9, 9, 0)]) ]%string.

(** The six masks [get_centers_single_image] indexes with, by category. *)
Definition category_masks (truth : truth_field) : dict mask :=
  [ ("inside", gt_0_75 truth);
    ("outside", lt_0_25 truth);
    ("inside_damaged", make_damaged_spot_mask truth);
    ("outside_damaged", make_outside_near_damaged_spot_mask truth);
    ("block_border", make_block_border_mask truth);
    ("between", make_between_spot_mask truth) ]%string.

(** The coordinate grid and the border mask it builds. *)
Definition index_grid (h w : nat) (im_no : Z) : Nd.ndarray column :=
  Nd.zip (fun rc i => (fst rc, snd rc, i))
         (Nd.tabulate h w (fun r c => (r, c)))
         (Nd.tabulate h w (fun _ _ => im_no * 1)).

Definition away_from_border (h w : nat) (border : Z) : mask :=
  set_slice false (Nd.tabulate h w (fun _ _ => false))
            border (- border) border (- border) true.

(** The per-image results [get_centers] collects, in input order. *)
Definition per_image_centers (truths : list truth_field) (border : Z)
  : list (dict coords) :=
  map (fun it => get_centers_single_image (snd it) (fst it) border)
      (enumerate_from 0 truths).

(** The array of one category in a per-image result. *)
Definition category_array (cs : dict coords) (name : string) : coords :=
  match lookup cs name with
  | inr pool => pool
  | inl _ => []
  end.

(** The quota and the label a category name stands for, and the number of
    samples the quotas of a dict of pools add up to. *)
Definition quota_of (quotas : dict positive) (name : string) : positive :=
  match lookup quotas name with
  | inr q => q
  | inl _ => 1%positive
  end.

Definition label_of (name : string) : Z :=
  match lookup LABEL_ENUM name with
  | inr label => label
  | inl _ => 0
  end.

Definition total_count (quotas : dict positive) (centers : dict coords) : Z :=
  fold_right Z.add 0 (map (fun name => Zpos (quota_of quotas name)) (keys centers)).

(** A dict of pools as [get_centers] makes them: at least one category, every
    key one of the six category names, and a quota for every key. *)
Definition keyed (quotas : dict positive) (centers : dict coords) : Prop :=
  centers <> [] /\
  forall name, In name (keys centers) ->
               In name category_names /\ exists q, lookup quotas name = inr q.

Definition has_empty_pool (centers : dict coords) : Prop :=
  exists name, In name (keys centers) /\ lookup centers name = inr [].

Definition empty_population : exn := ValueError "a must be non-empty".

(** The indices drawn for a category, read from the dict of choices. *)
Definition chosen_of (choices : dict (list Z)) (name : string) : list Z :=
  match lookup choices name with
  | inr chosen => chosen
  | inl _ => []
  end.

(** The labels one category contributes. *)
Definition labels_for (quotas : dict positive) (name : string) : list Z :=
  sp_repeat (label_of name) (quota_of quotas name).

(** Six pools of one column each, and the test split [0.425] (the binary64
    number the literal [0.425] denotes). *)
Definition unit_pools : dict coords :=
  map (fun name => (name, [(0, 0, 0)])) category_names.

Definition split_0_425 : Float64.float :=
  Float64.div (Float64.of_int 425) (Float64.of_int 1000).

(** The test-set length [floor(test_split * N)] within integer rounding: the
    length lies between the floor and the ceiling of the product of the exact
    value of [test_split] and the sum [N] of the quotas. *)
Definition test_length_rounds_share (R : RandomSource) (quotas : dict positive)
           (centers : dict coords) (test_split : Float64.float)
           (g : rng_state R) : Prop :=
  forall trc trl tec tel g',
    make_labelled_sets_with R quotas centers test_split g
      = inr ((trc, trl, tec, tel), g') ->
    Qfloor (Float64.to_Q test_split * inject_Z (total_count quotas centers))%Q
    <= Z.of_nat (length tec) <=
    Qceiling (Float64.to_Q test_split * inject_Z (total_count quotas centers))%Q.

(** [make_labelled_sets] fails exactly when some pool has no column. *)
Definition fails_exactly_on_empty_pool (R : RandomSource)
           (centers : dict coords) (test_split : Float64.float)
           (g : rng_state R) : Prop :=
  (exists e, make_labelled_sets R centers test_split g = inl e) <->
  has_empty_pool centers.

(** A pixel of the field whose value is above 0.75. *)
Definition above_0_75 (truth : truth_field) (r c : Z) : Prop :=
  (0 <= r < Z.of_nat (Nd.shape0 truth) /\ 0 <= c < Z.of_nat (Nd.shape1 truth)) /\
  Float64.ltb Float64.lit_0_75 (Nd.get S754_nan truth r c) = true.

(** The draw of one category (the body of the first comprehension of
    [make_labelled_sets]). *)
Definition choose_for (R : RandomSource) (quotas : dict positive)
           (centers : dict coords) (name : string) : M R (string * list Z) :=
  bindS (lift (lookup centers name)) (fun pool =>
  bindS (lift (lookup quotas name)) (fun count =>
  bindS (random_choice R (arange (length pool)) count) (fun chosen =>
  ret (name, chosen)))).

(** Indices that fill a category's quota and point into its pool. *)
Definition in_pool_range (quotas : dict positive) (centers : dict coords)
           (name : string) (chosen : list Z) : Prop :=
  length chosen = Pos.to_nat (quota_of quotas name) /\
  Forall (fun i => 0 <= i < Z.of_nat (length (category_array centers name)))
         chosen.

(** The label a pixel calls for: 1 where the truth exceeds 0.75, else 0. *)
Definition pixel_label (truth : truth_field) (r c : Z) : Z :=
  if Nd.get false (gt_0_75 truth) r c then 1 else 0.

(** The array [get_centers_single_image] returns under a category name. *)
Definition single_image_array (truth : truth_field) (im_no border : Z)
           (name : string) : coords :=
  category_array (get_centers_single_image truth im_no border) name.

(** A field none of whose values lies in the damage range. *)
Definition undamaged (truth : truth_field) : Prop :=
  Forall (Forall (fun t =>
                    Float64.ltb Float64.lit_0_75 t && Float64.ltb t Float64.lit_1
                    = false)) truth.

(** A 5 x 5 field with one spot pixel of value 1 in its centre. *)
Definition truth_dot : truth_field :=
  let o := S754_zero false in
  let i := Float64.lit_1 in
  [ [o; o; o; o; o];
    [o; o; o; o; o];
    [o; o; i; o; o];
    [o; o; o; o; o];
    [o; o; o; o; o] ].

(** The pool [get_centers] forms for a category: that category's arrays of
    all images, joined in the order of the images. *)
Definition corpus_pool (truths : list truth_field) (border : Z) (name : string)
  : coords :=
  concat (map (fun cs => category_array cs name)
              (per_image_centers truths border)).

(** A 5 x 9 field whose one spot pixel is damaged, and a dict of pools with
    a category the sampler has no quota for. *)
Definition truth_strip : truth_field :=
  let o := S754_zero false in
  let d := f_0_9 in
  [ [o; o; o; o; o; o; o; o; o];
    [o; o; o; o; o; o; o; o; o];
    [o; o; d; o; o; o; o; o; o];
    [o; o; o; o; o; o; o; o; o];
    [o; o; o; o; o; o; o; o; o] ].

Definition pools_with_edge : dict coords :=
  [ ("inside", [(1, 1, 0)]); ("edge", [(2, 2, 0)]);
    ("outside", [(3, 3, 0)]) ]%string.

(** An array that is rectangular and has the shape of the field. *)
Definition shaped_as {A} (truth : truth_field) (m : Nd.ndarray A) : Prop :=
  Nd.rect m /\ Nd.shape0 m = Nd.shape0 truth /\ Nd.shape1 m = Nd.shape1 truth.

(** * Properties *)

(** ** The concrete random source *)

Module LcgFacts.

Lemma draws_length g high size : length (fst (Lcg.draws g high size)) = size.
Proof.
  revert g; induction size as [|size IH]; intros g; simpl; [reflexivity|].
  specialize (IH (Lcg.next g)).
  destruct (Lcg.draws (Lcg.next g) high size); simpl in *.
  now rewrite IH.
Qed.

Lemma draws_range g high size :
  (0 < high)%nat -> Forall (fun i => (i < high)%nat) (fst (Lcg.draws g high size)).
Proof.
  intros Hh. revert g; induction size as [|size IH]; intros g;
    cbn [Lcg.draws fst].
  - constructor.
  - specialize (IH (Lcg.next g)).
    destruct (Lcg.draws (Lcg.next g) high size); simpl in *.
    constructor; [|exact IH].
    pose proof (Z.mod_pos_bound (Lcg.next g) (Z.of_nat high) ltac:(lia)). lia.
Qed.

Lemma insert_all_perm g l : Permutation (fst (Lcg.insert_all g l)) l.
Proof.
  revert g; induction l as [|x l IH]; intros g; cbn [Lcg.insert_all fst].
  - constructor.
  - specialize (IH g). destruct (Lcg.insert_all g l) as [done g']; simpl in *.
    apply Permutation_sym, Permutation_cons_app.
    rewrite firstn_skipn. now apply Permutation_sym.
Qed.

Lemma lawful_source : lawful Lcg.source.
Proof.
  constructor.
  - exact draws_length.
  - exact draws_range.
  - exact insert_all_perm.
Qed.

End LcgFacts.

(** ** The embedding at work *)

Module Examples.

Example literals :
  Float64.lit_0_75 = S754_finite false 6755399441055744 (-53) /\
  Float64.lit_0_25 = S754_finite false 4503599627370496 (-54) /\
  Float64.lit_1 = S754_finite false 4503599627370496 (-52) /\
  Float64.lit_0_1 = S754_finite false 7205759403792794 (-56).
Proof. repeat split; vm_compute; reflexivity. Qed.

Example default_split_index :
  python_int (training_share Float64.lit_0_1 800000) = inr 720000.
Proof. vm_compute. reflexivity. Qed.

Example split_index_of_0_425 :
  split_0_425 = S754_finite false 7656119366529843 (-54) /\
  python_int (training_share split_0_425 800000) = inr 459999 /\
  Qfloor (Float64.to_Q split_0_425 * inject_Z 800000)%Q = 339999 /\
  Qceiling (Float64.to_Q split_0_425 * inject_Z 800000)%Q = 340000 /\
  ((425 # 1000) * inject_Z 800000 == inject_Z 340000)%Q.
Proof. repeat split; vm_compute; reflexivity. Qed.

Example int_truncates_toward_zero :
  python_int (Float64.div (Float64.of_int (-9)) (Float64.of_int 2)) = inr (-4).
Proof. vm_compute. reflexivity. Qed.

Example slices_of_five :
  map (in_slice 5 2 (-2)) [0; 1; 2; 3; 4] = [false; false; true; false; false] /\
  map (in_slice 5 0 (- 0)) [0; 1; 2; 3; 4] = [false; false; false; false; false] /\
  map (in_slice 5 (-4) 4) [0; 1; 2; 3; 4] = [false; true; true; true; false].
Proof. repeat split; vm_compute; reflexivity. Qed.

Example damaged_spot_of_enclosed_pixel :
  make_damaged_spot_mask truth_enclosed =
  [ [false; false; false]; [false; true; false]; [false; false; false] ].
Proof. vm_compute. reflexivity. Qed.

Example damaged_spot_of_block :
  make_damaged_spot_mask truth_block =
  [ [false; false; false; false; false; false];
    [false; false; false; false; false; false];
    [false; false; false; true; false; false];
    [false; false; true; false; false; false];
    [false; false; false; false; false; false];
    [false; false; false; false; false; false] ].
Proof. vm_compute. reflexivity. Qed.

Example centers_of_block :
  get_centers_single_image truth_block 3 2 =
  [ ("inside", [(2, 2, 3); (2, 3, 3); (3, 2, 3); (3, 3, 3)]);
    ("outside", []);
    ("inside_damaged", [(2, 3, 3); (3, 2, 3)]);
    ("outside_damaged", []);
    ("block_border", []);
    ("between", []) ]%string.
Proof. vm_compute. reflexivity. Qed.

Example centers_of_two_blocks :
  get_centers [truth_block; truth_block] 2 =
  inr [ ("inside", [(2, 2, 0); (2, 3, 0); (3, 2, 0); (3, 3, 0);
                    (2, 2, 1); (2, 3, 1); (3, 2, 1); (3, 3, 1)]);
        ("outside", []);
        ("inside_damaged", [(2, 3, 0); (3, 2, 0); (2, 3, 1); (3, 2, 1)]);
        ("outside_damaged", []);
        ("block_border", []);
        ("between", []) ]%string.
Proof. vm_compute. reflexivity. Qed.

Example small_run :
  make_labelled_sets_with Lcg.source small_quotas small_pools
    Float64.lit_0_25 42 =
  inr ([(2, 2, 0); (5, 5, 0); (3, 3, 0); (8, 8, 0); (3, 3, 0); (9, 9, 0);
        (1, 1, 0)],
       [1; 0; 0; 0; 0; 0; 1],
       [(4, 4, 0); (2, 2, 0); (6, 6, 0)],
       [1; 1; 0],
       1440974758).
Proof. vm_compute. reflexivity. Qed.

Example small_run_on_an_empty_pool :
  make_labelled_sets_with Lcg.source small_quotas
    (("inside"%string, []) :: tl small_pools) Float64.lit_0_25 42 =
  inl (ValueError "a must be non-empty").
Proof. vm_compute. reflexivity. Qed.

End Examples.

(** ** Arrays *)

Module NdFacts.
Section Facts.
Context {A : Type}.
Implicit Types (a : Nd.ndarray A) (d : A).

Lemma nth_tabulated {B} (F : nat -> B) len n (dflt : B) :
  (n < len)%nat -> nth n (List.map F (seq 0 len)) dflt = F n.
Proof.
  intros Hn.
  rewrite (nth_indep _ dflt (F 0%nat)) by now rewrite length_map, length_seq.
  rewrite map_nth, seq_nth by assumption. reflexivity.
Qed.

Lemma get_default_indep d d' a r c :
  Nd.inside a r c -> Nd.get d a r c = Nd.get d' a r c.
Proof.
  unfold Nd.inside, Nd.get. intros (Hr & _ & Hc & Hlen).
  destruct (r <? 0) eqn:Er; [apply Z.ltb_lt in Er; lia|].
  destruct (c <? 0) eqn:Ec; [apply Z.ltb_lt in Ec; lia|]. simpl.
  now apply nth_indep.
Qed.

Lemma inside_tabulate h w (f : Z -> Z -> A) r c :
  Nd.inside (Nd.tabulate h w f) r c <->
  0 <= r < Z.of_nat h /\ 0 <= c < Z.of_nat w.
Proof.
  unfold Nd.inside, Nd.shape0, Nd.tabulate. rewrite length_map, length_seq.
  split.
  - intros (Hr & Hrh & Hc & Hcw).
    rewrite nth_tabulated in Hcw by assumption.
    rewrite length_map, length_seq in Hcw. lia.
  - intros [Hr Hc]. repeat split; try lia.
    rewrite nth_tabulated by lia. rewrite length_map, length_seq. lia.
Qed.

Lemma get_tabulate d h w (f : Z -> Z -> A) r c :
  0 <= r < Z.of_nat h -> 0 <= c < Z.of_nat w ->
  Nd.get d (Nd.tabulate h w f) r c = f r c.
Proof.
  intros Hr Hc. unfold Nd.get, Nd.tabulate.
  destruct (r <? 0) eqn:Er; [apply Z.ltb_lt in Er; lia|].
  destruct (c <? 0) eqn:Ec; [apply Z.ltb_lt in Ec; lia|]. simpl.
  rewrite nth_tabulated by lia. rewrite nth_tabulated by lia.
  now rewrite !Z2Nat.id by lia.
Qed.

Lemma shape0_tabulate h w (f : Z -> Z -> A) :
  Nd.shape0 (Nd.tabulate h w f) = h.
Proof. unfold Nd.shape0, Nd.tabulate. now rewrite length_map, length_seq. Qed.

Lemma shape1_tabulate h w (f : Z -> Z -> A) :
  (0 < h)%nat -> Nd.shape1 (Nd.tabulate h w f) = w.
Proof.
  destruct h as [|h]; [lia|]. intros _. unfold Nd.tabulate. simpl.
  now rewrite length_map, length_seq.
Qed.

Lemma rect_tabulate h w (f : Z -> Z -> A) : Nd.rect (Nd.tabulate h w f).
Proof.
  unfold Nd.rect. apply Forall_forall. intros row Hin.
  destruct h as [|h]; [contradiction|].
  rewrite shape1_tabulate by lia.
  unfold Nd.tabulate in Hin. apply in_map_iff in Hin as (r & <- & _).
  now rewrite length_map, length_seq.
Qed.

End Facts.

Lemma nth_zip_row_and xs ys n :
  nth n (Nd.zip_row andb xs ys) false = nth n xs false && nth n ys false.
Proof.
  revert ys n. induction xs as [|x xs IH]; intros [|y ys] [|n]; simpl;
    try reflexivity; try (now rewrite andb_false_r).
  apply IH.
Qed.

Lemma nth_zip_rows {A B C} (f : A -> B -> C) (a : Nd.ndarray A) (b : Nd.ndarray B) n :
  nth n (Nd.zip f a b) [] = Nd.zip_row f (nth n a []) (nth n b []).
Proof.
  unfold Nd.zip. revert b n.
  induction a as [|ra a IH]; intros [|rb b] [|n]; simpl; try reflexivity;
    try (now destruct ra);
    try (now destruct n);
    try (now destruct (nth n a []));
    try (now destruct (nth n b []); destruct n).
Qed.

(** [&] reads pointwise, also outside the arrays. *)
Lemma get_and a b r c :
  Nd.get false (Nd.and_ a b) r c = Nd.get false a r c && Nd.get false b r c.
Proof.
  unfold Nd.get, Nd.and_.
  destruct ((r <? 0) || (c <? 0)); [reflexivity|].
  rewrite nth_zip_rows. apply nth_zip_row_and.
Qed.

Lemma inside_map {A B} (f : A -> B) (a : Nd.ndarray A) r c :
  Nd.inside (Nd.map f a) r c <-> Nd.inside a r c.
Proof.
  unfold Nd.inside, Nd.shape0, Nd.map. rewrite length_map.
  replace (@nil B) with (List.map f []) by reflexivity.
  rewrite map_nth, length_map. reflexivity.
Qed.

Lemma get_map {A B} (f : A -> B) d d' (a : Nd.ndarray A) r c :
  Nd.inside a r c -> Nd.get d' (Nd.map f a) r c = f (Nd.get d a r c).
Proof.
  intros Hin. rewrite (get_default_indep d' (f d)) by now apply inside_map.
  unfold Nd.get, Nd.map. destruct Hin as (Hr & _ & Hc & _).
  destruct (r <? 0) eqn:Er; [apply Z.ltb_lt in Er; lia|].
  destruct (c <? 0) eqn:Ec; [apply Z.ltb_lt in Ec; lia|]. simpl.
  replace (@nil B) with (List.map f []) by reflexivity.
  now rewrite !map_nth.
Qed.

(** A true entry lies inside the array. *)
Lemma get_true_inside (a : Nd.ndarray bool) r c :
  Nd.get false a r c = true -> Nd.inside a r c.
Proof.
  intros Hget. destruct (Bool.bool_dec (Nd.get false a r c) false) as [E|E];
    [congruence|].
  unfold Nd.inside. unfold Nd.get in E.
  destruct (r <? 0) eqn:Er; [easy|]. destruct (c <? 0) eqn:Ec; [easy|].
  simpl in E. apply Z.ltb_ge in Er, Ec.
  destruct (Nat.lt_ge_cases (Z.to_nat r) (length a)) as [H1|H1].
  - destruct (Nat.lt_ge_cases (Z.to_nat c) (length (nth (Z.to_nat r) a [])))
      as [H2|H2]; [auto|].
    now rewrite (nth_overflow _ _ H2) in E.
  - rewrite (nth_overflow _ _ H1) in E. now destruct (Z.to_nat c).
Qed.

(** A true entry of a broadcast comparison is an entry of the array. *)
Lemma get_map_true {A} (f : A -> bool) d (a : Nd.ndarray A) r c :
  Nd.get false (Nd.map f a) r c = true ->
  Nd.inside a r c /\ f (Nd.get d a r c) = true.
Proof.
  intros Hget.
  assert (Hin : Nd.inside a r c)
    by (apply inside_map with (f := f); now apply get_true_inside).
  split; [assumption|]. now rewrite <- (get_map f d false).
Qed.

Lemma shape0_map {A B} (f : A -> B) (a : Nd.ndarray A) :
  Nd.shape0 (Nd.map f a) = Nd.shape0 a.
Proof. unfold Nd.shape0, Nd.map. now rewrite length_map. Qed.

Lemma shape1_map {A B} (f : A -> B) (a : Nd.ndarray A) :
  Nd.shape1 (Nd.map f a) = Nd.shape1 a.
Proof. destruct a; simpl; [reflexivity|]. now rewrite length_map. Qed.

End NdFacts.

(** ** Morphology *)

Module MorphFacts.
Import NdFacts.

Lemma offsets_ones_3_3 :
  ndimage.offsets (Nd.ones 3 3) =
  [(-1, -1); (-1, 0); (-1, 1); (0, -1); (0, 0); (0, 1); (1, -1); (1, 0); (1, 1)].
Proof. reflexivity. Qed.

Lemma shape1_tabulate_same {A B} (a : Nd.ndarray A) (f : Z -> Z -> B) :
  Nd.shape1 (Nd.tabulate (Nd.shape0 a) (Nd.shape1 a) f) = Nd.shape1 a.
Proof.
  destruct a as [|row a]; [reflexivity|].
  apply shape1_tabulate. simpl. lia.
Qed.

(** A dilated array is a table of the shape of its input. *)
Lemma binary_dilation_tabulated x s n :
  exists g, ndimage.binary_dilation x s n =
            Nd.tabulate (Nd.shape0 x) (Nd.shape1 x) g.
Proof.
  unfold ndimage.binary_dilation.
  induction n as [|n IH] using Pos.peano_ind.
  - simpl. unfold ndimage.dilate_once. eauto.
  - rewrite Pos.iter_succ. destruct IH as [g ->].
    unfold ndimage.dilate_once at 1.
    rewrite shape0_tabulate, shape1_tabulate_same. eauto.
Qed.

Lemma binary_dilation_inside x s n r c :
  Nd.inside (ndimage.binary_dilation x s n) r c <->
  0 <= r < Z.of_nat (Nd.shape0 x) /\ 0 <= c < Z.of_nat (Nd.shape1 x).
Proof.
  destruct (binary_dilation_tabulated x s n) as [g ->]. apply inside_tabulate.
Qed.

(** The full 3 x 3 element contains its centre, so a dilation keeps every
    true pixel that lies within the shape of the array. *)
Lemma dilate_once_extensive x r c :
  0 <= r < Z.of_nat (Nd.shape0 x) -> 0 <= c < Z.of_nat (Nd.shape1 x) ->
  Nd.get false x r c = true ->
  Nd.get false (ndimage.dilate_once (Nd.ones 3 3) x) r c = true.
Proof.
  intros Hr Hc Hx. unfold ndimage.dilate_once.
  rewrite get_tabulate by assumption.
  apply existsb_exists. exists (0, 0). split.
  - rewrite offsets_ones_3_3. simpl. tauto.
  - simpl. now rewrite !Z.sub_0_r.
Qed.

Lemma binary_dilation_extensive x n r c :
  0 <= r < Z.of_nat (Nd.shape0 x) -> 0 <= c < Z.of_nat (Nd.shape1 x) ->
  Nd.get false x r c = true ->
  Nd.get false (ndimage.binary_dilation x (Nd.ones 3 3) n) r c = true.
Proof.
  intros Hr Hc Hx. unfold ndimage.binary_dilation.
  induction n as [|n IH] using Pos.peano_ind.
  - simpl. now apply dilate_once_extensive.
  - rewrite Pos.iter_succ.
    destruct (binary_dilation_tabulated x (Nd.ones 3 3) n) as [g Hg].
    unfold ndimage.binary_dilation in Hg.
    apply dilate_once_extensive; [| |exact IH];
      rewrite Hg; [rewrite shape0_tabulate|rewrite shape1_tabulate_same];
      assumption.
Qed.

Lemma get_not (a : Nd.ndarray bool) r c :
  Nd.inside a r c ->
  Nd.get false (Nd.not_ a) r c = negb (Nd.get false a r c).
Proof. intros Hin. unfold Nd.not_. now apply get_map. Qed.

(** Within the shape of the array, one dilation by the full 3 x 3 element
    looks at the pixel and its eight neighbours. *)
Lemma dilate_once_neighbourhood x r c :
  Nd.get false (ndimage.dilate_once (Nd.ones 3 3) x) r c = true <->
  (0 <= r < Z.of_nat (Nd.shape0 x) /\ 0 <= c < Z.of_nat (Nd.shape1 x)) /\
  exists r' c', Z.abs (r - r') <= 1 /\ Z.abs (c - c') <= 1 /\
                Nd.get false x r' c' = true.
Proof.
  split.
  - intros Hget.
    pose proof (get_true_inside _ _ _ Hget) as Hin.
    apply inside_tabulate in Hin. split; [exact Hin|].
    unfold ndimage.dilate_once in Hget.
    rewrite get_tabulate in Hget by apply Hin.
    apply existsb_exists in Hget as ([dr dc] & Ho & Hx).
    exists (r - dr), (c - dc).
    rewrite offsets_ones_3_3 in Ho. simpl in Ho, Hx.
    repeat (destruct Ho as [Ho|Ho];
            [injection Ho as E1 E2; subst dr dc;
             repeat split; [lia|lia|exact Hx]|]).
    contradiction.
  - intros ([Hr Hc] & r' & c' & Hdr & Hdc & Hx).
    unfold ndimage.dilate_once. rewrite get_tabulate by assumption.
    apply existsb_exists. exists (r - r', c - c'). split.
    + rewrite offsets_ones_3_3.
      assert (Er : r - r' = -1 \/ r - r' = 0 \/ r - r' = 1) by lia.
      assert (Ec : c - c' = -1 \/ c - c' = 0 \/ c - c' = 1) by lia.
      destruct Er as [E | [E | E]]; rewrite E;
        destruct Ec as [E' | [E' | E']]; rewrite E'; simpl; tauto.
    + simpl. now replace (r - (r - r')) with r' by lia;
        replace (c - (c - c')) with c' by lia.
Qed.

(** The [n]-fold dilation by the full 3 x 3 element marks the pixels within
    Chebyshev distance [n] of a true pixel of the input. *)
Lemma binary_dilation_chebyshev x n r c :
  (forall r' c', Nd.get false x r' c' = true -> c' < Z.of_nat (Nd.shape1 x)) ->
  Nd.get false (ndimage.binary_dilation x (Nd.ones 3 3) n) r c = true <->
  (0 <= r < Z.of_nat (Nd.shape0 x) /\ 0 <= c < Z.of_nat (Nd.shape1 x)) /\
  exists r' c', Z.abs (r - r') <= Zpos n /\ Z.abs (c - c') <= Zpos n /\
                Nd.get false x r' c' = true.
Proof.
  intros Hwide. unfold ndimage.binary_dilation. revert r c.
  induction n as [|n IH] using Pos.peano_ind; intros r c.
  - simpl. apply dilate_once_neighbourhood.
  - rewrite Pos.iter_succ, dilate_once_neighbourhood.
    destruct (binary_dilation_tabulated x (Nd.ones 3 3) n) as [f Hf].
    unfold ndimage.binary_dilation in Hf.
    rewrite Hf at 1 2. rewrite shape0_tabulate, shape1_tabulate_same.
    split.
    + intros (Hb & r1 & c1 & Hdr & Hdc & Hy). split; [exact Hb|].
      apply IH in Hy as (_ & r' & c' & Hdr' & Hdc' & Hx).
      exists r', c'. repeat split; [lia|lia|exact Hx].
    + intros (Hb & r' & c' & Hdr & Hdc & Hx). split; [exact Hb|].
      pose proof (get_true_inside _ _ _ Hx) as (Hr0 & Hrh & Hc0 & _).
      pose proof (Hwide _ _ Hx) as Hcw. unfold Nd.shape0 in *.
      exists (Z.max (r - 1) (Z.min (r + 1) r')),
             (Z.max (c - 1) (Z.min (c + 1) c')).
      split; [lia|]. split; [lia|].
      apply IH. split; [lia|].
      exists r', c'. repeat split; [lia|lia|exact Hx].
Qed.

End MorphFacts.

(** ** Mask builder *)

(** C1, as stated, fails: in [truth_enclosed] the centre pixel has the value 1,
    the closing of its damaged neighbours covers it, and the mask keeps it
    because the last intersection is with [0.75 < truth] only. *)
Lemma damaged_spot_mask_not_within_damage_range :
  ~ (forall (truth : truth_field) (r c : Z),
        Nd.get false (make_damaged_spot_mask truth) r c = true ->
        in_damage_range (Nd.get S754_nan truth r c)).
Proof.
  intros Hall.
  destruct (Hall truth_enclosed 1 1 eq_refl) as [_ Hlt].
  vm_compute in Hlt. discriminate.
Qed.

(** C1, amended: every pixel set to true in the output of
    [make_damaged_spot_mask] is a pixel of the field whose value exceeds 0.75
    and which lies in the 3 x 3 closing of the damaged pixels; pixels with a
    value of 0.75 or less are never included. *)
Theorem damaged_spot_mask_above_threshold :
  forall (truth : truth_field) (r c : Z),
    Nd.get false (make_damaged_spot_mask truth) r c = true ->
    Nd.inside truth r c /\
    Float64.ltb Float64.lit_0_75 (Nd.get S754_nan truth r c) = true /\
    Nd.get false (damaged_area truth) r c = true.
Proof.
  intros truth r c Hmask. unfold make_damaged_spot_mask in Hmask.
  rewrite NdFacts.get_and in Hmask. apply andb_true_iff in Hmask as [Harea Hgt].
  apply (NdFacts.get_map_true _ S754_nan) in Hgt as [Hin Hgt].
  repeat split; try assumption; apply Hin.
Qed.

Lemma damaged_spot_mask_above_threshold_witness :
  Nd.get false (make_damaged_spot_mask truth_enclosed) 1 1 = true /\
  Float64.ltb Float64.lit_0_75 (Nd.get S754_nan truth_enclosed 1 1) = true.
Proof.
  split; [reflexivity|].
  apply (damaged_spot_mask_above_threshold truth_enclosed 1 1). reflexivity.
Defined.

Module MaskFacts.
Import NdFacts MorphFacts.

(** The block-border mask, read pixel by pixel. *)
Lemma get_block_border truth r c :
  Nd.get false (make_block_border_mask truth) r c =
  Nd.get false (ndimage.binary_dilation (gt_0_75 truth) (Nd.ones 3 3) 15) r c
  && negb (Nd.get false
             (ndimage.binary_dilation (gt_0_75 truth) (Nd.ones 3 3) 3) r c).
Proof.
  unfold make_block_border_mask.
  set (near := ndimage.binary_dilation (gt_0_75 truth) (Nd.ones 3 3) 15).
  set (very_near := ndimage.binary_dilation (gt_0_75 truth) (Nd.ones 3 3) 3).
  rewrite get_and.
  destruct (Nd.get false near r c) eqn:Hnear; [|reflexivity]. simpl.
  apply get_not.
  apply get_true_inside in Hnear.
  apply binary_dilation_inside. now apply binary_dilation_inside in Hnear.
Qed.

(** In a rectangular field the true pixels of a comparison lie within the
    shape of the field. *)
Lemma comparison_within_shape (f : Float64.float -> bool) (truth : truth_field) r c :
  Nd.rect truth ->
  Nd.get false (Nd.map f truth) r c = true ->
  c < Z.of_nat (Nd.shape1 (Nd.map f truth)).
Proof.
  intros Hrect Hget.
  apply (get_map_true f S754_nan) in Hget as [(Hr & Hrh & Hc & Hcw) _].
  rewrite shape1_map. unfold Nd.rect in Hrect. rewrite Forall_forall in Hrect.
  rewrite (Hrect (nth (Z.to_nat r) truth [])) in Hcw by now apply nth_In.
  lia.
Qed.

(** The block border as an annulus: the pixels of a rectangular field that
    have a pixel above 0.75 within Chebyshev distance 15 and none within
    distance 3. *)
Lemma block_border_distances truth r c :
  Nd.rect truth ->
  Nd.get false (make_block_border_mask truth) r c = true <->
  (0 <= r < Z.of_nat (Nd.shape0 truth) /\ 0 <= c < Z.of_nat (Nd.shape1 truth)) /\
  (exists r' c', Z.abs (r - r') <= 15 /\ Z.abs (c - c') <= 15 /\
                 Nd.get false (gt_0_75 truth) r' c' = true) /\
  ~ (exists r' c', Z.abs (r - r') <= 3 /\ Z.abs (c - c') <= 3 /\
                   Nd.get false (gt_0_75 truth) r' c' = true).
Proof.
  intros Hrect.
  assert (Hwide : forall r' c', Nd.get false (gt_0_75 truth) r' c' = true ->
                                c' < Z.of_nat (Nd.shape1 (gt_0_75 truth)))
    by (intros r' c'; now apply comparison_within_shape).
  rewrite get_block_border, andb_true_iff, negb_true_iff.
  rewrite (binary_dilation_chebyshev _ 15 r c Hwide).
  rewrite <- not_true_iff_false.
  rewrite (binary_dilation_chebyshev _ 3 r c Hwide).
  unfold gt_0_75 at 1 2 4 5. rewrite shape0_map, shape1_map.
  tauto.
Qed.

(** In a rectangular field the broadcast comparison [0.75 < truth] is true
    exactly at the pixels of the field whose value is above 0.75. *)
Lemma get_gt_0_75 truth r c :
  Nd.rect truth ->
  Nd.get false (gt_0_75 truth) r c = true <-> above_0_75 truth r c.
Proof.
  intros Hrect. unfold above_0_75, gt_0_75. split.
  - intros Hget.
    apply (get_map_true _ S754_nan) in Hget as [Hin Hgt].
    split; [|exact Hgt].
    destruct Hin as (Hr & Hrh & Hc & Hcw).
    unfold Nd.rect in Hrect. rewrite Forall_forall in Hrect.
    pose proof (Hrect (nth (Z.to_nat r) truth []) (nth_In _ _ Hrh)) as Hw.
    unfold Nd.shape0, Float64.float in *. lia.
  - intros [[Hr Hc] Hgt].
    assert (Hrh : (Z.to_nat r < length truth)%nat)
      by (unfold Nd.shape0 in Hr; lia).
    assert (Hin : Nd.inside truth r c).
    { unfold Nd.rect in Hrect. rewrite Forall_forall in Hrect.
      pose proof (Hrect (nth (Z.to_nat r) truth []) (nth_In _ _ Hrh)) as Hw.
      unfold Nd.inside, Nd.shape0, Float64.float in *. repeat split; lia. }
    now rewrite (get_map _ S754_nan false).
Qed.

(** The [n]-fold dilation of [0.75 < truth], by distances. *)
Lemma dilation_of_above_0_75 truth n r c :
  Nd.rect truth ->
  Nd.get false (ndimage.binary_dilation (gt_0_75 truth) (Nd.ones 3 3) n) r c
  = true <->
  (0 <= r < Z.of_nat (Nd.shape0 truth) /\ 0 <= c < Z.of_nat (Nd.shape1 truth)) /\
  exists r' c', Z.abs (r - r') <= Zpos n /\ Z.abs (c - c') <= Zpos n /\
                above_0_75 truth r' c'.
Proof.
  intros Hrect.
  assert (Hwide : forall r' c', Nd.get false (gt_0_75 truth) r' c' = true ->
                                c' < Z.of_nat (Nd.shape1 (gt_0_75 truth)))
    by (intros r' c'; now apply comparison_within_shape).
  rewrite (binary_dilation_chebyshev _ n r c Hwide).
  unfold gt_0_75 at 1 2. rewrite shape0_map, shape1_map.
  split; intros [Hshape (r' & c' & Hr & Hc & Hx)];
    (split; [exact Hshape|]); exists r', c';
    (split; [exact Hr|]); (split; [exact Hc|]);
    now apply (get_gt_0_75 truth r' c' Hrect).
Qed.

End MaskFacts.

(** C8: in a rectangular field [make_block_border_mask] is, pixel by pixel,
    the 15-fold 3 x 3 dilation of [0.75 < truth] without its 3-fold dilation,
    where the [n]-fold dilation holds exactly the pixels of the field that
    have a value above 0.75 within Chebyshev distance [n]; so the output
    holds exactly the pixels with a value above 0.75 within distance 15 and
    none within distance 3, and no pixel of the output has a value above
    0.75. *)
Theorem block_border_mask_is_annulus :
  forall (truth : truth_field) (r c : Z),
    Nd.rect truth ->
    (forall n : positive,
        Nd.get false
          (ndimage.binary_dilation (gt_0_75 truth) (Nd.ones 3 3) n) r c = true <->
        (0 <= r < Z.of_nat (Nd.shape0 truth) /\
         0 <= c < Z.of_nat (Nd.shape1 truth)) /\
        exists r' c', Z.abs (r - r') <= Zpos n /\ Z.abs (c - c') <= Zpos n /\
                      above_0_75 truth r' c') /\
    Nd.get false (make_block_border_mask truth) r c =
      Nd.get false (ndimage.binary_dilation (gt_0_75 truth) (Nd.ones 3 3) 15) r c
      && negb (Nd.get false
                 (ndimage.binary_dilation (gt_0_75 truth) (Nd.ones 3 3) 3) r c) /\
    (Nd.get false (make_block_border_mask truth) r c = true <->
     (0 <= r < Z.of_nat (Nd.shape0 truth) /\
      0 <= c < Z.of_nat (Nd.shape1 truth)) /\
     (exists r' c', Z.abs (r - r') <= 15 /\ Z.abs (c - c') <= 15 /\
                    above_0_75 truth r' c') /\
     ~ (exists r' c', Z.abs (r - r') <= 3 /\ Z.abs (c - c') <= 3 /\
                      above_0_75 truth r' c')) /\
    (Nd.get false (make_block_border_mask truth) r c = true ->
     ~ above_0_75 truth r c).
Proof.
  intros truth r c Hrect.
  assert (Hdil : forall n : positive,
             Nd.get false
               (ndimage.binary_dilation (gt_0_75 truth) (Nd.ones 3 3) n) r c = true <->
             (0 <= r < Z.of_nat (Nd.shape0 truth) /\
              0 <= c < Z.of_nat (Nd.shape1 truth)) /\
             exists r' c', Z.abs (r - r') <= Zpos n /\ Z.abs (c - c') <= Zpos n /\
                           above_0_75 truth r' c')
    by (intros n; now apply MaskFacts.dilation_of_above_0_75).
  assert (Hmask : Nd.get false (make_block_border_mask truth) r c = true <->
                  (0 <= r < Z.of_nat (Nd.shape0 truth) /\
                   0 <= c < Z.of_nat (Nd.shape1 truth)) /\
                  (exists r' c', Z.abs (r - r') <= 15 /\ Z.abs (c - c') <= 15 /\
                                 above_0_75 truth r' c') /\
                  ~ (exists r' c', Z.abs (r - r') <= 3 /\ Z.abs (c - c') <= 3 /\
                                   above_0_75 truth r' c')).
  { rewrite MaskFacts.get_block_border, andb_true_iff, negb_true_iff.
    rewrite <- not_true_iff_false, (Hdil 15%positive), (Hdil 3%positive).
    tauto. }
  split; [exact Hdil|]. split; [apply MaskFacts.get_block_border|].
  split; [exact Hmask|].
  intros Hget Habove. apply Hmask in Hget as (_ & _ & Hfar).
  apply Hfar. exists r, c.
  rewrite !Z.sub_diag. simpl. split; [lia|]. split; [lia|exact Habove].
Qed.

Lemma block_border_mask_is_annulus_witness :
  Nd.rect truth_strip /\
  Nd.get false (make_block_border_mask truth_strip) 2 6 = true /\
  (exists r' c', Z.abs (2 - r') <= 15 /\ Z.abs (6 - c') <= 15 /\
                 above_0_75 truth_strip r' c') /\
  ~ (exists r' c', Z.abs (2 - r') <= 3 /\ Z.abs (6 - c') <= 3 /\
                   above_0_75 truth_strip r' c') /\
  ~ above_0_75 truth_strip 2 6.
Proof.
  assert (Hrect : Nd.rect truth_strip)
    by (unfold Nd.rect, truth_strip; repeat constructor).
  assert (Hget : Nd.get false (make_block_border_mask truth_strip) 2 6 = true)
    by (vm_compute; reflexivity).
  destruct (block_border_mask_is_annulus truth_strip 2 6 Hrect)
    as (_ & _ & Hmask & Hspot).
  split; [exact Hrect|]. split; [exact Hget|].
  destruct (proj1 Hmask Hget) as (_ & Hnear & Hfar).
  split; [exact Hnear|]. split; [exact Hfar|exact (Hspot Hget)].
Defined.

(** ** Coordinate extractor *)

Module ExtractFacts.
Import NdFacts.

Lemma single_image_by_category truth im_no border :
  get_centers_single_image truth im_no border =
  map (fun entry =>
         (fst entry,
          Nd.select (index_grid (Nd.shape0 truth) (Nd.shape1 truth) im_no)
            (Nd.and_ (snd entry)
               (away_from_border (Nd.shape0 truth) (Nd.shape1 truth) border))))
      (category_masks truth).
Proof.
  cbv beta iota zeta
      delta [List.map fst snd category_masks index_grid away_from_border
             get_centers_single_image].
  reflexivity.
Qed.

Lemma lookup_map_values {V W} (g : V -> W) (d : dict V) k :
  lookup (map (fun entry => (fst entry, g (snd entry))) d) k =
  (v <- lookup d k ;; inr (g v)).
Proof.
  induction d as [|[k' v] d IH]; simpl; [reflexivity|].
  now destruct (String.eqb k' k).
Qed.

Lemma single_image_lookup truth im_no border name :
  lookup (get_centers_single_image truth im_no border) name =
  (m <- lookup (category_masks truth) name ;;
   inr (Nd.select (index_grid (Nd.shape0 truth) (Nd.shape1 truth) im_no)
          (Nd.and_ m
             (away_from_border (Nd.shape0 truth) (Nd.shape1 truth) border)))).
Proof.
  rewrite single_image_by_category.
  exact (lookup_map_values
           (fun m =>
              Nd.select (index_grid (Nd.shape0 truth) (Nd.shape1 truth) im_no)
                (Nd.and_ m
                   (away_from_border (Nd.shape0 truth) (Nd.shape1 truth) border)))
           (category_masks truth) name).
Qed.

Lemma lookup_head {V} (d : dict V) k k' v :
  String.eqb k' k = true -> lookup ((k', v) :: d) k = inr v.
Proof. intros E. simpl. now rewrite E. Qed.

Lemma lookup_skip {V} (d : dict V) k k' v :
  String.eqb k' k = false -> lookup ((k', v) :: d) k = lookup d k.
Proof. intros E. simpl. now rewrite E. Qed.

Ltac lookup_literal :=
  repeat first [ rewrite lookup_head by reflexivity
               | rewrite lookup_skip by reflexivity ].

Lemma category_masks_total truth name :
  In name category_names -> exists m, lookup (category_masks truth) name = inr m.
Proof.
  unfold category_names, category_masks.
  intros [<-|[<-|[<-|[<-|[<-|[<-|[]]]]]]]; lookup_literal; eauto.
Qed.

Lemma zip_row_map {A B C X} (f : A -> B -> C) (g1 : X -> A) (g2 : X -> B) l :
  Nd.zip_row f (map g1 l) (map g2 l) = map (fun x => f (g1 x) (g2 x)) l.
Proof. induction l as [|x l IH]; simpl; [reflexivity|]. now rewrite IH. Qed.

Lemma zip_tabulate {A B C} (f : A -> B -> C) h w g1 g2 :
  Nd.zip f (Nd.tabulate h w g1) (Nd.tabulate h w g2) =
  Nd.tabulate h w (fun r c => f (g1 r c) (g2 r c)).
Proof.
  unfold Nd.zip, Nd.tabulate. rewrite zip_row_map.
  apply map_ext. intros r. apply zip_row_map.
Qed.

Lemma index_grid_tabulated h w im_no :
  index_grid h w im_no = Nd.tabulate h w (fun r c => (r, c, im_no * 1)).
Proof. unfold index_grid. now rewrite zip_tabulate. Qed.

(** What [a[:, mask]] selects sits at a true position of the mask. *)
Lemma in_pick {A} (xs : list A) bs x :
  In x (Nd.pick xs bs) ->
  exists j, nth_error xs j = Some x /\ nth j bs false = true.
Proof.
  revert bs. induction xs as [|y xs IH]; intros [|b bs]; simpl; try contradiction.
  destruct b; simpl.
  - intros [->|Hin].
    + now exists 0%nat.
    + destruct (IH _ Hin) as (j & ? & ?). now exists (S j).
  - intros Hin. destruct (IH _ Hin) as (j & ? & ?). now exists (S j).
Qed.

Lemma in_select {A} (d : A) (a : Nd.ndarray A) m x :
  In x (Nd.select a m) ->
  exists r c, Nd.inside a r c /\ Nd.get d a r c = x /\ Nd.get false m r c = true.
Proof.
  revert m. induction a as [|ra a IH]; intros [|rm m]; simpl; try contradiction.
  intros Hin. apply in_app_or in Hin as [Hin|Hin].
  - apply in_pick in Hin as (j & Hx & Hm).
    exists 0, (Z.of_nat j).
    assert (Hj : (j < length ra)%nat) by (apply nth_error_Some; congruence).
    unfold Nd.inside, Nd.get, Nd.shape0. simpl.
    destruct (Z.of_nat j <? 0) eqn:E; [apply Z.ltb_lt in E; lia|].
    rewrite Nat2Z.id. repeat split; try lia; try assumption.
    now apply nth_error_nth.
  - destruct (IH _ Hin) as (r & c & (Hr & Hrh & Hc & Hcw) & Hx & Hm).
    exists (r + 1), c.
    unfold Nd.inside, Nd.get, Nd.shape0 in *.
    replace (Z.to_nat (r + 1)) with (S (Z.to_nat r)) by lia. simpl.
    destruct (r <? 0) eqn:Er; [apply Z.ltb_lt in Er; lia|].
    destruct (r + 1 <? 0) eqn:Er1; [apply Z.ltb_lt in Er1; lia|].
    simpl in *. repeat split; try lia; assumption.
Qed.

Lemma get_away_from_border h w border r c :
  Nd.get false (away_from_border h w border) r c = true ->
  in_slice h border (- border) r = true /\ in_slice w border (- border) c = true.
Proof.
  unfold away_from_border, set_slice. intros Hget.
  pose proof (NdFacts.get_true_inside _ _ _ Hget) as Hin.
  apply inside_tabulate in Hin as [Hr Hc].
  rewrite shape0_tabulate in Hr, Hget.
  destruct h as [|h]; [lia|].
  rewrite shape1_tabulate in Hc, Hget by lia.
  rewrite get_tabulate in Hget by assumption.
  destruct (in_slice (S h) border (- border) r); simpl in Hget.
  - destruct (in_slice w border (- border) c); [auto|].
    rewrite get_tabulate in Hget by assumption. discriminate.
  - rewrite get_tabulate in Hget by assumption. discriminate.
Qed.

(** Every selected column is the coordinate of a pixel of the slice
    [border:-border] in both axes, tagged with the image number. *)
Lemma selected_column h w im_no border (m : mask) r c i :
  In (r, c, i) (Nd.select (index_grid h w im_no)
                          (Nd.and_ m (away_from_border h w border))) ->
  in_slice h border (- border) r = true /\
  in_slice w border (- border) c = true /\
  0 <= r < Z.of_nat h /\ 0 <= c < Z.of_nat w /\ i = im_no /\
  Nd.get false m r c = true.
Proof.
  intros Hin. rewrite index_grid_tabulated in Hin.
  apply (in_select (0, 0, 0)) in Hin as (r' & c' & Hins & Hx & Hm).
  apply inside_tabulate in Hins as [Hr Hc].
  rewrite get_tabulate in Hx by assumption.
  injection Hx as <- <- <-.
  rewrite get_and in Hm. apply andb_true_iff in Hm as [Hm Haway].
  apply get_away_from_border in Haway as [H1 H2].
  repeat split; try assumption; lia.
Qed.

Lemma in_slice_bounds len border i :
  in_slice len border (- border) i = true ->
  border <= i < Z.of_nat len - border.
Proof.
  unfold in_slice, slice_bound. intros H.
  apply andb_true_iff in H as [H1 H2].
  apply Z.leb_le in H1. apply Z.ltb_lt in H2.
  destruct (border <? 0) eqn:E1; destruct (- border <? 0) eqn:E2;
    try apply Z.ltb_lt in E1; try apply Z.ltb_ge in E1;
    try apply Z.ltb_lt in E2; try apply Z.ltb_ge in E2; lia.
Qed.

Lemma in_slice_zero len i : in_slice len 0 (- 0) i = false.
Proof.
  unfold in_slice, slice_bound. simpl.
  destruct (Z.min 0 (Z.of_nat len) <=? i) eqn:E1; [|reflexivity].
  apply Z.leb_le in E1. simpl. apply Z.ltb_ge. lia.
Qed.

Lemma select_zero_border h w im_no (m : mask) :
  Nd.select (index_grid h w im_no) (Nd.and_ m (away_from_border h w 0)) = [].
Proof.
  destruct (Nd.select _ _) as [|[[r c] i] rest] eqn:E; [reflexivity|].
  assert (Hin : In (r, c, i)
                   (Nd.select (index_grid h w im_no)
                              (Nd.and_ m (away_from_border h w 0))))
    by (rewrite E; now left).
  apply selected_column in Hin as (H1 & _).
  now rewrite in_slice_zero in H1.
Qed.

End ExtractFacts.

(** C2: for every truth field, image index and border, each of the six
    categories has an array in the result of [get_centers_single_image], and
    every column [(r, c, i)] of it satisfies [border <= r < height - border]
    and [border <= c < width - border]. *)
Theorem single_image_coordinates_away_from_border :
  forall (truth : truth_field) (im_no border : Z) (name : string),
    In name category_names ->
    exists pool,
      lookup (get_centers_single_image truth im_no border) name = inr pool /\
      forall r c i,
        In (r, c, i) pool ->
        border <= r < Z.of_nat (Nd.shape0 truth) - border /\
        border <= c < Z.of_nat (Nd.shape1 truth) - border.
Proof.
  intros truth im_no border name Hname.
  rewrite ExtractFacts.single_image_lookup.
  destruct (ExtractFacts.category_masks_total truth name Hname) as [m ->].
  cbn [bind]. eexists; split; [reflexivity|].
  intros r c i Hin.
  apply ExtractFacts.selected_column in Hin as (Hr & Hc & _).
  split; now apply ExtractFacts.in_slice_bounds.
Qed.

Lemma single_image_coordinates_away_from_border_witness :
  In "inside"%string category_names /\
  exists pool,
    lookup (get_centers_single_image truth_block 3 2) "inside" = inr pool /\
    forall r c i,
      In (r, c, i) pool ->
      2 <= r < Z.of_nat (Nd.shape0 truth_block) - 2 /\
      2 <= c < Z.of_nat (Nd.shape1 truth_block) - 2.
Proof.
  assert (Hname : In "inside"%string category_names) by (simpl; auto).
  split; [exact Hname|].
  exact (single_image_coordinates_away_from_border truth_block 3 2 "inside" Hname).
Defined.

(** C9: with [border = 0] the slice [0:-0] is empty, so every one of the six
    categories gets an array without columns, whatever the truth field. *)
Theorem single_image_zero_border_is_empty :
  forall (truth : truth_field) (im_no : Z),
    get_centers_single_image truth im_no 0 =
    map (fun name => (name, [])) category_names.
Proof.
  intros truth im_no.
  rewrite ExtractFacts.single_image_by_category.
  unfold category_masks, category_names. cbn [map fst snd].
  now rewrite !ExtractFacts.select_zero_border.
Qed.

(** ** Corpus aggregator *)

Module AggregateFacts.
Import ExtractFacts.

Lemma keys_single_image truth im_no border :
  keys (get_centers_single_image truth im_no border) = category_names.
Proof. reflexivity. Qed.

Lemma lookup_single_image truth im_no border name :
  In name category_names ->
  lookup (get_centers_single_image truth im_no border) name =
  inr (category_array (get_centers_single_image truth im_no border) name).
Proof.
  intros Hname. unfold category_array.
  rewrite single_image_lookup.
  destruct (category_masks_total truth name Hname) as [m ->]. reflexivity.
Qed.

Lemma mapM_total {A B} (f : A -> result B) (g : A -> B) l :
  (forall x, In x l -> f x = inr (g x)) -> mapM f l = inr (map g l).
Proof.
  induction l as [|x l IH]; intros Hf; simpl; [reflexivity|].
  rewrite (Hf x) by now left. simpl.
  rewrite IH by (intros; apply Hf; now right). reflexivity.
Qed.

Lemma lookup_per_image truths border name :
  In name category_names ->
  mapM (fun cs => lookup cs name) (per_image_centers truths border) =
  inr (map (fun cs => category_array cs name) (per_image_centers truths border)).
Proof.
  intros Hname. apply mapM_total. intros cs Hin.
  unfold per_image_centers in Hin. apply in_map_iff in Hin as (it & <- & _).
  now apply lookup_single_image.
Qed.

Lemma setitem_fresh {V} (d : dict V) k v :
  ~ In k (keys d) -> setitem d k v = d ++ [(k, v)].
Proof.
  induction d as [|[k' v'] d IH]; simpl; intros Hk; [reflexivity|].
  destruct (String.eqb k' k) eqn:E.
  - apply String.eqb_eq in E. tauto.
  - rewrite IH by tauto. reflexivity.
Qed.

(** A loop that stores one value per distinct key builds the dict of those
    values in the order of the keys. *)
Lemma foldM_setitem {V} (step : dict V -> string -> result (dict V))
      (value : string -> V) names acc :
  NoDup names ->
  (forall name, In name names -> ~ In name (keys acc)) ->
  (forall res name,
      In name names -> step res name = inr (setitem res name (value name))) ->
  foldM step names acc = inr (acc ++ map (fun name => (name, value name)) names).
Proof.
  revert acc. induction names as [|name names IH]; intros acc Hnd Hfresh Hstep; simpl.
  - now rewrite app_nil_r.
  - rewrite Hstep by now left. simpl.
    rewrite setitem_fresh by (apply Hfresh; now left).
    inversion Hnd as [|? ? Hnotin Hnd']; subst.
    rewrite IH.
    + now rewrite <- app_assoc.
    + assumption.
    + intros k Hk. unfold keys. rewrite map_app, in_app_iff. simpl.
      intros [Hacc|[<-|[]]]; [|contradiction].
      apply (Hfresh k); [now right|exact Hacc].
    + intros res k Hk. apply Hstep. now right.
Qed.

Lemma NoDup_category_names : NoDup category_names.
Proof.
  unfold category_names.
  repeat (constructor; [simpl; intuition discriminate|]). constructor.
Qed.

(** The whole result of [get_centers] on a non-empty sequence. *)
Lemma get_centers_nonempty truth truths border :
  get_centers (truth :: truths) border =
  inr (map (fun name =>
              (name,
               concat (map (fun cs => category_array cs name)
                           (per_image_centers (truth :: truths) border))))
           category_names).
Proof.
  unfold get_centers. fold (per_image_centers (truth :: truths) border).
  remember (per_image_centers (truth :: truths) border) as centers eqn:Hc.
  assert (Hne : exists cs rest, centers = cs :: rest /\ keys cs = category_names).
  { subst centers. unfold per_image_centers. simpl. eauto using keys_single_image. }
  destruct Hne as (cs & rest & Hcs & Hkeys). rewrite Hcs at 1. cbn [bind].
  rewrite Hkeys.
  rewrite (foldM_setitem _
             (fun name => concat (map (fun cs => category_array cs name) centers))).
  - reflexivity.
  - exact NoDup_category_names.
  - intros name _ [].
  - intros res name Hname. subst centers.
    rewrite lookup_per_image by assumption. cbn [bind].
    unfold sp_concatenate. simpl. reflexivity.
Qed.

Lemma lookup_named {V} (value : string -> V) names name :
  In name names ->
  lookup (map (fun name => (name, value name)) names) name = inr (value name).
Proof.
  induction names as [|k names IH]; simpl; [contradiction|].
  destruct (String.eqb k name) eqn:E.
  - apply String.eqb_eq in E. now subst.
  - intros [->|Hin]; [now rewrite String.eqb_refl in E|auto].
Qed.

Lemma keys_named {V} (value : string -> V) names :
  keys (map (fun name => (name, value name)) names) = names.
Proof. unfold keys. rewrite map_map. apply map_id. Qed.

Lemma Forall2_map_r {A B} (P : A -> B -> Prop) (g : A -> B) l :
  (forall x, In x l -> P x (g x)) -> Forall2 P l (map g l).
Proof.
  induction l as [|x l IH]; intros H; simpl; constructor.
  - apply H. now left.
  - apply IH. intros; apply H; now right.
Qed.

End AggregateFacts.

(** C7: on a non-empty sequence of truth fields [get_centers] returns, for each
    of the six categories, the concatenation of that category's per-image
    arrays in the order of the images (image [i] being extracted with index
    [i]), so the pool has as many columns as the per-image arrays together. *)
Theorem get_centers_concatenates_in_image_order :
  forall (truth : truth_field) (truths : list truth_field) (border : Z),
  exists result,
    get_centers (truth :: truths) border = inr result /\
    forall name,
      In name category_names ->
      exists arrays,
        Forall2 (fun it array =>
                   lookup (get_centers_single_image (snd it) (fst it) border) name
                   = inr array)
                (enumerate_from 0 (truth :: truths)) arrays /\
        lookup result name = inr (concat arrays) /\
        length (concat arrays) = list_sum (map (@length column) arrays).
Proof.
  intros truth truths border. eexists. split.
  - apply AggregateFacts.get_centers_nonempty.
  - intros name Hname.
    exists (map (fun cs => category_array cs name)
                (per_image_centers (truth :: truths) border)).
    split; [|split].
    + unfold per_image_centers. rewrite map_map.
      apply AggregateFacts.Forall2_map_r. intros it _.
      now apply AggregateFacts.lookup_single_image.
    + exact (AggregateFacts.lookup_named
               (fun name => concat (map (fun cs => category_array cs name)
                                        (per_image_centers (truth :: truths) border)))
               category_names name Hname).
    + apply length_concat.
Qed.

(** C10: [get_centers] fails with an [IndexError] on an empty sequence of
    truth fields, and on every non-empty one returns a mapping whose keys are
    exactly the six category names. *)
Theorem get_centers_requires_an_image :
  (forall border,
      get_centers [] border = inl (IndexError "list index out of range")) /\
  (forall truth truths border,
      exists result,
        get_centers (truth :: truths) border = inr result /\
        keys result = category_names).
Proof.
  split.
  - reflexivity.
  - intros truth truths border. eexists. split.
    + apply AggregateFacts.get_centers_nonempty.
    + apply AggregateFacts.keys_named.
Qed.

(** ** Balanced sampler *)

Module ListFacts.

Lemma getitem_in_range {A} (a : list A) (d : A) i :
  0 <= i < Z.of_nat (length a) -> getitem a i = inr (nth (Z.to_nat i) a d).
Proof.
  intros Hi. unfold getitem.
  destruct (i <? 0) eqn:E; [apply Z.ltb_lt in E; lia|].
  replace (0 <=? i) with true by (symmetry; apply Z.leb_le; lia).
  replace (i <? Z.of_nat (length a)) with true by (symmetry; apply Z.ltb_lt; lia).
  simpl. destruct (nth_error a (Z.to_nat i)) as [x|] eqn:En.
  - now rewrite (nth_error_nth _ _ d En).
  - apply nth_error_None in En. lia.
Qed.

Lemma take_in_range {A} (a : list A) (d : A) idx :
  Forall (fun i => 0 <= i < Z.of_nat (length a)) idx ->
  take a idx = inr (map (fun i => nth (Z.to_nat i) a d) idx).
Proof.
  unfold take. induction 1 as [|i idx Hi _ IH]; simpl; [reflexivity|].
  rewrite (getitem_in_range a d i Hi). simpl. now rewrite IH.
Qed.

Lemma length_arange n : length (arange n) = n.
Proof. unfold arange. now rewrite length_map, length_seq. Qed.

Lemma nth_arange n i : (i < n)%nat -> nth i (arange n) 0 = Z.of_nat i.
Proof.
  intros Hi. unfold arange.
  rewrite (nth_indep _ 0 (Z.of_nat 0)) by now rewrite length_map, length_seq.
  rewrite map_nth, seq_nth by assumption. reflexivity.
Qed.

Lemma in_arange n i : In i (arange n) <-> 0 <= i < Z.of_nat n.
Proof.
  unfold arange. rewrite in_map_iff. split.
  - intros (k & <- & Hk). apply in_seq in Hk. lia.
  - intros Hi. exists (Z.to_nat i). split; [lia|]. apply in_seq. lia.
Qed.

Lemma nth_all {A} (l : list A) (d : A) :
  map (fun i => nth (Z.to_nat i) l d) (arange (length l)) = l.
Proof.
  apply (nth_ext _ _ d d).
  - now rewrite length_map, length_arange.
  - intros n Hn. rewrite length_map, length_arange in Hn.
    rewrite (nth_indep _ d (nth (Z.to_nat 0) l d))
      by now rewrite length_map, length_arange.
    pose proof (map_nth (fun i => nth (Z.to_nat i) l d) (arange (length l)) 0 n)
      as E.
    cbv beta in E. rewrite E, nth_arange by assumption. now rewrite Nat2Z.id.
Qed.

(** Indexing by a permutation of all indices permutes the array. *)
Lemma indexed_by_permutation {A} (l : list A) (d : A) order :
  Permutation order (arange (length l)) ->
  Permutation (map (fun i => nth (Z.to_nat i) l d) order) l.
Proof.
  intros Hperm.
  apply (Permutation_map (fun i => nth (Z.to_nat i) l d)) in Hperm.
  now rewrite nth_all in Hperm.
Qed.

Lemma combine_indexed {A B} (xs : list A) (ys : list B) dx dy order :
  length xs = length ys ->
  combine (map (fun i => nth (Z.to_nat i) xs dx) order)
          (map (fun i => nth (Z.to_nat i) ys dy) order) =
  map (fun i => nth (Z.to_nat i) (combine xs ys) (dx, dy)) order.
Proof.
  intros Hlen. induction order as [|i order IH]; simpl; [reflexivity|].
  rewrite IH. f_equal. symmetry. apply combine_nth. assumption.
Qed.

Lemma slice_bound_range len i : 0 <= slice_bound len i <= Z.of_nat len.
Proof.
  unfold slice_bound.
  destruct (i <? 0) eqn:E; [apply Z.ltb_lt in E|apply Z.ltb_ge in E]; lia.
Qed.

Lemma slice_bound_inside len i :
  0 <= i <= Z.of_nat len -> slice_bound len i = i.
Proof.
  intros Hi. unfold slice_bound.
  destruct (i <? 0) eqn:E; [apply Z.ltb_lt in E; lia|lia].
Qed.

(** [l[:n]] and [l[n:]] split [l] at one index, whatever the integer [n]. *)
Lemma slice_partition {A} (l : list A) n :
  slice_to n l ++ slice_from n l = l.
Proof. unfold slice_to, slice_from. apply firstn_skipn. Qed.

Lemma length_slice_to {A} (l : list A) n :
  Z.of_nat (length (slice_to n l)) = slice_bound (length l) n.
Proof.
  unfold slice_to. rewrite length_firstn.
  pose proof (slice_bound_range (length l) n). lia.
Qed.

Lemma length_slice_from {A} (l : list A) n :
  Z.of_nat (length (slice_from n l)) = Z.of_nat (length l) - slice_bound (length l) n.
Proof.
  unfold slice_from. rewrite length_skipn.
  pose proof (slice_bound_range (length l) n). lia.
Qed.

Lemma lookup_in_keys {V} (d : dict V) k :
  In k (keys d) -> exists v, lookup d k = inr v /\ In (k, v) d.
Proof.
  induction d as [|[k' v'] d IH]; simpl; [contradiction|].
  intros Hin. destruct (String.eqb k' k) eqn:E.
  - apply String.eqb_eq in E. subst. eauto.
  - destruct Hin as [->|Hin]; [now rewrite String.eqb_refl in E|].
    destruct (IH Hin) as (v & Hv & Hd). eauto.
Qed.

Lemma lookup_in_keys_inv {V} (d : dict V) k v :
  lookup d k = inr v -> In k (keys d).
Proof.
  induction d as [|[k' v'] d IH]; simpl; [discriminate|].
  destruct (String.eqb k' k) eqn:E.
  - apply String.eqb_eq in E. auto.
  - auto.
Qed.

End ListFacts.

Module SamplerFacts.
Import ListFacts.

Section Draw.

Variable R : RandomSource.
Hypothesis Hlaw : lawful R.
Variable quotas : dict positive.
Variable centers : dict coords.
Hypothesis Hkeyed : keyed quotas centers.


Lemma lookup_pool name :
  In name (keys centers) -> lookup centers name = inr (category_array centers name).
Proof.
  intros Hin. destruct (lookup_in_keys centers name Hin) as (v & Hv & _).
  unfold category_array. now rewrite Hv.
Qed.

Lemma lookup_quota name :
  In name (keys centers) -> lookup quotas name = inr (quota_of quotas name).
Proof.
  intros Hin. destruct Hkeyed as [_ Hk].
  destruct (Hk name Hin) as (_ & q & Hq). unfold quota_of. now rewrite Hq.
Qed.

Lemma lookup_label name :
  In name (keys centers) -> lookup LABEL_ENUM name = inr (label_of name).
Proof.
  intros Hin. destruct Hkeyed as [_ Hk].
  destruct (Hk name Hin) as (Hname & _). unfold label_of.
  unfold category_names in Hname. simpl in Hname.
  destruct Hname as [<-|[<-|[<-|[<-|[<-|[<-|[]]]]]]]; reflexivity.
Qed.

Lemma random_choice_arange n size g :
  (0 < n)%nat ->
  exists chosen g',
    random_choice R (arange n) size g = inr (chosen, g') /\
    length chosen = Pos.to_nat size /\
    Forall (fun i => 0 <= i < Z.of_nat n) chosen.
Proof.
  intros Hn. unfold random_choice.
  destruct (arange n) as [|a0 rest] eqn:Ea.
  { apply (f_equal (@length Z)) in Ea. rewrite length_arange in Ea.
    simpl in Ea. lia. }
  rewrite <- Ea. rewrite length_arange.
  pose proof (randint_length R Hlaw g n (Pos.to_nat size)) as Hlen.
  pose proof (randint_range R Hlaw g n (Pos.to_nat size) Hn) as Hrange.
  destruct (randint R g n (Pos.to_nat size)) as [idx g']. simpl in *.
  exists (map (fun i => nth i (arange n) 0) idx), g'.
  split; [reflexivity|]. split; [now rewrite length_map|].
  apply Forall_map. eapply Forall_impl; [|exact Hrange].
  intros i Hi. simpl in Hi. rewrite nth_arange by assumption. lia.
Qed.

Lemma choose_for_ok name g :
  In name (keys centers) -> category_array centers name <> [] ->
  exists chosen g',
    choose_for R quotas centers name g = inr ((name, chosen), g') /\
    in_pool_range quotas centers name chosen.
Proof.
  intros Hin Hne. unfold choose_for, bindS, lift.
  rewrite (lookup_pool name Hin), (lookup_quota name Hin).
  assert (Hlen : (0 < length (category_array centers name))%nat).
  { destruct (category_array centers name); [congruence|simpl; lia]. }
  destruct (random_choice_arange (length (category_array centers name))
              (quota_of quotas name) g Hlen) as (chosen & g' & -> & Hl & Hr).
  exists chosen, g'. split; [reflexivity|]. now split.
Qed.

Lemma choose_for_empty name g :
  In name (keys centers) -> category_array centers name = [] ->
  choose_for R quotas centers name g = inl empty_population.
Proof.
  intros Hin He. unfold choose_for, bindS, lift.
  rewrite (lookup_pool name Hin), (lookup_quota name Hin), He. reflexivity.
Qed.

Lemma choices_ok names g :
  incl names (keys centers) ->
  (forall name, In name names -> category_array centers name <> []) ->
  exists choices g',
    mapS R (choose_for R quotas centers) names g = inr (choices, g') /\
    keys choices = names /\
    Forall (fun ch => in_pool_range quotas centers (fst ch) (snd ch)) choices.
Proof.
  revert g. induction names as [|name names IH]; intros g Hincl Hne.
  - exists [], g. repeat split. constructor.
  - destruct (choose_for_ok name g) as (chosen & g1 & Hc & Hgood).
    { apply Hincl. now left. } { apply Hne. now left. }
    destruct (IH g1) as (choices & g2 & Hm & Hk & Hall).
    { intros k Hk. apply Hincl. now right. }
    { intros k Hk. apply Hne. now right. }
    exists ((name, chosen) :: choices), g2.
    simpl. unfold bindS at 1. rewrite Hc.
    unfold bindS at 1. rewrite Hm. unfold ret.
    repeat split; [simpl; now rewrite Hk|now constructor].
Qed.

Lemma choices_empty names g :
  incl names (keys centers) ->
  (exists name, In name names /\ category_array centers name = []) ->
  mapS R (choose_for R quotas centers) names g = inl empty_population.
Proof.
  revert g. induction names as [|name names IH]; intros g Hincl (k & Hk & He).
  - contradiction.
  - simpl. unfold bindS at 1.
    destruct (category_array centers name) as [|col pool] eqn:Ep.
    + rewrite choose_for_empty; [reflexivity| |assumption]. apply Hincl. now left.
    + destruct (choose_for_ok name g) as (chosen & g1 & -> & _).
      { apply Hincl. now left. } { congruence. }
      unfold bindS at 1. rewrite IH; [reflexivity| |].
      * intros k' Hk'. apply Hincl. now right.
      * destruct Hk as [<-|Hk]; [congruence|]. eauto.
Qed.

Lemma lookup_choice choices names name :
  keys choices = names ->
  Forall (fun ch => in_pool_range quotas centers (fst ch) (snd ch)) choices ->
  In name names ->
  lookup choices name = inr (chosen_of choices name) /\
  in_pool_range quotas centers name (chosen_of choices name).
Proof.
  intros Hk Hall Hin. rewrite <- Hk in Hin.
  destruct (lookup_in_keys choices name Hin) as (v & Hv & Hd).
  unfold chosen_of. rewrite Hv. split; [reflexivity|].
  rewrite Forall_forall in Hall. exact (Hall _ Hd).
Qed.

Lemma sp_concatenate_map {A} (f : string -> list A) :
  sp_concatenate (map f (keys centers)) = inr (concat (map f (keys centers))).
Proof.
  destruct Hkeyed as [Hne _]. destruct centers as [|entry rest]; [congruence|].
  reflexivity.
Qed.

Lemma bindS_lift_inr {A B} (a : A) (k : A -> M R B) g :
  bindS (lift (inr a)) k g = k a g.
Proof. reflexivity. Qed.

(** The two arrays [draw_samples] returns when no pool is empty: segment by
    segment, the columns drawn for a category and that category's labels. *)
Lemma draw_samples_ok g :
  (forall name, In name (keys centers) -> category_array centers name <> []) ->
  exists (cols : string -> coords) g',
    draw_samples R quotas centers g =
      inr ((concat (map cols (keys centers)),
            concat (map (labels_for quotas) (keys centers))), g') /\
    forall name, In name (keys centers) ->
                 length (cols name) = Pos.to_nat (quota_of quotas name) /\
                 Forall (fun col => In col (category_array centers name)) (cols name).
Proof.
  intros Hne.
  destruct (choices_ok (keys centers) g (incl_refl _) Hne)
    as (choices & g' & Hm & Hk & Hall).
  set (cols := fun name =>
                 map (fun i => nth (Z.to_nat i) (category_array centers name) (0, 0, 0))
                     (chosen_of choices name)).
  exists cols, g'. split.
  - unfold draw_samples. unfold bindS at 1.
    change (mapS R _ (keys centers) g)
      with (mapS R (choose_for R quotas centers) (keys centers) g).
    rewrite Hm.
    rewrite (AggregateFacts.mapM_total _ (fun name => (name, cols name))).
    2:{ intros name Hin. rewrite (lookup_pool name Hin). cbn [bind].
        destruct (lookup_choice choices _ name Hk Hall Hin) as [-> [_ Hr]].
        cbn [bind]. rewrite (take_in_range _ (0, 0, 0)) by exact Hr.
        reflexivity. }
    rewrite bindS_lift_inr.
    rewrite (AggregateFacts.mapM_total _ (fun name => (name, labels_for quotas name))).
    2:{ intros name Hin. rewrite (lookup_label name Hin), (lookup_quota name Hin).
        reflexivity. }
    rewrite bindS_lift_inr.
    rewrite (AggregateFacts.mapM_total _ cols).
    2:{ intros name Hin. now apply AggregateFacts.lookup_named. }
    cbn [bind]. rewrite sp_concatenate_map, bindS_lift_inr.
    rewrite (AggregateFacts.mapM_total _ (labels_for quotas)).
    2:{ intros name Hin.
        now apply (AggregateFacts.lookup_named (labels_for quotas)). }
    cbn [bind]. rewrite sp_concatenate_map, bindS_lift_inr.
    reflexivity.
  - intros name Hin.
    destruct (lookup_choice choices _ name Hk Hall Hin) as [_ [Hl Hr]].
    unfold cols. split; [now rewrite length_map|].
    apply Forall_map. eapply Forall_impl; [|exact Hr].
    intros i Hi. apply nth_In. cbv beta in Hi.  lia.
Qed.

Lemma draw_samples_empty g :
  has_empty_pool centers -> draw_samples R quotas centers g = inl empty_population.
Proof.
  intros (name & Hin & He). unfold draw_samples. unfold bindS at 1.
  change (mapS R _ (keys centers) g)
    with (mapS R (choose_for R quotas centers) (keys centers) g).
  rewrite choices_empty; [reflexivity|apply incl_refl|].
  exists name. split; [assumption|].
  unfold category_array. now rewrite He.
Qed.

End Draw.
End SamplerFacts.

Module RunFacts.
Import ListFacts SamplerFacts.

Lemma combine_app_same {A B} (xs xs' : list A) (ys ys' : list B) :
  length xs = length ys ->
  combine (xs ++ xs') (ys ++ ys') = combine xs ys ++ combine xs' ys'.
Proof.
  revert ys. induction xs as [|x xs IH]; intros [|y ys] Hlen;
    simpl in *; try discriminate; [reflexivity|].
  f_equal. apply IH. lia.
Qed.

Lemma length_labels_for quotas name :
  length (labels_for quotas name) = Pos.to_nat (quota_of quotas name).
Proof. unfold labels_for, sp_repeat. apply repeat_length. Qed.

Section Segments.
Variable quotas : dict positive.
Variable cols : string -> coords.

Lemma length_segments names :
  (forall name, In name names ->
                length (cols name) = Pos.to_nat (quota_of quotas name)) ->
  Z.of_nat (length (concat (map cols names))) =
  fold_right Z.add 0 (map (fun name => Zpos (quota_of quotas name)) names).
Proof.
  induction names as [|name names IH]; intros Hlen; [reflexivity|].
  cbn [map concat fold_right]. rewrite length_app, Nat2Z.inj_add.
  rewrite IH by (intros; apply Hlen; now right).
  rewrite (Hlen name) by now left. lia.
Qed.

Lemma length_label_segments names :
  (forall name, In name names ->
                length (cols name) = Pos.to_nat (quota_of quotas name)) ->
  length (concat (map (labels_for quotas) names)) =
  length (concat (map cols names)).
Proof.
  induction names as [|name names IH]; intros Hlen; [reflexivity|].
  cbn [map concat]. rewrite !length_app.
  rewrite IH by (intros; apply Hlen; now right).
  rewrite length_labels_for, (Hlen name) by now left. reflexivity.
Qed.

(** A pre-shuffle pair sits in the segment of one category. *)
Lemma in_segments names c l :
  (forall name, In name names ->
                length (cols name) = Pos.to_nat (quota_of quotas name)) ->
  In (c, l) (combine (concat (map cols names))
                     (concat (map (labels_for quotas) names))) ->
  exists name, In name names /\ In c (cols name) /\ l = label_of name.
Proof.
  induction names as [|name names IH]; intros Hlen Hin; [contradiction|].
  cbn [map concat] in Hin.
  rewrite combine_app_same in Hin
    by (rewrite length_labels_for; apply Hlen; now left).
  apply in_app_or in Hin as [Hin|Hin].
  - exists name. split; [now left|]. split.
    + now apply in_combine_l in Hin.
    + apply in_combine_r in Hin. unfold labels_for, sp_repeat in Hin.
      now apply repeat_spec in Hin.
  - destruct IH as (k & Hk & Hc & Hl); [|assumption|].
    + intros; apply Hlen; now right.
    + exists k. split; [now right|]. now split.
Qed.
End Segments.

Lemma label_is_binary name l :
  lookup LABEL_ENUM name = inr l -> l = 0 \/ l = 1.
Proof.
  unfold LABEL_ENUM. cbn [lookup].
  repeat (destruct (String.eqb _ name); [intros [= <-]; auto|]).
  discriminate.
Qed.

Lemma shuffle_samples_ok (R : RandomSource) (cs : coords) (ls : list Z) g :
  lawful R ->
  length ls = length cs ->
  exists order g',
    Permutation order (arange (length cs)) /\
    shuffle_samples R cs ls g =
      inr ((map (fun i => nth (Z.to_nat i) cs (0, 0, 0)) order,
            map (fun i => nth (Z.to_nat i) ls 0) order), g').
Proof.
  intros Hlaw Hlen.
  pose proof (shuffle_perm R Hlaw g (arange (length cs))) as Hperm.
  exists (fst (shuffle R g (arange (length cs)))),
         (snd (shuffle R g (arange (length cs)))).
  split; [assumption|].
  assert (Hrange : Forall (fun i => 0 <= i < Z.of_nat (length cs))
                          (fst (shuffle R g (arange (length cs))))).
  { apply Forall_forall. intros i Hi. apply in_arange.
    eapply Permutation_in; eassumption. }
  unfold shuffle_samples, random_permutation. unfold bindS at 1.
  destruct (shuffle R g (arange (length cs))) as [order g']. simpl fst in *.
  simpl snd. unfold bindS at 1.
  rewrite (take_in_range cs (0, 0, 0)) by assumption.
  unfold lift at 1. unfold bindS at 1.
  rewrite (take_in_range ls 0) by (now rewrite Hlen).
  reflexivity.
Qed.

Lemma no_empty_pool centers :
  ~ has_empty_pool centers ->
  forall name, In name (keys centers) -> category_array centers name <> [].
Proof.
  intros Hno name Hin He. apply Hno. exists name. split; [assumption|].
  destruct (lookup_in_keys centers name Hin) as (v & Hv & _).
  unfold category_array in He. rewrite Hv in He. now subst.
Qed.

Lemma empty_pool_dec centers :
  has_empty_pool centers \/ ~ has_empty_pool centers.
Proof.
  unfold has_empty_pool.
  assert (H : forall names,
             (exists name, In name names /\ lookup centers name = inr []) \/
             ~ (exists name, In name names /\ lookup centers name = inr [])).
  { induction names as [|name names [IH|IH]].
    - right. intros (? & [] & _).
    - left. destruct IH as (k & ? & ?). exists k. split; [now right|assumption].
    - destruct (lookup centers name) as [e|[|col pool]] eqn:E.
      + right. intros (k & [<-|Hk] & Hl); [congruence|]. apply IH. eauto.
      + left. exists name. split; [now left|assumption].
      + right. intros (k & [<-|Hk] & Hl); [congruence|]. apply IH. eauto. }
  apply H.
Qed.

(** One run of [make_labelled_sets_with] on pools none of which is empty:
    the drawn segments, the permutation, and the four returned arrays. *)
Lemma labelled_sets_run (R : RandomSource) quotas centers test_split n g :
  lawful R ->
  keyed quotas centers ->
  ~ has_empty_pool centers ->
  python_int (training_share test_split (total_count quotas centers)) = inr n ->
  exists (cols : string -> coords) order g1 g2,
    let center_set := concat (map cols (keys centers)) in
    let label_set := concat (map (labels_for quotas) (keys centers)) in
    let ordered_centers :=
      map (fun i => nth (Z.to_nat i) center_set (0, 0, 0)) order in
    let ordered_labels := map (fun i => nth (Z.to_nat i) label_set 0) order in
    (forall name, In name (keys centers) ->
                  length (cols name) = Pos.to_nat (quota_of quotas name) /\
                  Forall (fun col => In col (category_array centers name))
                         (cols name)) /\
    draw_samples R quotas centers g = inr ((center_set, label_set), g1) /\
    Z.of_nat (length center_set) = total_count quotas centers /\
    length label_set = length center_set /\
    Permutation order (arange (length center_set)) /\
    shuffle_samples R center_set label_set g1 =
      inr ((ordered_centers, ordered_labels), g2) /\
    make_labelled_sets_with R quotas centers test_split g =
      inr ((slice_to n ordered_centers, slice_to n ordered_labels,
            slice_from n ordered_centers, slice_from n ordered_labels), g2).
Proof.
  intros Hlaw Hkeyed Hno Hsplit.
  destruct (draw_samples_ok R Hlaw quotas centers Hkeyed g (no_empty_pool _ Hno))
    as (cols & g1 & Hdraw & Hcols).
  assert (Hlen : forall name, In name (keys centers) ->
                   length (cols name) = Pos.to_nat (quota_of quotas name))
    by (intros name Hin; now apply Hcols).
  pose proof (length_segments quotas cols (keys centers) Hlen) as Htotal.
  pose proof (length_label_segments quotas cols (keys centers) Hlen) as Hlabels.
  destruct (shuffle_samples_ok R _ _ g1 Hlaw Hlabels)
    as (order & g2 & Hperm & Hshuffle).
  exists cols, order, g1, g2. cbv zeta.
  repeat split; try assumption; try (now apply Hcols).
  unfold make_labelled_sets_with. unfold bindS at 1. rewrite Hdraw.
  unfold bindS at 1. cbn [fst snd]. rewrite Hshuffle. cbn [fst snd].
  unfold lift, split_samples. rewrite Htotal.
  fold (total_count quotas centers). rewrite Hsplit. reflexivity.
Qed.

(** With no empty pool, the only step left to fail is the split index. *)
Lemma labelled_sets_split_error (R : RandomSource) quotas centers test_split e g :
  lawful R ->
  keyed quotas centers ->
  ~ has_empty_pool centers ->
  python_int (training_share test_split (total_count quotas centers)) = inl e ->
  make_labelled_sets_with R quotas centers test_split g = inl e.
Proof.
  intros Hlaw Hkeyed Hno Hsplit.
  destruct (draw_samples_ok R Hlaw quotas centers Hkeyed g (no_empty_pool _ Hno))
    as (cols & g1 & Hdraw & Hcols).
  assert (Hlen : forall name, In name (keys centers) ->
                   length (cols name) = Pos.to_nat (quota_of quotas name))
    by (intros name Hin; now apply Hcols).
  pose proof (length_segments quotas cols (keys centers) Hlen) as Htotal.
  pose proof (length_label_segments quotas cols (keys centers) Hlen) as Hlabels.
  destruct (shuffle_samples_ok R _ _ g1 Hlaw Hlabels) as (order & g2 & _ & Hshuffle).
  unfold make_labelled_sets_with. unfold bindS at 1. rewrite Hdraw.
  unfold bindS at 1. cbn [fst snd]. rewrite Hshuffle. cbn [fst snd].
  unfold lift, split_samples. rewrite Htotal.
  fold (total_count quotas centers). rewrite Hsplit. reflexivity.
Qed.

Lemma python_int_error x e : python_int x = inl e -> e <> empty_population.
Proof. destruct x; simpl; intros [= <-]; discriminate. Qed.

Lemma labelled_sets_empty_pool (R : RandomSource) quotas centers test_split g :
  lawful R ->
  keyed quotas centers ->
  has_empty_pool centers ->
  make_labelled_sets_with R quotas centers test_split g = inl empty_population.
Proof.
  intros Hlaw Hkeyed Hempty. unfold make_labelled_sets_with. unfold bindS at 1.
  now rewrite (draw_samples_empty R Hlaw quotas centers Hkeyed g Hempty).
Qed.

End RunFacts.

Module KeyFacts.

Lemma lookup_missing {V} (d : dict V) k :
  ~ In k (keys d) -> lookup d k = inl (KeyError k).
Proof.
  induction d as [|[k' v] d IH]; intros Hk; [reflexivity|].
  simpl in *. destruct (String.eqb k' k) eqn:E.
  - apply String.eqb_eq in E. tauto.
  - apply IH. tauto.
Qed.

Lemma mapS_app (R : RandomSource) {A B} (f : A -> M R B) l1 l2 g :
  mapS R f (l1 ++ l2) g =
  match mapS R f l1 g with
  | inl e => inl e
  | inr (ys, g1) =>
      match mapS R f l2 g1 with
      | inl e => inl e
      | inr (zs, g2) => inr (ys ++ zs, g2)
      end
  end.
Proof.
  revert g. induction l1 as [|x l1 IH]; intros g.
  - simpl. unfold ret. now destruct (mapS R f l2 g) as [e|[zs g2]].
  - cbn [app mapS]. unfold bindS, ret.
    destruct (f x g) as [e|[y g0]]; [reflexivity|].
    rewrite IH.
    destruct (mapS R f l1 g0) as [e|[ys g1]]; [reflexivity|].
    destruct (mapS R f l2 g1) as [e|[zs g2]]; reflexivity.
Qed.

Lemma choose_for_step (R : RandomSource) quotas (centers : dict coords) name g
      pool q chosen g1 :
  lookup centers name = inr pool ->
  lookup quotas name = inr q ->
  random_choice R (arange (length pool)) q g = inr (chosen, g1) ->
  choose_for R quotas centers name g = inr ((name, chosen), g1).
Proof.
  intros Hp Hq Hc. unfold choose_for, bindS, lift. rewrite Hp, Hq, Hc.
  reflexivity.
Qed.

Lemma choose_for_no_quota (R : RandomSource) quotas (centers : dict coords)
      name g pool e :
  lookup centers name = inr pool ->
  lookup quotas name = inl e ->
  choose_for R quotas centers name g = inl e.
Proof.
  intros Hp Hq. unfold choose_for, bindS, lift. rewrite Hp, Hq. reflexivity.
Qed.

(** The draws of the categories that come first succeed when each has a
    quota and a pool with a column in it. *)
Lemma earlier_choices_ok (R : RandomSource) quotas (centers : dict coords)
      names g :
  lawful R ->
  (forall k, In k names ->
             (exists q, lookup quotas k = inr q) /\
             exists col pool, lookup centers k = inr (col :: pool)) ->
  exists choices g',
    mapS R (choose_for R quotas centers) names g = inr (choices, g').
Proof.
  intros Hlaw. revert g. induction names as [|name names IH]; intros g Hall.
  - exists [], g. reflexivity.
  - destruct (Hall name (or_introl eq_refl)) as ((q & Hq) & col & pool & Hp).
    destruct (SamplerFacts.random_choice_arange R Hlaw (length (col :: pool)) q g)
      as (chosen & g1 & Hc & _); [simpl; lia|].
    destruct (IH g1) as (choices & g2 & Hm).
    { intros k Hk. apply Hall. now right. }
    exists ((name, chosen) :: choices), g2.
    cbn [mapS]. unfold bindS at 1.
    rewrite (choose_for_step R quotas centers name g _ q chosen g1 Hp Hq Hc).
    unfold bindS at 1. rewrite Hm. reflexivity.
Qed.

(** A key without a quota raises [KeyError] once the draws of the keys
    before it have succeeded. *)
Lemma labelled_sets_unknown_key (R : RandomSource) (centers : dict coords)
      test_split g earlier later name :
  lawful R ->
  keys centers = earlier ++ name :: later ->
  (forall k, In k earlier ->
             In k category_names /\ category_array centers k <> []) ->
  ~ In name category_names ->
  make_labelled_sets R centers test_split g = inl (KeyError name).
Proof.
  intros Hlaw Hkeys Hearlier Hname.
  assert (Hin : forall k, In k (earlier ++ name :: later) ->
                          exists pool, lookup centers k = inr pool).
  { intros k Hk. rewrite <- Hkeys in Hk.
    destruct (ListFacts.lookup_in_keys centers k Hk) as (pool & Hp & _). eauto. }
  destruct (earlier_choices_ok R counts centers earlier g Hlaw)
    as (choices & g1 & Hm).
  { intros k Hk. destruct (Hearlier k Hk) as [Hcat Hne]. split.
    - unfold category_names in Hcat. simpl in Hcat.
      destruct Hcat as [<-|[<-|[<-|[<-|[<-|[<-|[]]]]]]]; eexists; reflexivity.
    - destruct (Hin k) as (pool & Hp); [apply in_or_app; now left|].
      unfold category_array in Hne. rewrite Hp in Hne.
      destruct pool as [|col pool]; [congruence|eauto]. }
  destruct (Hin name) as (pool & Hp); [apply in_or_app; right; now left|].
  unfold make_labelled_sets, make_labelled_sets_with. unfold bindS at 1.
  unfold draw_samples. unfold bindS at 1.
  change (mapS R _ (keys centers) g)
    with (mapS R (choose_for R counts centers) (keys centers) g).
  rewrite Hkeys, mapS_app, Hm.
  cbn [mapS]. unfold bindS at 1.
  rewrite (choose_for_no_quota R counts centers name g1 pool
             (KeyError name) Hp (lookup_missing counts name Hname)).
  reflexivity.
Qed.

Lemma pools_with_edge_fail :
  make_labelled_sets Lcg.source pools_with_edge Float64.lit_0_1 0
  = inl (KeyError "edge").
Proof.
  apply (labelled_sets_unknown_key Lcg.source pools_with_edge
           Float64.lit_0_1 0 ["inside"%string] ["outside"%string] "edge").
  - exact LcgFacts.lawful_source.
  - reflexivity.
  - intros k [<-|[]]. split; [unfold category_names; simpl; tauto|].
    vm_compute. discriminate.
  - unfold category_names. simpl.
    intros [H|[H|[H|[H|[H|[H|[]]]]]]]; discriminate H.
Qed.

Lemma pools_with_edge_not_empty : ~ has_empty_pool pools_with_edge.
Proof.
  intros (name & Hin & He). unfold pools_with_edge in Hin. simpl in Hin.
  destruct Hin as [<-|[<-|[<-|[]]]]; vm_compute in He; discriminate He.
Qed.

End KeyFacts.

Module WitnessFacts.

Lemma keyed_unit_pools : keyed counts unit_pools.
Proof.
  split; [discriminate|]. intros name Hin.
  change (keys unit_pools) with category_names in Hin.
  split; [exact Hin|].
  unfold category_names in Hin. simpl in Hin.
  destruct Hin as [<-|[<-|[<-|[<-|[<-|[<-|[]]]]]]]; eexists; reflexivity.
Qed.

Lemma unit_pools_not_empty : ~ has_empty_pool unit_pools.
Proof.
  intros (name & Hin & He).
  change (keys unit_pools) with category_names in Hin.
  unfold category_names in Hin. simpl in Hin.
  destruct Hin as [<-|[<-|[<-|[<-|[<-|[<-|[]]]]]]];
    vm_compute in He; discriminate.
Qed.

(** What [get_centers] returns is keyed as the sampler expects. *)
Lemma keyed_get_centers truths border result :
  get_centers truths border = inr result -> keyed counts result.
Proof.
  destruct truths as [|truth truths]; [discriminate|].
  rewrite AggregateFacts.get_centers_nonempty. intros Hres.
  assert (Hkeys : keys result = category_names).
  { apply (f_equal (fun r => match r with inr d => keys d | inl _ => [] end))
      in Hres.
    cbv beta iota in Hres. rewrite <- Hres. apply AggregateFacts.keys_named. }
  split.
  - intros ->. discriminate Hkeys.
  - intros name Hin. rewrite Hkeys in Hin. split; [exact Hin|].
    unfold category_names in Hin. simpl in Hin.
    destruct Hin as [<-|[<-|[<-|[<-|[<-|[<-|[]]]]]]]; eexists; reflexivity.
Qed.

Lemma total_count_unit_pools : total_count counts unit_pools = 800000.
Proof. vm_compute. reflexivity. Qed.

Lemma split_index_default :
  python_int (training_share Float64.lit_0_1 (total_count counts unit_pools))
  = inr 720000.
Proof. vm_compute. reflexivity. Qed.

Lemma split_index_0_425 :
  python_int (training_share split_0_425 (total_count counts unit_pools))
  = inr 459999.
Proof. vm_compute. reflexivity. Qed.

Lemma trunc_scaled_nonneg m e : 0 <= Float64.trunc_scaled m e.
Proof.
  unfold Float64.trunc_scaled. destruct e as [|p|p]; [lia| |].
  - pose proof (Z.pow_pos_nonneg 2 (Zpos p)). lia.
  - apply Z.div_pos; [lia|]. apply Z.pow_pos_nonneg; lia.
Qed.

(** A positive [int(x)] is the floor of the value of [x]. *)
Lemma python_int_floor x n :
  python_int x = inr n -> 0 < n -> n = Qfloor (Float64.to_Q x).
Proof.
  destruct x as [s| | |s m e]; simpl; try discriminate.
  - intros [= <-]. lia.
  - intros [= <-] Hpos.
    pose proof (trunc_scaled_nonneg m e) as Hnn.
    destruct s; simpl in Hpos; [lia|]. simpl.
    unfold Float64.trunc_scaled. destruct e as [|p|p]; simpl Qfloor.
    + now rewrite Z.div_1_r.
    + now rewrite Z.div_1_r.
    + now rewrite Pos2Z.inj_pow.
Qed.

End WitnessFacts.

(** C3, as stated, fails, also within integer rounding: with the quotas of
    the source (800000 samples) and [test_split = 0.425] the product
    [(1 - test_split) * N] is, in binary64, just below 460000, so the split
    index is [int(459999.99999999994) = 459999] and the test set gets 340001
    samples. The share [0.425 * 800000] is 340000 (in decimal exactly; with
    the binary64 value of [0.425] its floor is 339999 and its ceiling 340000):
    the test length is neither its floor nor its ceiling. *)
Lemma test_length_is_no_rounding_of_the_share :
  ~ test_length_rounds_share Lcg.source counts unit_pools split_0_425 0.
Proof.
  intros Hclaim.
  destruct (RunFacts.labelled_sets_run Lcg.source counts unit_pools split_0_425
              459999 0 LcgFacts.lawful_source WitnessFacts.keyed_unit_pools
              WitnessFacts.unit_pools_not_empty WitnessFacts.split_index_0_425)
    as (cols & order & g1 & g2 & Hrun).
  cbv zeta in Hrun.
  destruct Hrun as (_ & _ & Htotal & _ & Hperm & _ & Hmls).
  specialize (Hclaim _ _ _ _ _ Hmls).
  rewrite ListFacts.length_slice_from, length_map in Hclaim.
  apply Permutation_length in Hperm. rewrite ListFacts.length_arange in Hperm.
  rewrite Hperm, Htotal, WitnessFacts.total_count_unit_pools in Hclaim.
  replace (slice_bound _ 459999) with 459999 in Hclaim.
  - destruct Hclaim as [_ Hupper]. vm_compute in Hupper.
    exact (Hupper eq_refl).
  - symmetry. apply ListFacts.slice_bound_inside.
    rewrite Htotal, WitnessFacts.total_count_unit_pools. lia.
Qed.

(** C3, amended: for a lawful random source, a non-empty dict of pools
    whose keys are category names that each have a quota, no pool empty, and
    a test split whose split index [n = int((1 - test_split) * N)] is
    defined, [make_labelled_sets] returns train and test sets that are the prefix and the suffix of the one shuffled
    pool at the index [n] (clipped as a slice bound), so they do not overlap,
    together they are the shuffled pool, and their lengths add up to the sum
    [N] of the quotas; when [0 <= n <= N] the train set has [n] and the test
    set [N - n] samples, and a positive [n] is the floor of the binary64
    product [(1 - test_split) * N]. *)
Theorem labelled_sets_split_is_partition :
  forall (R : RandomSource) (quotas : dict positive) (centers : dict coords)
         (test_split : Float64.float) (n : Z) (g : rng_state R),
    lawful R ->
    keyed quotas centers ->
    ~ has_empty_pool centers ->
    python_int (training_share test_split (total_count quotas centers)) = inr n ->
    exists ordered_centers ordered_labels trc trl tec tel g',
      make_labelled_sets_with R quotas centers test_split g
        = inr ((trc, trl, tec, tel), g') /\
      (exists center_set label_set g1,
          draw_samples R quotas centers g = inr ((center_set, label_set), g1) /\
          shuffle_samples R center_set label_set g1
            = inr ((ordered_centers, ordered_labels), g')) /\
      Z.of_nat (length ordered_centers) = total_count quotas centers /\
      length ordered_labels = length ordered_centers /\
      (let k := Z.to_nat (slice_bound (length ordered_centers) n) in
       trc = firstn k ordered_centers /\ trl = firstn k ordered_labels /\
       tec = skipn k ordered_centers /\ tel = skipn k ordered_labels) /\
      trc ++ tec = ordered_centers /\ trl ++ tel = ordered_labels /\
      Z.of_nat (length trc) + Z.of_nat (length tec) = total_count quotas centers /\
      (0 <= n <= total_count quotas centers ->
       Z.of_nat (length trc) = n /\
       Z.of_nat (length tec) = total_count quotas centers - n) /\
      (0 < n ->
       n = Qfloor (Float64.to_Q
                     (training_share test_split (total_count quotas centers)))).
Proof.
  intros R quotas centers test_split n g Hlaw Hkeyed Hno Hsplit.
  destruct (RunFacts.labelled_sets_run R quotas centers test_split n g
              Hlaw Hkeyed Hno Hsplit) as (cols & order & g1 & g2 & Hrun).
  cbv zeta in Hrun.
  destruct Hrun as (_ & Hdraw & Htotal & Hlabels & Hperm & Hshuffle & Hmls).
  set (center_set := concat (map cols (keys centers))) in *.
  set (label_set := concat (map (labels_for quotas) (keys centers))) in *.
  set (oc := map (fun i => nth (Z.to_nat i) center_set (0, 0, 0)) order) in *.
  set (ol := map (fun i => nth (Z.to_nat i) label_set 0) order) in *.
  assert (Hoc : Z.of_nat (length oc) = total_count quotas centers).
  { unfold oc. rewrite length_map, (Permutation_length Hperm).
    now rewrite ListFacts.length_arange. }
  assert (Hol : length ol = length oc) by (unfold ol, oc; now rewrite !length_map).
  exists oc, ol, (slice_to n oc), (slice_to n ol), (slice_from n oc),
         (slice_from n ol), g2.
  split; [exact Hmls|]. split; [now exists center_set, label_set, g1|].
  split; [exact Hoc|]. split; [exact Hol|].
  split; [unfold slice_to, slice_from; rewrite Hol; cbv zeta; auto|].
  split; [apply ListFacts.slice_partition|].
  split; [apply ListFacts.slice_partition|].
  rewrite ListFacts.length_slice_to, ListFacts.length_slice_from.
  split; [lia|]. split.
  - intros Hn. rewrite ListFacts.slice_bound_inside by lia. lia.
  - now apply WitnessFacts.python_int_floor.
Qed.

Lemma labelled_sets_split_is_partition_witness :
  lawful Lcg.source /\
  keyed counts unit_pools /\
  ~ has_empty_pool unit_pools /\
  python_int (training_share Float64.lit_0_1 (total_count counts unit_pools))
  = inr 720000 /\
  exists ordered_centers ordered_labels trc trl tec tel g',
    make_labelled_sets_with Lcg.source counts unit_pools Float64.lit_0_1 42
      = inr ((trc, trl, tec, tel), g') /\
    trc ++ tec = ordered_centers /\ trl ++ tel = ordered_labels /\
    Z.of_nat (length trc) = 720000 /\ Z.of_nat (length tec) = 80000.
Proof.
  split; [exact LcgFacts.lawful_source|].
  split; [exact WitnessFacts.keyed_unit_pools|].
  split; [exact WitnessFacts.unit_pools_not_empty|].
  split; [exact WitnessFacts.split_index_default|].
  destruct (labelled_sets_split_is_partition Lcg.source counts unit_pools
              Float64.lit_0_1 720000 42 LcgFacts.lawful_source
              WitnessFacts.keyed_unit_pools WitnessFacts.unit_pools_not_empty
              WitnessFacts.split_index_default)
    as (oc & ol & trc & trl & tec & tel & g'
        & Hrun & _ & _ & _ & _ & Hc & Hl & _ & Hlen & _).
  exists oc, ol, trc, trl, tec, tel, g'.
  rewrite WitnessFacts.total_count_unit_pools in Hlen.
  destruct Hlen as [Htrain Htest]; [lia|].
  split; [exact Hrun|]. split; [exact Hc|]. split; [exact Hl|].
  split; [exact Htrain|]. rewrite Htest. reflexivity.
Defined.

(** C4: [make_labelled_sets] applies one permutation [order] of all sample
    indices to both concatenated arrays, so the pair at every post-shuffle
    index [i] is the pre-shuffle pair at index [order[i]], the pairs after the
    shuffle are a permutation of the pairs before it, and the returned train
    and test arrays are the shuffled arrays cut in two. *)
Theorem shuffle_keeps_pairs :
  forall (R : RandomSource) (centers : dict coords)
         (test_split : Float64.float) (n : Z) (g : rng_state R),
    lawful R ->
    keyed counts centers ->
    ~ has_empty_pool centers ->
    python_int (training_share test_split (total_count counts centers)) = inr n ->
    exists center_set label_set g1 order ordered_centers ordered_labels
           trc trl tec tel g',
      draw_samples R counts centers g = inr ((center_set, label_set), g1) /\
      length label_set = length center_set /\
      Permutation order (arange (length center_set)) /\
      shuffle_samples R center_set label_set g1
        = inr ((ordered_centers, ordered_labels), g') /\
      length ordered_centers = length center_set /\
      length ordered_labels = length center_set /\
      (forall i, (i < length center_set)%nat ->
                 nth i (combine ordered_centers ordered_labels) (0, 0, 0, 0) =
                 nth (Z.to_nat (nth i order 0)) (combine center_set label_set)
                     (0, 0, 0, 0)) /\
      Permutation (combine ordered_centers ordered_labels)
                  (combine center_set label_set) /\
      make_labelled_sets R centers test_split g = inr ((trc, trl, tec, tel), g') /\
      combine (trc ++ tec) (trl ++ tel) = combine ordered_centers ordered_labels.
Proof.
  intros R centers test_split n g Hlaw Hkeyed Hno Hsplit.
  destruct (RunFacts.labelled_sets_run R counts centers test_split n g
              Hlaw Hkeyed Hno Hsplit) as (cols & order & g1 & g2 & Hrun).
  cbv zeta in Hrun.
  destruct Hrun as (_ & Hdraw & _ & Hlabels & Hperm & Hshuffle & Hmls).
  set (center_set := concat (map cols (keys centers))) in *.
  set (label_set := concat (map (labels_for counts) (keys centers))) in *.
  assert (Hpairs : length (combine center_set label_set) = length center_set).
  { rewrite length_combine, Hlabels. apply Nat.min_id. }
  assert (Horder : length order = length center_set).
  { rewrite (Permutation_length Hperm). apply ListFacts.length_arange. }
  exists center_set, label_set, g1, order.
  eexists _, _, _, _, _, _, g2.
  split; [exact Hdraw|]. split; [exact Hlabels|]. split; [exact Hperm|].
  split; [exact Hshuffle|].
  split; [now rewrite length_map|]. split; [now rewrite length_map|].
  rewrite (ListFacts.combine_indexed center_set label_set (0, 0, 0) 0 order)
    by (symmetry; exact Hlabels).
  split; [|split; [|split]].
  - intros i Hi.
    rewrite (nth_indep _ (0, 0, 0, 0)
               (nth (Z.to_nat 0) (combine center_set label_set) (0, 0, 0, 0)))
      by (rewrite length_map; lia).
    exact (map_nth (fun j => nth (Z.to_nat j) (combine center_set label_set)
                                 (0, 0, 0, 0)) order 0 i).
  - apply ListFacts.indexed_by_permutation. now rewrite Hpairs.
  - exact Hmls.
  - rewrite !ListFacts.slice_partition.
    apply (ListFacts.combine_indexed center_set label_set (0, 0, 0) 0 order).
    symmetry. exact Hlabels.
Qed.

Lemma shuffle_keeps_pairs_witness :
  lawful Lcg.source /\
  keyed counts unit_pools /\
  ~ has_empty_pool unit_pools /\
  python_int (training_share Float64.lit_0_1 (total_count counts unit_pools))
  = inr 720000 /\
  exists center_set label_set g1 ordered_centers ordered_labels g',
    draw_samples Lcg.source counts unit_pools 42
      = inr ((center_set, label_set), g1) /\
    shuffle_samples Lcg.source center_set label_set g1
      = inr ((ordered_centers, ordered_labels), g') /\
    Permutation (combine ordered_centers ordered_labels)
                (combine center_set label_set).
Proof.
  split; [exact LcgFacts.lawful_source|].
  split; [exact WitnessFacts.keyed_unit_pools|].
  split; [exact WitnessFacts.unit_pools_not_empty|].
  split; [exact WitnessFacts.split_index_default|].
  destruct (shuffle_keeps_pairs Lcg.source unit_pools Float64.lit_0_1 720000 42
              LcgFacts.lawful_source WitnessFacts.keyed_unit_pools
              WitnessFacts.unit_pools_not_empty
              WitnessFacts.split_index_default)
    as (cs & ls & g1 & order & oc & ol & trc & trl & tec & tel & g'
        & Hdraw & _ & _ & Hshuffle & _ & _ & _ & Hperm & _).
  exists cs, ls, g1, oc, ol, g'. auto.
Defined.

(** C5: the labels are fixed per category ([inside] and [inside_damaged] are
    1, the four others 0); before the shuffle the arrays are, category by
    category, the columns drawn from that category's pool next to as many
    copies of that category's label; and every (coordinate, label) pair
    [make_labelled_sets] returns is such a pair, so its label is 0 or 1. *)
Theorem labels_follow_categories :
  forall (R : RandomSource) (centers : dict coords)
         (test_split : Float64.float) (n : Z) (g : rng_state R),
    lawful R ->
    keyed counts centers ->
    ~ has_empty_pool centers ->
    python_int (training_share test_split (total_count counts centers)) = inr n ->
    LABEL_ENUM = [ ("inside", 1); ("outside", 0); ("inside_damaged", 1);
                   ("outside_damaged", 0); ("block_border", 0);
                   ("between", 0) ]%string /\
    exists (cols : string -> coords) g1 trc trl tec tel g',
      draw_samples R counts centers g =
        inr ((concat (map cols (keys centers)),
              concat (map (fun name => sp_repeat (label_of name)
                                                 (quota_of counts name))
                          (keys centers))), g1) /\
      (forall name, In name (keys centers) ->
                    lookup LABEL_ENUM name = inr (label_of name) /\
                    length (cols name) = Pos.to_nat (quota_of counts name) /\
                    Forall (fun col => In col (category_array centers name))
                           (cols name)) /\
      make_labelled_sets R centers test_split g = inr ((trc, trl, tec, tel), g') /\
      length (trl ++ tel) = length (trc ++ tec) /\
      forall col label,
        In (col, label) (combine (trc ++ tec) (trl ++ tel)) ->
        (label = 0 \/ label = 1) /\
        exists name,
          In name (keys centers) /\ In col (cols name) /\
          In col (category_array centers name) /\
          lookup LABEL_ENUM name = inr label.
Proof.
  intros R centers test_split n g Hlaw Hkeyed Hno Hsplit.
  split; [reflexivity|].
  destruct (RunFacts.labelled_sets_run R counts centers test_split n g
              Hlaw Hkeyed Hno Hsplit) as (cols & order & g1 & g2 & Hrun).
  cbv zeta in Hrun.
  destruct Hrun as (Hcols & Hdraw & _ & Hlabels & Hperm & _ & Hmls).
  exists cols, g1. eexists _, _, _, _, g2.
  split; [exact Hdraw|]. split; [|split; [exact Hmls|]].
  - intros name Hin. split; [|now apply Hcols].
    now apply (SamplerFacts.lookup_label counts centers Hkeyed).
  - rewrite !ListFacts.slice_partition, !length_map. split; [reflexivity|].
    intros col label Hin.
    rewrite (ListFacts.combine_indexed _ _ (0, 0, 0) 0 order) in Hin
      by (symmetry; exact Hlabels).
    assert (Hpre : In (col, label)
                      (combine (concat (map cols (keys centers)))
                               (concat (map (labels_for counts) (keys centers))))).
    { eapply Permutation_in; [|exact Hin].
      apply ListFacts.indexed_by_permutation.
      rewrite length_combine, Hlabels, Nat.min_id. exact Hperm. }
    apply (RunFacts.in_segments counts cols) in Hpre
      as (name & Hname & Hcol & ->); [|intros k Hk; now apply Hcols].
    pose proof (SamplerFacts.lookup_label counts centers Hkeyed name Hname) as Hl.
    split; [exact (RunFacts.label_is_binary name _ Hl)|].
    exists name. repeat split; try assumption.
    destruct (Hcols name Hname) as [_ Hall].
    rewrite Forall_forall in Hall. now apply Hall.
Qed.

Lemma labels_follow_categories_witness :
  lawful Lcg.source /\
  keyed counts unit_pools /\
  ~ has_empty_pool unit_pools /\
  python_int (training_share Float64.lit_0_1 (total_count counts unit_pools))
  = inr 720000 /\
  exists trc trl tec tel g',
    make_labelled_sets Lcg.source unit_pools Float64.lit_0_1 42
      = inr ((trc, trl, tec, tel), g') /\
    forall col label,
      In (col, label) (combine (trc ++ tec) (trl ++ tel)) ->
      label = 0 \/ label = 1.
Proof.
  split; [exact LcgFacts.lawful_source|].
  split; [exact WitnessFacts.keyed_unit_pools|].
  split; [exact WitnessFacts.unit_pools_not_empty|].
  split; [exact WitnessFacts.split_index_default|].
  destruct (labels_follow_categories Lcg.source unit_pools Float64.lit_0_1 720000
              42 LcgFacts.lawful_source WitnessFacts.keyed_unit_pools
              WitnessFacts.unit_pools_not_empty
              WitnessFacts.split_index_default)
    as (_ & cols & g1 & trc & trl & tec & tel & g' & _ & _ & Hrun & _ & Hall).
  exists trc, trl, tec, tel, g'. split; [exact Hrun|].
  intros col label Hin. now apply (Hall col label).
Defined.

(** C6, as stated, fails: [make_labelled_sets] also fails when no pool is
    empty. On the empty dict [sp.concatenate] raises [ValueError]; on a dict
    with the key [edge], for which [counts] has no entry, [counts[name]]
    raises [KeyError]; and with a NaN test split [int] raises [ValueError]
    after all draws have succeeded. *)
Lemma sampling_fails_without_an_empty_pool :
  ~ fails_exactly_on_empty_pool Lcg.source [] Float64.lit_0_1 0 /\
  ~ fails_exactly_on_empty_pool Lcg.source pools_with_edge Float64.lit_0_1 0 /\
  ~ fails_exactly_on_empty_pool Lcg.source unit_pools S754_nan 0.
Proof.
  unfold fails_exactly_on_empty_pool. split; [|split].
  - intros [Hfail _].
    destruct Hfail as (name & [] & _).
    exists (ValueError "need at least one array to concatenate"). reflexivity.
  - intros [Hfail _]. apply KeyFacts.pools_with_edge_not_empty, Hfail.
    exists (KeyError "edge"). exact KeyFacts.pools_with_edge_fail.
  - intros [Hfail _]. apply WitnessFacts.unit_pools_not_empty, Hfail.
    exists (ValueError "cannot convert float NaN to integer").
    apply RunFacts.labelled_sets_split_error.
    + exact LcgFacts.lawful_source.
    + exact WitnessFacts.keyed_unit_pools.
    + exact WitnessFacts.unit_pools_not_empty.
    + reflexivity.
Qed.

(** C6, amended: for a lawful random source and a non-empty dict of pools
    whose keys are category names that each have a quota,
    [make_labelled_sets] fails with the [ValueError] of [sp.random.choice]
    if and only if some pool has no column, and whenever the split index [int((1 - test_split) * N)] is
    defined it fails if and only if some pool has no column; from any
    non-empty pool the draw with replacement succeeds for every positive
    quota, even one above the pool's width, and gives exactly that many
    columns, each of them a column of the pool; and when no pool is empty
    the draws of [make_labelled_sets] are, for every category, exactly its
    quota of columns of its own pool. *)
Theorem sampling_fails_only_on_empty_pool :
  forall (R : RandomSource) (quotas : dict positive) (centers : dict coords)
         (test_split : Float64.float) (g : rng_state R),
    lawful R ->
    keyed quotas centers ->
    (make_labelled_sets_with R quotas centers test_split g
     = inl (ValueError "a must be non-empty")
     <-> has_empty_pool centers) /\
    (forall n,
        python_int (training_share test_split (total_count quotas centers))
        = inr n ->
        ((exists e, make_labelled_sets_with R quotas centers test_split g = inl e)
         <-> has_empty_pool centers)) /\
    (forall (pool : coords) (quota : positive) (g0 : rng_state R),
        pool <> [] ->
        exists chosen cols g1,
          random_choice R (arange (length pool)) quota g0 = inr (chosen, g1) /\
          take pool chosen = inr cols /\
          length cols = Pos.to_nat quota /\
          Forall (fun col => In col pool) cols) /\
    (~ has_empty_pool centers ->
     exists (cols : string -> coords) label_set g1,
       draw_samples R quotas centers g
       = inr ((concat (map cols (keys centers)), label_set), g1) /\
       forall name,
         In name (keys centers) ->
         length (cols name) = Pos.to_nat (quota_of quotas name) /\
         Forall (fun col => In col (category_array centers name)) (cols name)).
Proof.
  intros R quotas centers test_split g Hlaw Hkeyed.
  split; [|split; [|split]].
  - split; [|now apply RunFacts.labelled_sets_empty_pool].
    intros Hfail.
    destruct (RunFacts.empty_pool_dec centers) as [Hempty|Hno]; [assumption|].
    exfalso.
    destruct (python_int (training_share test_split (total_count quotas centers)))
      as [e|n] eqn:Hsplit.
    + rewrite (RunFacts.labelled_sets_split_error R quotas centers test_split e g
                 Hlaw Hkeyed Hno Hsplit) in Hfail.
      injection Hfail as ->.
      now apply (RunFacts.python_int_error _ _ Hsplit).
    + destruct (RunFacts.labelled_sets_run R quotas centers test_split n g
                  Hlaw Hkeyed Hno Hsplit) as (cols & order & g1 & g2 & Hrun).
      cbv zeta in Hrun. destruct Hrun as (_ & _ & _ & _ & _ & _ & Hmls).
      rewrite Hmls in Hfail. discriminate Hfail.
  - intros n Hsplit. split.
    + intros [e He].
      destruct (RunFacts.empty_pool_dec centers) as [Hempty|Hno]; [assumption|].
      destruct (RunFacts.labelled_sets_run R quotas centers test_split n g
                  Hlaw Hkeyed Hno Hsplit) as (cols & order & g1 & g2 & Hrun).
      cbv zeta in Hrun. destruct Hrun as (_ & _ & _ & _ & _ & _ & Hmls).
      rewrite Hmls in He. discriminate He.
    + intros Hempty. eexists.
      now apply RunFacts.labelled_sets_empty_pool.
  - intros pool quota g0 Hne.
    assert (Hlen : (0 < length pool)%nat)
      by (destruct pool; [congruence|simpl; lia]).
    destruct (SamplerFacts.random_choice_arange R Hlaw (length pool) quota g0 Hlen)
      as (chosen & g1 & Hchoice & Hsize & Hrange).
    exists chosen, (map (fun i => nth (Z.to_nat i) pool (0, 0, 0)) chosen), g1.
    split; [exact Hchoice|].
    split; [now apply ListFacts.take_in_range|].
    split; [now rewrite length_map|].
    apply Forall_map. eapply Forall_impl; [|exact Hrange].
    intros i Hi. apply nth_In. cbv beta in Hi. lia.
  - intros Hno.
    destruct (SamplerFacts.draw_samples_ok R Hlaw quotas centers Hkeyed g
                (RunFacts.no_empty_pool _ Hno)) as (cols & g1 & Hdraw & Hcols).
    exists cols, (concat (map (labels_for quotas) (keys centers))), g1.
    split; [exact Hdraw|exact Hcols].
Qed.

Lemma sampling_fails_only_on_empty_pool_witness :
  lawful Lcg.source /\
  keyed counts unit_pools /\
  ((exists e, make_labelled_sets_with Lcg.source counts unit_pools
                Float64.lit_0_1 42 = inl e)
   <-> has_empty_pool unit_pools) /\
  exists chosen cols g1,
    random_choice Lcg.source (arange 3) 10 7 = inr (chosen, g1) /\
    take [(1, 1, 0); (2, 2, 0); (3, 3, 0)] chosen = inr cols /\
    length cols = 10%nat.
Proof.
  split; [exact LcgFacts.lawful_source|].
  split; [exact WitnessFacts.keyed_unit_pools|].
  destruct (sampling_fails_only_on_empty_pool Lcg.source counts unit_pools
              Float64.lit_0_1 42 LcgFacts.lawful_source
              WitnessFacts.keyed_unit_pools) as (_ & Hiff & Hdraw & _).
  split; [exact (Hiff 720000 WitnessFacts.split_index_default)|].
  destruct (Hdraw [(1, 1, 0); (2, 2, 0); (3, 3, 0)] 10%positive 7)
    as (chosen & cols & g1 & Hc & Ht & Hl & _); [discriminate|].
  exists chosen, cols, g1. auto.
Defined.

(** * Further properties *)

(** ** Thresholds *)

Module FloatFacts.

(** No float is both above 0.75 and below 0.25. *)
Lemma above_0_75_not_below_0_25 t :
  Float64.ltb Float64.lit_0_75 t = true -> Float64.ltb t Float64.lit_0_25 = false.
Proof.
  destruct Examples.literals as (E75 & E25 & _). rewrite E75, E25.
  unfold Float64.ltb, SFltb, SFcompare.
  destruct t as [s|s| |s m e]; try destruct s;
    try discriminate; try reflexivity.
  destruct (Z.compare_spec (-53) e) as [H|H|H];
    destruct (Z.compare_spec e (-54)) as [H'|H'|H'];
    try lia; try discriminate; try reflexivity.
Qed.

End FloatFacts.

(** ** What a category array holds *)

Module PoolFacts.
Import NdFacts ExtractFacts.

Lemma in_pick_intro {A} (xs : list A) bs j x :
  nth_error xs j = Some x -> nth j bs false = true -> In x (Nd.pick xs bs).
Proof.
  revert bs j. induction xs as [|y xs IH]; intros [|b bs] [|j]; simpl;
    try discriminate.
  - intros [= ->] ->. now left.
  - intros Hx Hb. destruct b; [right|]; eauto.
Qed.

Lemma in_select_rows {A} (a : Nd.ndarray A) m i j x :
  nth_error (nth i a []) j = Some x ->
  nth j (nth i m []) false = true ->
  In x (Nd.select a m).
Proof.
  revert m i. induction a as [|ra a IH]; intros [|rm m] [|i]; simpl;
    try (destruct j; discriminate).
  - intros Hx Hm. apply in_or_app. left. eauto using in_pick_intro.
  - intros Hx Hm. apply in_or_app. right. eauto.
Qed.

(** The entry at a true position of the mask is selected. *)
Lemma in_select_intro {A} (d : A) (a : Nd.ndarray A) m r c :
  Nd.inside a r c -> Nd.get false m r c = true ->
  In (Nd.get d a r c) (Nd.select a m).
Proof.
  intros (Hr & Hrh & Hc & Hcw) Hm. unfold Nd.get in *.
  destruct (r <? 0) eqn:Er; [apply Z.ltb_lt in Er; lia|].
  destruct (c <? 0) eqn:Ec; [apply Z.ltb_lt in Ec; lia|]. simpl in *.
  apply (in_select_rows a m (Z.to_nat r) (Z.to_nat c)); [|exact Hm].
  now apply nth_error_nth'.
Qed.

Lemma get_away_intro h w border r c :
  in_slice h border (- border) r = true ->
  in_slice w border (- border) c = true ->
  0 <= r < Z.of_nat h /\ 0 <= c < Z.of_nat w /\
  Nd.get false (away_from_border h w border) r c = true.
Proof.
  intros Hr Hc.
  assert (Br : 0 <= r < Z.of_nat h).
  { unfold in_slice in Hr. apply andb_true_iff in Hr as [H1 H2].
    apply Z.leb_le in H1. apply Z.ltb_lt in H2.
    pose proof (ListFacts.slice_bound_range h border).
    pose proof (ListFacts.slice_bound_range h (- border)). lia. }
  assert (Bc : 0 <= c < Z.of_nat w).
  { unfold in_slice in Hc. apply andb_true_iff in Hc as [H1 H2].
    apply Z.leb_le in H1. apply Z.ltb_lt in H2.
    pose proof (ListFacts.slice_bound_range w border).
    pose proof (ListFacts.slice_bound_range w (- border)). lia. }
  split; [exact Br|]. split; [exact Bc|].
  unfold away_from_border, set_slice.
  rewrite shape0_tabulate.
  destruct h as [|h]; [lia|]. rewrite shape1_tabulate by lia.
  rewrite get_tabulate by assumption. now rewrite Hr, Hc.
Qed.

(** The columns selected for a mask, exactly. *)
Lemma selected_column_iff h w im_no border (m : mask) r c i :
  In (r, c, i) (Nd.select (index_grid h w im_no)
                          (Nd.and_ m (away_from_border h w border))) <->
  i = im_no /\
  in_slice h border (- border) r = true /\
  in_slice w border (- border) c = true /\
  Nd.get false m r c = true.
Proof.
  split.
  - intros Hin. apply selected_column in Hin. tauto.
  - intros (-> & Hr & Hc & Hm).
    destruct (get_away_intro h w border r c Hr Hc) as (Br & Bc & Haway).
    rewrite index_grid_tabulated.
    replace (r, c, im_no) with
      (Nd.get (0, 0, 0) (Nd.tabulate h w (fun r c => (r, c, im_no * 1))) r c)
      by (rewrite get_tabulate by assumption; f_equal; lia).
    apply in_select_intro.
    + now apply inside_tabulate.
    + rewrite get_and, Hm, Haway. reflexivity.
Qed.

Lemma single_image_array_of_mask truth im_no border name m :
  lookup (category_masks truth) name = inr m ->
  single_image_array truth im_no border name =
  Nd.select (index_grid (Nd.shape0 truth) (Nd.shape1 truth) im_no)
            (Nd.and_ m (away_from_border (Nd.shape0 truth) (Nd.shape1 truth)
                                         border)).
Proof.
  intros Hm. unfold single_image_array, category_array.
  rewrite single_image_lookup, Hm. reflexivity.
Qed.

Lemma single_image_array_unknown truth im_no border name :
  (forall m, lookup (category_masks truth) name <> inr m) ->
  single_image_array truth im_no border name = [].
Proof.
  intros Hno. unfold single_image_array, category_array.
  rewrite single_image_lookup.
  destruct (lookup (category_masks truth) name) as [e|m]; [reflexivity|].
  now destruct (Hno m).
Qed.

End PoolFacts.

Module CategoryFacts.
Import NdFacts MorphFacts.

Lemma below_0_25_not_spot truth r c :
  Nd.get false (lt_0_25 truth) r c = true ->
  Nd.get false (gt_0_75 truth) r c = false.
Proof.
  intros Hlt. unfold lt_0_25 in Hlt.
  apply (get_map_true _ S754_nan) in Hlt as [Hin Hlt].
  unfold gt_0_75. rewrite (get_map _ S754_nan) by assumption.
  destruct (Float64.ltb Float64.lit_0_75 (Nd.get S754_nan truth r c)) eqn:E;
    [|reflexivity].
  apply FloatFacts.above_0_75_not_below_0_25 in E. congruence.
Qed.

Lemma damaged_spot_is_spot truth r c :
  Nd.get false (make_damaged_spot_mask truth) r c = true ->
  Nd.get false (gt_0_75 truth) r c = true.
Proof.
  unfold make_damaged_spot_mask. rewrite get_and.
  intros H. now apply andb_true_iff in H.
Qed.

Lemma outside_near_damaged_is_below truth r c :
  Nd.get false (make_outside_near_damaged_spot_mask truth) r c = true ->
  Nd.get false (lt_0_25 truth) r c = true.
Proof.
  unfold make_outside_near_damaged_spot_mask. rewrite get_and.
  intros H. now apply andb_true_iff in H.
Qed.

Lemma between_is_below truth r c :
  Nd.get false (make_between_spot_mask truth) r c = true ->
  Nd.get false (lt_0_25 truth) r c = true.
Proof.
  unfold make_between_spot_mask. rewrite get_and.
  intros H. now apply andb_true_iff in H.
Qed.

Lemma block_border_not_spot truth r c :
  Nd.get false (make_block_border_mask truth) r c = true ->
  Nd.get false (gt_0_75 truth) r c = false.
Proof.
  rewrite MaskFacts.get_block_border. intros H.
  apply andb_true_iff in H as [Hnear Hnot]. apply negb_true_iff in Hnot.
  destruct (Nd.get false (gt_0_75 truth) r c) eqn:Hspot; [|reflexivity].
  apply get_true_inside, binary_dilation_inside in Hnear.
  destruct Hnear as [Hr Hc].
  now rewrite (binary_dilation_extensive (gt_0_75 truth) 3 r c Hr Hc Hspot)
    in Hnot.
Qed.

(** The mask of a category, by cases on its name. *)
Lemma category_mask_cases truth name m :
  lookup (category_masks truth) name = inr m ->
  (name = "inside"%string /\ m = gt_0_75 truth) \/
  (name = "outside"%string /\ m = lt_0_25 truth) \/
  (name = "inside_damaged"%string /\ m = make_damaged_spot_mask truth) \/
  (name = "outside_damaged"%string /\
   m = make_outside_near_damaged_spot_mask truth) \/
  (name = "block_border"%string /\ m = make_block_border_mask truth) \/
  (name = "between"%string /\ m = make_between_spot_mask truth).
Proof.
  unfold category_masks. cbn [lookup].
  repeat (match goal with
          | |- context [String.eqb ?k name] =>
              let E := fresh "E" in
              destruct (String.eqb k name) eqn:E;
              [apply String.eqb_eq in E; intros [= <-]; subst name; tauto|]
          end).
  discriminate.
Qed.

(** A pixel of a category's mask calls for that category's label. *)
Lemma category_mask_label truth name m r c :
  lookup (category_masks truth) name = inr m ->
  Nd.get false m r c = true ->
  label_of name = pixel_label truth r c.
Proof.
  intros Hm Hget. unfold pixel_label.
  destruct (category_mask_cases truth name m Hm)
    as [[-> ->]|[[-> ->]|[[-> ->]|[[-> ->]|[[-> ->]|[-> ->]]]]]].
  - now rewrite Hget.
  - now rewrite (below_0_25_not_spot _ _ _ Hget).
  - now rewrite (damaged_spot_is_spot _ _ _ Hget).
  - now rewrite (below_0_25_not_spot _ _ _
                   (outside_near_damaged_is_below _ _ _ Hget)).
  - now rewrite (block_border_not_spot _ _ _ Hget).
  - now rewrite (below_0_25_not_spot _ _ _ (between_is_below _ _ _ Hget)).
Qed.

Lemma category_mask_exists truth name :
  In name category_names -> exists m, lookup (category_masks truth) name = inr m.
Proof. apply ExtractFacts.category_masks_total. Qed.

Lemma category_mask_known truth name m :
  lookup (category_masks truth) name = inr m -> In name category_names.
Proof.
  intros Hm. unfold category_names.
  destruct (category_mask_cases truth name m Hm)
    as [[-> _]|[[-> _]|[[-> _]|[[-> _]|[[-> _]|[-> _]]]]]]; simpl; tauto.
Qed.

End CategoryFacts.

Module DistinctFacts.
Import NdFacts ExtractFacts.

Lemma in_pick_source {A} (xs : list A) bs x : In x (Nd.pick xs bs) -> In x xs.
Proof.
  intros Hin. apply in_pick in Hin as (j & Hj & _). eauto using nth_error_In.
Qed.

Lemma NoDup_pick {A} (xs : list A) bs : NoDup xs -> NoDup (Nd.pick xs bs).
Proof.
  revert bs. induction xs as [|x xs IH]; intros [|b bs] Hnd; simpl;
    try constructor.
  inversion Hnd as [|? ? Hx Hxs]; subst. destruct b; [|auto].
  constructor; [|auto]. intros Hin. apply Hx. eauto using in_pick_source.
Qed.

Lemma in_select_source {A} (a : Nd.ndarray A) m x :
  In x (Nd.select a m) -> In x (concat a).
Proof.
  revert m. induction a as [|ra a IH]; intros [|rm m]; simpl; try contradiction.
  intros Hin. apply in_app_or in Hin as [Hin|Hin]; apply in_or_app.
  - left. eauto using in_pick_source.
  - right. eauto.
Qed.

Lemma NoDup_app_apart {A} (l l' : list A) x :
  NoDup (l ++ l') -> In x l -> ~ In x l'.
Proof.
  induction l as [|y l IH]; simpl; [contradiction|].
  intros Hnd [->|Hin] Hx; inversion Hnd as [|? ? Hy Hrest]; subst.
  - apply Hy. apply in_or_app. now right.
  - now apply (IH Hrest Hin).
Qed.

(** Boolean indexing keeps distinct entries distinct. *)
Lemma NoDup_select {A} (a : Nd.ndarray A) m :
  NoDup (concat a) -> NoDup (Nd.select a m).
Proof.
  revert m. induction a as [|ra a IH]; intros [|rm m] Hnd; simpl;
    try constructor.
  simpl in Hnd. apply NoDup_app.
  - apply NoDup_pick. eauto using NoDup_app_remove_r.
  - apply IH. eauto using NoDup_app_remove_l.
  - intros x Hx Hx'. apply (NoDup_app_apart _ _ x Hnd).
    + eauto using in_pick_source.
    + eauto using in_select_source.
Qed.

Lemma NoDup_index_rows w (k : Z) rows :
  NoDup rows ->
  NoDup (concat (map (fun r : nat =>
                        map (fun c : nat => (Z.of_nat r, Z.of_nat c, k)) (seq 0 w))
                     rows)).
Proof.
  induction rows as [|r rows IH]; intros Hnd; simpl; [constructor|].
  inversion Hnd as [|? ? Hr Hrows]; subst.
  apply NoDup_app.
  - apply Finite.Injective_map_NoDup; [|apply seq_NoDup].
    intros c1 c2 [= E]. lia.
  - auto.
  - intros x Hx Hx'.
    apply in_map_iff in Hx as (c1 & <- & _).
    apply in_concat in Hx' as (row & Hrow & Hx').
    apply in_map_iff in Hrow as (r' & <- & Hr').
    apply in_map_iff in Hx' as (c2 & [= E _] & _).
    apply Nat2Z.inj in E. subst. contradiction.
Qed.

Lemma NoDup_index_grid h w im_no : NoDup (concat (index_grid h w im_no)).
Proof.
  rewrite index_grid_tabulated. unfold Nd.tabulate.
  apply NoDup_index_rows, seq_NoDup.
Qed.

End DistinctFacts.

(** ** Coordinate extractor, further *)

Module SingleImageFacts.
Import PoolFacts CategoryFacts.

(** A column of a category's array, read back. *)
Lemma in_single_image_array truth im_no border name r c i :
  In (r, c, i) (single_image_array truth im_no border name) ->
  exists m,
    lookup (category_masks truth) name = inr m /\
    i = im_no /\
    in_slice (Nd.shape0 truth) border (- border) r = true /\
    in_slice (Nd.shape1 truth) border (- border) c = true /\
    Nd.get false m r c = true.
Proof.
  intros Hin.
  destruct (lookup (category_masks truth) name) as [e|m] eqn:Hm.
  - rewrite single_image_array_unknown in Hin; [contradiction|].
    intros m Hm'. congruence.
  - exists m. split; [reflexivity|].
    rewrite (single_image_array_of_mask truth im_no border name m Hm) in Hin.
    now apply selected_column_iff in Hin.
Qed.

Lemma single_image_array_incl truth im_no border name1 name2 m1 m2 :
  lookup (category_masks truth) name1 = inr m1 ->
  lookup (category_masks truth) name2 = inr m2 ->
  (forall r c, Nd.get false m1 r c = true -> Nd.get false m2 r c = true) ->
  incl (single_image_array truth im_no border name1)
       (single_image_array truth im_no border name2).
Proof.
  intros H1 H2 Hsub [[r c] i] Hin.
  rewrite (single_image_array_of_mask truth im_no border name1 m1 H1) in Hin.
  rewrite (single_image_array_of_mask truth im_no border name2 m2 H2).
  apply selected_column_iff in Hin as (Hi & Hr & Hc & Hm).
  apply selected_column_iff. auto.
Qed.

Lemma lookup_single_image_array truth im_no border name :
  In name category_names ->
  lookup (get_centers_single_image truth im_no border) name
  = inr (single_image_array truth im_no border name).
Proof. apply AggregateFacts.lookup_single_image. Qed.

Lemma NoDup_single_image_array truth im_no border name :
  NoDup (single_image_array truth im_no border name).
Proof.
  destruct (lookup (category_masks truth) name) as [e|m] eqn:Hm.
  - rewrite single_image_array_unknown; [constructor|].
    intros m Hm'. congruence.
  - rewrite (single_image_array_of_mask truth im_no border name m Hm).
    apply DistinctFacts.NoDup_select, DistinctFacts.NoDup_index_grid.
Qed.

Lemma zero_border_array truth im_no name :
  single_image_array truth im_no 0 name = [].
Proof.
  destruct (lookup (category_masks truth) name) as [e|m] eqn:Hm.
  - apply single_image_array_unknown. intros m Hm'. congruence.
  - rewrite (single_image_array_of_mask truth im_no 0 name m Hm).
    apply ExtractFacts.select_zero_border.
Qed.

Lemma single_image_array_bounds truth im_no border name r c i :
  In (r, c, i) (single_image_array truth im_no border name) ->
  i = im_no /\
  border <= r < Z.of_nat (Nd.shape0 truth) - border /\
  border <= c < Z.of_nat (Nd.shape1 truth) - border.
Proof.
  intros Hin. apply in_single_image_array in Hin as (m & _ & Hi & Hr & Hc & _).
  split; [exact Hi|].
  split; now apply ExtractFacts.in_slice_bounds.
Qed.

End SingleImageFacts.

(** X1: for an image number within the 64-bit integers, the array
    [get_centers_single_image] returns for a category holds exactly the
    columns [(r, c, im_no)] of the pixels that lie in the slice
    [border:-border] of both axes and in the category's mask. *)
Theorem single_image_array_exact :
  forall (truth : truth_field) (im_no border : Z) (name : string) (m : mask)
         (r c i : Z),
    int64 im_no ->
    lookup (category_masks truth) name = inr m ->
    lookup (get_centers_single_image truth im_no border) name
    = inr (single_image_array truth im_no border name) /\
    (In (r, c, i) (single_image_array truth im_no border name) <->
     i = im_no /\
     in_slice (Nd.shape0 truth) border (- border) r = true /\
     in_slice (Nd.shape1 truth) border (- border) c = true /\
     Nd.get false m r c = true).
Proof.
  intros truth im_no border name m r c i _ Hm. split.
  - apply SingleImageFacts.lookup_single_image_array.
    exact (CategoryFacts.category_mask_known truth name m Hm).
  - rewrite (PoolFacts.single_image_array_of_mask truth im_no border name m Hm).
    apply PoolFacts.selected_column_iff.
Qed.

Lemma single_image_array_exact_witness :
  int64 7 /\
  lookup (category_masks truth_block) "inside" = inr (gt_0_75 truth_block) /\
  (In (2, 3, 7) (single_image_array truth_block 7 2 "inside") <->
   7 = 7 /\
   in_slice (Nd.shape0 truth_block) 2 (- (2)) 2 = true /\
   in_slice (Nd.shape1 truth_block) 2 (- (2)) 3 = true /\
   Nd.get false (gt_0_75 truth_block) 2 3 = true).
Proof.
  assert (Hno : int64 7) by (unfold int64; lia).
  split; [exact Hno|]. split; [reflexivity|].
  apply (single_image_array_exact truth_block 7 2 "inside" (gt_0_75 truth_block)
           2 3 7 Hno).
  reflexivity.
Defined.

(** X2: every column of a category's array is the coordinate of a pixel whose
    truth exceeds 0.75 exactly when the category's label is 1; so an array of
    a label-1 category and an array of a label-0 category share no column. *)
Theorem single_image_array_label :
  forall (truth : truth_field) (im_no border : Z) (name : string) (r c i : Z),
    In (r, c, i) (single_image_array truth im_no border name) ->
    lookup LABEL_ENUM name = inr (pixel_label truth r c) /\
    forall other j,
      In (r, c, j) (single_image_array truth im_no border other) ->
      label_of other = label_of name.
Proof.
  intros truth im_no border name r c i Hin.
  apply SingleImageFacts.in_single_image_array in Hin
    as (m & Hm & _ & _ & _ & Hget).
  pose proof (CategoryFacts.category_mask_label truth name m r c Hm Hget) as Hl.
  split.
  - rewrite <- Hl.
    pose proof (CategoryFacts.category_mask_known truth name m Hm) as Hname.
    unfold category_names in Hname. simpl in Hname. unfold label_of.
    destruct Hname as [<-|[<-|[<-|[<-|[<-|[<-|[]]]]]]]; reflexivity.
  - intros other j Hin'.
    apply SingleImageFacts.in_single_image_array in Hin'
      as (m' & Hm' & _ & _ & _ & Hget').
    rewrite Hl.
    exact (CategoryFacts.category_mask_label truth other m' r c Hm' Hget').
Qed.

Lemma single_image_array_label_witness :
  In (2, 3, 7) (single_image_array truth_block 7 2 "inside_damaged") /\
  lookup LABEL_ENUM "inside_damaged" = inr (pixel_label truth_block 2 3).
Proof.
  assert (Hin : In (2, 3, 7) (single_image_array truth_block 7 2 "inside_damaged"))
    by (vm_compute; auto).
  split; [exact Hin|].
  exact (proj1 (single_image_array_label truth_block 7 2 "inside_damaged"
                  2 3 7 Hin)).
Defined.

(** X3: in the result of [get_centers_single_image] every column of
    [inside_damaged] is a column of [inside], and every column of
    [outside_damaged] and of [between] is a column of [outside]. *)
Theorem single_image_arrays_nest :
  forall (truth : truth_field) (im_no border : Z),
    incl (single_image_array truth im_no border "inside_damaged")
         (single_image_array truth im_no border "inside") /\
    incl (single_image_array truth im_no border "outside_damaged")
         (single_image_array truth im_no border "outside") /\
    incl (single_image_array truth im_no border "between")
         (single_image_array truth im_no border "outside").
Proof.
  intros truth im_no border. repeat split.
  - apply (SingleImageFacts.single_image_array_incl truth im_no border
             "inside_damaged" "inside"
             (make_damaged_spot_mask truth) (gt_0_75 truth));
      [reflexivity|reflexivity|apply CategoryFacts.damaged_spot_is_spot].
  - apply (SingleImageFacts.single_image_array_incl truth im_no border
             "outside_damaged" "outside"
             (make_outside_near_damaged_spot_mask truth) (lt_0_25 truth));
      [reflexivity|reflexivity|apply CategoryFacts.outside_near_damaged_is_below].
  - apply (SingleImageFacts.single_image_array_incl truth im_no border
             "between" "outside"
             (make_between_spot_mask truth) (lt_0_25 truth));
      [reflexivity|reflexivity|apply CategoryFacts.between_is_below].
Qed.

(** X4: no array of [get_centers_single_image] holds a column twice. *)
Theorem single_image_array_distinct :
  forall (truth : truth_field) (im_no border : Z) (name : string),
    NoDup (single_image_array truth im_no border name).
Proof.
  intros truth im_no border name.
  apply SingleImageFacts.NoDup_single_image_array.
Qed.

(** ** Mask builder, further *)

Module ClosingFacts.
Import NdFacts MorphFacts.

(** One erosion by the full 3 x 3 element keeps a pixel when the pixel and
    its eight neighbours are true; a neighbour outside the array is not. *)
Lemma erode_once_neighbourhood x r c :
  Nd.get false (ndimage.erode_once (Nd.ones 3 3) x) r c = true <->
  (0 <= r < Z.of_nat (Nd.shape0 x) /\ 0 <= c < Z.of_nat (Nd.shape1 x)) /\
  forall dr dc, -1 <= dr <= 1 -> -1 <= dc <= 1 ->
                Nd.get false x (r + dr) (c + dc) = true.
Proof.
  split.
  - intros Hget.
    pose proof (get_true_inside _ _ _ Hget) as Hin.
    apply inside_tabulate in Hin. split; [exact Hin|].
    unfold ndimage.erode_once in Hget.
    rewrite get_tabulate in Hget by apply Hin.
    rewrite forallb_forall in Hget. intros dr dc Hdr Hdc.
    apply (Hget (dr, dc)). rewrite offsets_ones_3_3.
    assert (Er : dr = -1 \/ dr = 0 \/ dr = 1) by lia.
    assert (Ec : dc = -1 \/ dc = 0 \/ dc = 1) by lia.
    destruct Er as [E | [E | E]]; rewrite E;
      destruct Ec as [E' | [E' | E']]; rewrite E'; simpl; tauto.
  - intros ([Hr Hc] & Hall).
    unfold ndimage.erode_once. rewrite get_tabulate by assumption.
    apply forallb_forall. intros [dr dc] Ho.
    rewrite offsets_ones_3_3 in Ho. simpl in Ho. simpl.
    repeat (destruct Ho as [Ho|Ho];
            [injection Ho as E1 E2; subst dr dc; apply Hall; lia|]).
    contradiction.
Qed.

Lemma binary_closing_once x :
  ndimage.binary_closing x (Nd.ones 3 3) =
  ndimage.erode_once (Nd.ones 3 3) (ndimage.dilate_once (Nd.ones 3 3) x).
Proof. reflexivity. Qed.

Lemma dilate_once_shapes x :
  Nd.shape0 (ndimage.dilate_once (Nd.ones 3 3) x) = Nd.shape0 x /\
  Nd.shape1 (ndimage.dilate_once (Nd.ones 3 3) x) = Nd.shape1 x.
Proof.
  unfold ndimage.dilate_once. split;
    [apply shape0_tabulate|apply shape1_tabulate_same].
Qed.

(** A true pixel of a dilation has a true pixel of the input behind it. *)
Lemma binary_dilation_source x n r c :
  Nd.get false (ndimage.binary_dilation x (Nd.ones 3 3) n) r c = true ->
  exists r' c', Nd.get false x r' c' = true.
Proof.
  unfold ndimage.binary_dilation. revert r c.
  induction n as [|n IH] using Pos.peano_ind; intros r c.
  - simpl. intros H. apply dilate_once_neighbourhood in H
      as (_ & r' & c' & _ & _ & Hx). eauto.
  - rewrite Pos.iter_succ. intros H. apply dilate_once_neighbourhood in H
      as (_ & r' & c' & _ & _ & Hy). eauto.
Qed.

Lemma shape0_and (a b : Nd.ndarray bool) :
  Nd.shape0 (Nd.and_ a b) = Nat.min (Nd.shape0 a) (Nd.shape0 b).
Proof.
  unfold Nd.and_, Nd.zip, Nd.shape0. revert b.
  induction a as [|ra a IH]; intros [|rb b]; simpl; auto.
Qed.

Lemma length_zip_row {A B C} (f : A -> B -> C) xs ys :
  length (Nd.zip_row f xs ys) = Nat.min (length xs) (length ys).
Proof.
  revert ys. induction xs as [|x xs IH]; intros [|y ys]; simpl; auto.
Qed.

Lemma shape1_and (a b : Nd.ndarray bool) :
  Nd.shape1 (Nd.and_ a b) = Nat.min (Nd.shape1 a) (Nd.shape1 b).
Proof.
  unfold Nd.and_, Nd.zip. destruct a as [|ra a], b as [|rb b]; simpl;
    try reflexivity; try (symmetry; apply Nat.min_0_r).
  apply length_zip_row.
Qed.

Lemma damaged_pixel_shape truth :
  Nd.shape0 (Nd.and_ (gt_0_75 truth) (lt_1 truth)) = Nd.shape0 truth /\
  Nd.shape1 (Nd.and_ (gt_0_75 truth) (lt_1 truth)) = Nd.shape1 truth.
Proof.
  rewrite shape0_and, shape1_and. unfold gt_0_75, lt_1.
  rewrite !shape0_map, !shape1_map. split; apply Nat.min_id.
Qed.

(** The closing of the damaged pixels, pixel by pixel. *)
Lemma get_damaged_spot truth r c :
  Nd.get false (make_damaged_spot_mask truth) r c =
  Nd.get false (damaged_area truth) r c && Nd.get false (gt_0_75 truth) r c.
Proof. unfold make_damaged_spot_mask, damaged_area. apply get_and. Qed.

Lemma damaged_area_neighbourhood truth r c :
  Nd.get false (damaged_area truth) r c = true <->
  (0 <= r < Z.of_nat (Nd.shape0 truth) /\ 0 <= c < Z.of_nat (Nd.shape1 truth)) /\
  forall dr dc, -1 <= dr <= 1 -> -1 <= dc <= 1 ->
    Nd.get false (ndimage.dilate_once (Nd.ones 3 3)
                    (Nd.and_ (gt_0_75 truth) (lt_1 truth)))
           (r + dr) (c + dc) = true.
Proof.
  unfold damaged_area. rewrite binary_closing_once, erode_once_neighbourhood.
  destruct (dilate_once_shapes (Nd.and_ (gt_0_75 truth) (lt_1 truth)))
    as [-> ->].
  destruct (damaged_pixel_shape truth) as [-> ->]. reflexivity.
Qed.

(** Without a damaged pixel there is no damaged spot. *)
Lemma no_damaged_spot truth :
  (forall r c, Nd.get false (Nd.and_ (gt_0_75 truth) (lt_1 truth)) r c = false) ->
  forall r c, Nd.get false (make_damaged_spot_mask truth) r c = false.
Proof.
  intros Hnone r c. rewrite get_damaged_spot.
  destruct (Nd.get false (damaged_area truth) r c) eqn:Harea; [|reflexivity].
  exfalso. apply damaged_area_neighbourhood in Harea as [_ Hall].
  specialize (Hall 0 0 ltac:(lia) ltac:(lia)).
  apply dilate_once_neighbourhood in Hall as (_ & r' & c' & _ & _ & Hx).
  rewrite Hnone in Hx. discriminate.
Qed.

Lemma no_outside_near_damaged_spot truth :
  (forall r c, Nd.get false (Nd.and_ (gt_0_75 truth) (lt_1 truth)) r c = false) ->
  forall r c,
    Nd.get false (make_outside_near_damaged_spot_mask truth) r c = false.
Proof.
  intros Hnone r c. unfold make_outside_near_damaged_spot_mask.
  rewrite get_and.
  destruct (Nd.get false
              (ndimage.binary_dilation (make_damaged_spot_mask truth)
                 (Nd.ones 3 3) 5) r c) eqn:Hnear; [|reflexivity].
  apply binary_dilation_source in Hnear as (r' & c' & Hspot).
  now rewrite (no_damaged_spot truth Hnone) in Hspot.
Qed.

End ClosingFacts.

Module MaskShapeFacts.
Import NdFacts MorphFacts ClosingFacts.

Lemma inside_within_shape {A} (a : Nd.ndarray A) r c :
  Nd.rect a -> Nd.inside a r c ->
  0 <= r < Z.of_nat (Nd.shape0 a) /\ 0 <= c < Z.of_nat (Nd.shape1 a).
Proof.
  intros Hrect (Hr & Hrh & Hc & Hcw).
  unfold Nd.rect in Hrect. rewrite Forall_forall in Hrect.
  rewrite (Hrect (nth (Z.to_nat r) a [])) in Hcw by now apply nth_In.
  lia.
Qed.

Lemma comparison_in_shape (f : Float64.float -> bool) (truth : truth_field) r c :
  Nd.rect truth ->
  Nd.get false (Nd.map f truth) r c = true ->
  0 <= r < Z.of_nat (Nd.shape0 truth) /\ 0 <= c < Z.of_nat (Nd.shape1 truth).
Proof.
  intros Hrect Hget. apply (get_map_true f S754_nan) in Hget as [Hin _].
  now apply inside_within_shape.
Qed.

Lemma erode_once_shapes x :
  Nd.shape0 (ndimage.erode_once (Nd.ones 3 3) x) = Nd.shape0 x /\
  Nd.shape1 (ndimage.erode_once (Nd.ones 3 3) x) = Nd.shape1 x.
Proof.
  unfold ndimage.erode_once. split;
    [apply shape0_tabulate|apply shape1_tabulate_same].
Qed.

Lemma damaged_spot_shape truth :
  Nd.shape0 (make_damaged_spot_mask truth) = Nd.shape0 truth /\
  Nd.shape1 (make_damaged_spot_mask truth) = Nd.shape1 truth.
Proof.
  unfold make_damaged_spot_mask. rewrite shape0_and, shape1_and.
  rewrite binary_closing_once.
  destruct (erode_once_shapes
              (ndimage.dilate_once (Nd.ones 3 3)
                 (Nd.and_ (gt_0_75 truth) (lt_1 truth)))) as [-> ->].
  destruct (dilate_once_shapes (Nd.and_ (gt_0_75 truth) (lt_1 truth)))
    as [-> ->].
  destruct (damaged_pixel_shape truth) as [-> ->].
  unfold gt_0_75. rewrite shape0_map, shape1_map. split; apply Nat.min_id.
Qed.

(** The pixels near the true pixels of a mask [x] of the field's shape: the
    [n]-fold dilation, restricted to the pixels below 0.25. *)
Lemma near_and_below truth (x : mask) n r c :
  Nd.rect truth ->
  Nd.shape0 x = Nd.shape0 truth -> Nd.shape1 x = Nd.shape1 truth ->
  (forall r' c', Nd.get false x r' c' = true -> c' < Z.of_nat (Nd.shape1 truth)) ->
  Nd.get false (Nd.and_ (ndimage.binary_dilation x (Nd.ones 3 3) n)
                        (lt_0_25 truth)) r c = true <->
  Nd.get false (lt_0_25 truth) r c = true /\
  exists r' c', Z.abs (r - r') <= Zpos n /\ Z.abs (c - c') <= Zpos n /\
                Nd.get false x r' c' = true.
Proof.
  intros Hrect H0 H1 Hwide.
  rewrite get_and, andb_true_iff.
  rewrite binary_dilation_chebyshev by (rewrite H1; exact Hwide).
  rewrite H0, H1. split.
  - intros [(_ & Hnear) Hlt]. auto.
  - intros [Hlt Hnear]. split; [|exact Hlt]. split; [|exact Hnear].
    exact (comparison_in_shape _ truth r c Hrect Hlt).
Qed.

Lemma undamaged_no_damaged_pixel truth :
  undamaged truth ->
  forall r c, Nd.get false (Nd.and_ (gt_0_75 truth) (lt_1 truth)) r c = false.
Proof.
  intros Hun r c. rewrite get_and.
  destruct (Nd.get false (gt_0_75 truth) r c) eqn:Hgt; [|reflexivity].
  unfold gt_0_75 in Hgt.
  apply (get_map_true _ S754_nan) in Hgt as [Hin Hgt]. simpl.
  unfold lt_1. rewrite (get_map _ S754_nan) by assumption.
  assert (Hv : Float64.ltb Float64.lit_0_75 (Nd.get S754_nan truth r c)
               && Float64.ltb (Nd.get S754_nan truth r c) Float64.lit_1 = false).
  { unfold undamaged in Hun. rewrite Forall_forall in Hun.
    destruct Hin as (Hr & Hrh & Hc & Hcw).
    specialize (Hun (nth (Z.to_nat r) truth []) ltac:(now apply nth_In)).
    rewrite Forall_forall in Hun.
    unfold Nd.get.
    destruct (r <? 0) eqn:Er; [apply Z.ltb_lt in Er; lia|].
    destruct (c <? 0) eqn:Ec; [apply Z.ltb_lt in Ec; lia|]. simpl.
    apply Hun. now apply nth_In. }
  rewrite Hgt in Hv. exact Hv.
Qed.

Lemma rect_truth_block : Nd.rect truth_block.
Proof. unfold Nd.rect, truth_block. repeat constructor. Qed.

Lemma rect_truth_dot : Nd.rect truth_dot.
Proof. unfold Nd.rect, truth_dot. repeat constructor. Qed.

Lemma undamaged_truth_dot : undamaged truth_dot.
Proof. unfold undamaged, truth_dot. repeat constructor. Qed.

End MaskShapeFacts.

(** X5: in a rectangular field [make_between_spot_mask] marks exactly the
    pixels below 0.25 that have a pixel above 0.75 within Chebyshev
    distance 4. *)
Theorem between_spot_mask_distance :
  forall (truth : truth_field) (r c : Z),
    Nd.rect truth ->
    (Nd.get false (make_between_spot_mask truth) r c = true <->
     Nd.get false (lt_0_25 truth) r c = true /\
     exists r' c', Z.abs (r - r') <= 4 /\ Z.abs (c - c') <= 4 /\
                   Nd.get false (gt_0_75 truth) r' c' = true).
Proof.
  intros truth r c Hrect. unfold make_between_spot_mask.
  apply (MaskShapeFacts.near_and_below truth (gt_0_75 truth) 4 r c Hrect).
  - apply NdFacts.shape0_map.
  - apply NdFacts.shape1_map.
  - intros r' c' Hget.
    now apply (MaskShapeFacts.comparison_in_shape _ truth r' c' Hrect Hget).
Qed.

Lemma between_spot_mask_distance_witness :
  Nd.rect truth_dot /\
  (Nd.get false (make_between_spot_mask truth_dot) 0 4 = true <->
   Nd.get false (lt_0_25 truth_dot) 0 4 = true /\
   exists r' c', Z.abs (0 - r') <= 4 /\ Z.abs (4 - c') <= 4 /\
                 Nd.get false (gt_0_75 truth_dot) r' c' = true).
Proof.
  split; [exact MaskShapeFacts.rect_truth_dot|].
  exact (between_spot_mask_distance truth_dot 0 4 MaskShapeFacts.rect_truth_dot).
Defined.

(** X6: in a rectangular field [make_outside_near_damaged_spot_mask] marks
    exactly the pixels below 0.25 that have a pixel of the damaged-spot mask
    within Chebyshev distance 5. *)
Theorem outside_near_damaged_spot_mask_distance :
  forall (truth : truth_field) (r c : Z),
    Nd.rect truth ->
    (Nd.get false (make_outside_near_damaged_spot_mask truth) r c = true <->
     Nd.get false (lt_0_25 truth) r c = true /\
     exists r' c', Z.abs (r - r') <= 5 /\ Z.abs (c - c') <= 5 /\
                   Nd.get false (make_damaged_spot_mask truth) r' c' = true).
Proof.
  intros truth r c Hrect. unfold make_outside_near_damaged_spot_mask.
  destruct (MaskShapeFacts.damaged_spot_shape truth) as [H0 H1].
  apply (MaskShapeFacts.near_and_below truth (make_damaged_spot_mask truth) 5
           r c Hrect H0 H1).
  intros r' c' Hget. apply CategoryFacts.damaged_spot_is_spot in Hget.
  now apply (MaskShapeFacts.comparison_in_shape _ truth r' c' Hrect Hget).
Qed.

Lemma outside_near_damaged_spot_mask_distance_witness :
  Nd.rect truth_block /\
  (Nd.get false (make_outside_near_damaged_spot_mask truth_block) 0 0 = true <->
   Nd.get false (lt_0_25 truth_block) 0 0 = true /\
   exists r' c', Z.abs (0 - r') <= 5 /\ Z.abs (0 - c') <= 5 /\
                 Nd.get false (make_damaged_spot_mask truth_block) r' c' = true).
Proof.
  split; [exact MaskShapeFacts.rect_truth_block|].
  exact (outside_near_damaged_spot_mask_distance truth_block 0 0
           MaskShapeFacts.rect_truth_block).
Defined.

(** X7: [make_damaged_spot_mask] never marks a pixel of the outermost rows
    and columns of the field (the erosion of the closing reads false outside
    the field), and it marks every damaged pixel that is not on them. *)
Theorem damaged_spot_mask_off_the_edge :
  forall (truth : truth_field) (r c : Z),
    (Nd.get false (make_damaged_spot_mask truth) r c = true ->
     1 <= r < Z.of_nat (Nd.shape0 truth) - 1 /\
     1 <= c < Z.of_nat (Nd.shape1 truth) - 1) /\
    (1 <= r < Z.of_nat (Nd.shape0 truth) - 1 ->
     1 <= c < Z.of_nat (Nd.shape1 truth) - 1 ->
     Nd.get false (Nd.and_ (gt_0_75 truth) (lt_1 truth)) r c = true ->
     Nd.get false (make_damaged_spot_mask truth) r c = true).
Proof.
  intros truth r c.
  destruct (ClosingFacts.damaged_pixel_shape truth) as [H0 H1].
  split.
  - intros Hmask. rewrite ClosingFacts.get_damaged_spot in Hmask.
    apply andb_true_iff in Hmask as [Harea _].
    apply ClosingFacts.damaged_area_neighbourhood in Harea as [_ Hall].
    pose proof (Hall (-1) (-1) ltac:(lia) ltac:(lia)) as Hlow.
    pose proof (Hall 1 1 ltac:(lia) ltac:(lia)) as Hhigh.
    apply MorphFacts.dilate_once_neighbourhood in Hlow as [Hlow _].
    apply MorphFacts.dilate_once_neighbourhood in Hhigh as [Hhigh _].
    rewrite H0, H1 in Hlow, Hhigh. lia.
  - intros Hr Hc Hpixel. rewrite ClosingFacts.get_damaged_spot.
    apply andb_true_iff. split.
    + apply ClosingFacts.damaged_area_neighbourhood. split; [lia|].
      intros dr dc Hdr Hdc. apply MorphFacts.dilate_once_neighbourhood.
      rewrite H0, H1. split; [lia|].
      exists r, c. repeat split; [lia|lia|exact Hpixel].
    + rewrite NdFacts.get_and in Hpixel.
      now apply andb_true_iff in Hpixel.
Qed.

(** X8: for a field none of whose values lies strictly between 0.75 and 1,
    [get_centers_single_image] returns empty [inside_damaged] and
    [outside_damaged] arrays, whatever the border. *)
Theorem undamaged_field_has_no_damaged_centers :
  forall (truth : truth_field) (im_no border : Z),
    undamaged truth ->
    lookup (get_centers_single_image truth im_no border) "inside_damaged"
    = inr [] /\
    lookup (get_centers_single_image truth im_no border) "outside_damaged"
    = inr [].
Proof.
  intros truth im_no border Hun.
  pose proof (MaskShapeFacts.undamaged_no_damaged_pixel truth Hun) as Hnone.
  rewrite !SingleImageFacts.lookup_single_image_array
    by (unfold category_names; simpl; tauto).
  split; f_equal.
  - destruct (single_image_array truth im_no border "inside_damaged")
      as [|[[r c] i] rest] eqn:E; [reflexivity|].
    assert (Hin : In (r, c, i)
                     (single_image_array truth im_no border "inside_damaged"))
      by (rewrite E; now left).
    rewrite (PoolFacts.single_image_array_of_mask truth im_no border
               "inside_damaged" (make_damaged_spot_mask truth) eq_refl) in Hin.
    apply PoolFacts.selected_column_iff in Hin as (_ & _ & _ & Hm).
    now rewrite (ClosingFacts.no_damaged_spot truth Hnone) in Hm.
  - destruct (single_image_array truth im_no border "outside_damaged")
      as [|[[r c] i] rest] eqn:E; [reflexivity|].
    assert (Hin : In (r, c, i)
                     (single_image_array truth im_no border "outside_damaged"))
      by (rewrite E; now left).
    rewrite (PoolFacts.single_image_array_of_mask truth im_no border
               "outside_damaged" (make_outside_near_damaged_spot_mask truth)
               eq_refl) in Hin.
    apply PoolFacts.selected_column_iff in Hin as (_ & _ & _ & Hm).
    now rewrite (ClosingFacts.no_outside_near_damaged_spot truth Hnone) in Hm.
Qed.

Lemma undamaged_field_has_no_damaged_centers_witness :
  undamaged truth_dot /\
  lookup (get_centers_single_image truth_dot 0 1) "inside_damaged" = inr [] /\
  lookup (get_centers_single_image truth_dot 0 1) "outside_damaged" = inr [].
Proof.
  split; [exact MaskShapeFacts.undamaged_truth_dot|].
  exact (undamaged_field_has_no_damaged_centers truth_dot 0 1
           MaskShapeFacts.undamaged_truth_dot).
Defined.

(** X9: in a rectangular field [make_block_border_mask] marks exactly the
    pixels that have a pixel above 0.75 within Chebyshev distance 15 and none
    within distance 3. *)
Theorem block_border_mask_distance :
  forall (truth : truth_field) (r c : Z),
    Nd.rect truth ->
    (Nd.get false (make_block_border_mask truth) r c = true <->
     (0 <= r < Z.of_nat (Nd.shape0 truth) /\
      0 <= c < Z.of_nat (Nd.shape1 truth)) /\
     (exists r' c', Z.abs (r - r') <= 15 /\ Z.abs (c - c') <= 15 /\
                    Nd.get false (gt_0_75 truth) r' c' = true) /\
     ~ (exists r' c', Z.abs (r - r') <= 3 /\ Z.abs (c - c') <= 3 /\
                      Nd.get false (gt_0_75 truth) r' c' = true)).
Proof.
  intros truth r c Hrect. now apply MaskFacts.block_border_distances.
Qed.

Lemma block_border_mask_distance_witness :
  Nd.rect truth_dot /\
  (Nd.get false (make_block_border_mask truth_dot) 0 0 = true <->
   (0 <= 0 < Z.of_nat (Nd.shape0 truth_dot) /\
    0 <= 0 < Z.of_nat (Nd.shape1 truth_dot)) /\
   (exists r' c', Z.abs (0 - r') <= 15 /\ Z.abs (0 - c') <= 15 /\
                  Nd.get false (gt_0_75 truth_dot) r' c' = true) /\
   ~ (exists r' c', Z.abs (0 - r') <= 3 /\ Z.abs (0 - c') <= 3 /\
                    Nd.get false (gt_0_75 truth_dot) r' c' = true)).
Proof.
  split; [exact MaskShapeFacts.rect_truth_dot|].
  exact (block_border_mask_distance truth_dot 0 0 MaskShapeFacts.rect_truth_dot).
Defined.

(** ** Corpus aggregator, further *)

Module CorpusFacts.
Import SingleImageFacts.

Lemma in_enumerate_from {A} (l : list A) s k x :
  In (k, x) (enumerate_from s l) <->
  exists n, k = s + Z.of_nat n /\ nth_error l n = Some x.
Proof.
  revert s. induction l as [|y l IH]; intros s; simpl.
  - split; [contradiction|]. intros (n & _ & Hn). now destruct n.
  - rewrite IH. split.
    + intros [[= <- <-]|(n & -> & Hn)].
      * exists 0%nat. split; [lia|reflexivity].
      * exists (S n). split; [lia|exact Hn].
    + intros ([|n] & -> & Hn); simpl in Hn.
      * left. injection Hn as ->. f_equal. lia.
      * right. exists n. split; [lia|exact Hn].
Qed.

Lemma corpus_pool_by_image truths border name :
  corpus_pool truths border name =
  concat (map (fun it => single_image_array (snd it) (fst it) border name)
              (enumerate_from 0 truths)).
Proof.
  unfold corpus_pool, per_image_centers. now rewrite map_map.
Qed.

(** A column of a pool comes from the image its last entry names. *)
Lemma in_corpus_pool truths border name r c i :
  In (r, c, i) (corpus_pool truths border name) <->
  exists n t, i = Z.of_nat n /\ nth_error truths n = Some t /\
              In (r, c, i) (single_image_array t i border name).
Proof.
  rewrite corpus_pool_by_image, in_concat. split.
  - intros (arr & Harr & Hin).
    apply in_map_iff in Harr as ([k t] & <- & Hkt). simpl in Hin.
    apply in_enumerate_from in Hkt as (n & -> & Hn).
    pose proof (single_image_array_bounds _ _ _ _ _ _ _ Hin) as [Hi _].
    exists n, t. subst i. rewrite Z.add_0_l in *. auto.
  - intros (n & t & -> & Hn & Hin).
    exists (single_image_array t (Z.of_nat n) border name). split; [|exact Hin].
    apply in_map_iff. exists (Z.of_nat n, t). split; [reflexivity|].
    apply in_enumerate_from. exists n. split; [lia|exact Hn].
Qed.

Lemma lookup_corpus_pool truth truths border name :
  In name category_names ->
  exists result,
    get_centers (truth :: truths) border = inr result /\
    lookup result name = inr (corpus_pool (truth :: truths) border name).
Proof.
  intros Hname. eexists. split; [apply AggregateFacts.get_centers_nonempty|].
  exact (AggregateFacts.lookup_named
           (fun name => corpus_pool (truth :: truths) border name)
           category_names name Hname).
Qed.

Lemma get_centers_pools truth truths border :
  get_centers (truth :: truths) border =
  inr (map (fun name => (name, corpus_pool (truth :: truths) border name))
           category_names).
Proof. apply AggregateFacts.get_centers_nonempty. Qed.

Lemma pool_of_get_centers truths border result name pool :
  get_centers truths border = inr result ->
  lookup result name = inr pool ->
  In name category_names /\ pool = corpus_pool truths border name.
Proof.
  intros Hres Hpool.
  destruct truths as [|truth truths]; [discriminate Hres|].
  rewrite get_centers_pools in Hres. injection Hres as <-.
  assert (Hname : In name category_names).
  { pose proof (AggregateFacts.keys_named
                  (fun name => corpus_pool (truth :: truths) border name)
                  category_names) as E.
    cbv beta in E. rewrite <- E at 1.
    eapply ListFacts.lookup_in_keys_inv. exact Hpool. }
  split; [exact Hname|].
  pose proof (AggregateFacts.lookup_named
                (fun name => corpus_pool (truth :: truths) border name)
                category_names name Hname) as E.
  cbv beta in E.
  assert (H : @inr exn coords pool =
              inr (corpus_pool (truth :: truths) border name))
    by (rewrite <- Hpool; exact E).
  now injection H.
Qed.

Lemma NoDup_pools_from border name truths s :
  NoDup (concat (map (fun it => single_image_array (snd it) (fst it) border name)
                     (enumerate_from s truths))).
Proof.
  revert s. induction truths as [|t truths IH]; intros s; simpl; [constructor|].
  apply NoDup_app.
  - apply NoDup_single_image_array.
  - apply IH.
  - intros [[r c] i] Hin Hin'.
    apply single_image_array_bounds in Hin as [Hi _].
    apply in_concat in Hin' as (arr & Harr & Hin').
    apply in_map_iff in Harr as ([k t'] & <- & Hkt). simpl in Hin'.
    apply in_enumerate_from in Hkt as (n & -> & _).
    apply single_image_array_bounds in Hin' as [Hi' _]. lia.
Qed.

Lemma zero_border_pool truths name : corpus_pool truths 0 name = [].
Proof.
  rewrite corpus_pool_by_image.
  induction (enumerate_from 0 truths) as [|it l IH]; simpl; [reflexivity|].
  now rewrite zero_border_array, IH.
Qed.

End CorpusFacts.

(** X10: for each category, the pool [get_centers] returns holds exactly the
    columns of that category's arrays of the single images, each tagged with
    the position of its image in the input sequence. *)
Theorem get_centers_pool_exact :
  forall (truth : truth_field) (truths : list truth_field) (border : Z)
         (name : string),
    In name category_names ->
    exists result pool,
      get_centers (truth :: truths) border = inr result /\
      lookup result name = inr pool /\
      forall r c i,
        In (r, c, i) pool <->
        exists n t,
          i = Z.of_nat n /\ nth_error (truth :: truths) n = Some t /\
          In (r, c, i) (single_image_array t i border name).
Proof.
  intros truth truths border name Hname.
  destruct (CorpusFacts.lookup_corpus_pool truth truths border name Hname)
    as (result & Hres & Hpool).
  exists result, (corpus_pool (truth :: truths) border name).
  split; [exact Hres|]. split; [exact Hpool|].
  intros r c i. apply CorpusFacts.in_corpus_pool.
Qed.

Lemma get_centers_pool_exact_witness :
  In "inside"%string category_names /\
  exists result pool,
    get_centers [truth_block; truth_dot] 1 = inr result /\
    lookup result "inside" = inr pool /\
    forall r c i,
      In (r, c, i) pool <->
      exists n t,
        i = Z.of_nat n /\ nth_error [truth_block; truth_dot] n = Some t /\
        In (r, c, i) (single_image_array t i 1 "inside").
Proof.
  assert (Hname : In "inside"%string category_names) by (simpl; auto).
  split; [exact Hname|].
  exact (get_centers_pool_exact truth_block [truth_dot] 1 "inside" Hname).
Defined.

(** X11: every column [(r, c, i)] of a pool of [get_centers] names an image
    [i] of the input sequence and lies at least [border] away from every edge
    of that image: [border <= r < height_i - border] and
    [border <= c < width_i - border]. *)
Theorem get_centers_columns_fit_their_image :
  forall (truths : list truth_field) (border : Z) (result : dict coords)
         (name : string) (pool : coords) (r c i : Z),
    get_centers truths border = inr result ->
    lookup result name = inr pool ->
    In (r, c, i) pool ->
    exists t,
      0 <= i < Z.of_nat (length truths) /\
      nth_error truths (Z.to_nat i) = Some t /\
      border <= r < Z.of_nat (Nd.shape0 t) - border /\
      border <= c < Z.of_nat (Nd.shape1 t) - border.
Proof.
  intros truths border result name pool r c i Hres Hpool Hin.
  destruct (CorpusFacts.pool_of_get_centers _ _ _ _ _ Hres Hpool) as [Hname ->].
  apply CorpusFacts.in_corpus_pool in Hin as (n & t & -> & Hn & Hin).
  apply SingleImageFacts.single_image_array_bounds in Hin as (_ & Hr & Hc).
  exists t. rewrite Nat2Z.id.
  assert (Hlt : (n < length truths)%nat)
    by (apply nth_error_Some; congruence).
  repeat split; try assumption; lia.
Qed.

Lemma get_centers_columns_fit_their_image_witness :
  exists t,
    0 <= 1 < Z.of_nat (length [truth_block; truth_dot]) /\
    nth_error [truth_block; truth_dot] (Z.to_nat 1) = Some t /\
    1 <= 2 < Z.of_nat (Nd.shape0 t) - 1 /\
    1 <= 2 < Z.of_nat (Nd.shape1 t) - 1.
Proof.
  apply (get_centers_columns_fit_their_image [truth_block; truth_dot] 1
           (map (fun name => (name, corpus_pool [truth_block; truth_dot] 1 name))
                category_names)
           "inside" (corpus_pool [truth_block; truth_dot] 1 "inside") 2 2 1).
  - apply CorpusFacts.get_centers_pools.
  - reflexivity.
  - vm_compute. auto 10.
Defined.

(** X12: no pool of [get_centers] holds a column twice. *)
Theorem get_centers_pool_distinct :
  forall (truths : list truth_field) (border : Z) (result : dict coords)
         (name : string) (pool : coords),
    get_centers truths border = inr result ->
    lookup result name = inr pool ->
    NoDup pool.
Proof.
  intros truths border result name pool Hres Hpool.
  destruct (CorpusFacts.pool_of_get_centers _ _ _ _ _ Hres Hpool) as [Hname ->].
  rewrite CorpusFacts.corpus_pool_by_image. apply CorpusFacts.NoDup_pools_from.
Qed.

Lemma get_centers_pool_distinct_witness :
  NoDup (corpus_pool [truth_block; truth_dot] 1 "outside").
Proof.
  apply (get_centers_pool_distinct [truth_block; truth_dot] 1
           (map (fun name => (name, corpus_pool [truth_block; truth_dot] 1 name))
                category_names)
           "outside").
  - apply CorpusFacts.get_centers_pools.
  - reflexivity.
Defined.

(** ** From the corpus to the labelled sets *)

Module PipelineFacts.
Import SingleImageFacts CorpusFacts.

Lemma empty_mask_array truth im_no border name m :
  lookup (category_masks truth) name = inr m ->
  (forall r c, Nd.get false m r c = false) ->
  single_image_array truth im_no border name = [].
Proof.
  intros Hm Hnone.
  destruct (single_image_array truth im_no border name)
    as [|[[r c] i] rest] eqn:E; [reflexivity|].
  assert (Hin : In (r, c, i) (single_image_array truth im_no border name))
    by (rewrite E; now left).
  apply in_single_image_array in Hin as (m' & Hm' & _ & _ & _ & Hget).
  rewrite Hm in Hm'. injection Hm' as <-. now rewrite Hnone in Hget.
Qed.

Lemma undamaged_pools truths border :
  Forall undamaged truths ->
  corpus_pool truths border "inside_damaged" = [] /\
  corpus_pool truths border "outside_damaged" = [].
Proof.
  intros Hun. rewrite !corpus_pool_by_image.
  assert (H : Forall (fun it => undamaged (snd it)) (enumerate_from 0 truths)).
  { apply Forall_forall. intros [k t] Hin.
    apply in_enumerate_from in Hin as (n & _ & Hn). simpl.
    rewrite Forall_forall in Hun. apply Hun. eapply nth_error_In. exact Hn. }
  induction H as [|[k t] l Ht _ [IH1 IH2]]; [now split|].
  cbn [map concat fst snd]. rewrite IH1, IH2.
  pose proof (MaskShapeFacts.undamaged_no_damaged_pixel t Ht) as Hnone.
  rewrite (empty_mask_array t k border "inside_damaged"
             (make_damaged_spot_mask t) eq_refl
             (ClosingFacts.no_damaged_spot t Hnone)).
  rewrite (empty_mask_array t k border "outside_damaged"
             (make_outside_near_damaged_spot_mask t) eq_refl
             (ClosingFacts.no_outside_near_damaged_spot t Hnone)).
  now split.
Qed.

Lemma keys_get_centers truths border centers :
  get_centers truths border = inr centers -> keys centers = category_names.
Proof.
  destruct truths as [|truth truths]; [discriminate|].
  rewrite get_centers_pools. intros [= <-].
  exact (AggregateFacts.keys_named
           (fun name => corpus_pool (truth :: truths) border name)
           category_names).
Qed.

Lemma total_count_get_centers truths border centers :
  get_centers truths border = inr centers -> total_count counts centers = 800000.
Proof.
  intros Hres. unfold total_count.
  rewrite (keys_get_centers _ _ _ Hres). vm_compute. reflexivity.
Qed.

Lemma category_array_get_centers truths border centers name :
  get_centers truths border = inr centers ->
  In name category_names ->
  category_array centers name = corpus_pool truths border name.
Proof.
  intros Hres Hname.
  assert (Hin : In name (keys centers))
    by now rewrite (keys_get_centers _ _ _ Hres).
  destruct (ListFacts.lookup_in_keys centers name Hin) as (pool & Hpool & _).
  unfold category_array. rewrite Hpool.
  now destruct (pool_of_get_centers _ _ _ _ _ Hres Hpool).
Qed.

(** A column of a pool and the label of the pool's category: the label is
    the one the truth of the column's image gives its pixel. *)
Lemma pool_column_label truths border name r c i :
  In (r, c, i) (corpus_pool truths border name) ->
  exists t,
    0 <= i /\ nth_error truths (Z.to_nat i) = Some t /\
    border <= r < Z.of_nat (Nd.shape0 t) - border /\
    border <= c < Z.of_nat (Nd.shape1 t) - border /\
    label_of name = pixel_label t r c.
Proof.
  intros Hin. apply in_corpus_pool in Hin as (n & t & -> & Hn & Hin).
  pose proof (single_image_array_bounds _ _ _ _ _ _ _ Hin) as (_ & Hr & Hc).
  apply in_single_image_array in Hin as (m & Hm & _ & _ & _ & Hget).
  exists t. rewrite Nat2Z.id.
  split; [lia|]. split; [exact Hn|]. split; [exact Hr|]. split; [exact Hc|].
  exact (CategoryFacts.category_mask_label t name m r c Hm Hget).
Qed.

Lemma in_combine_slice_to {A B} (xs : list A) (ys : list B) n p :
  length ys = length xs ->
  In p (combine (slice_to n xs) (slice_to n ys)) -> In p (combine xs ys).
Proof.
  intros Hlen Hin. unfold slice_to in Hin. rewrite Hlen in Hin.
  rewrite <- combine_firstn in Hin.
  rewrite <- (firstn_skipn (Z.to_nat (slice_bound (length xs) n)) (combine xs ys)).
  apply in_or_app. now left.
Qed.

Lemma combine_skipn {A B} (xs : list A) (ys : list B) k :
  combine (skipn k xs) (skipn k ys) = skipn k (combine xs ys).
Proof.
  revert xs ys. induction k as [|k IH]; intros xs ys; [reflexivity|].
  destruct xs as [|x xs]; [reflexivity|].
  destruct ys as [|y ys]; simpl; [now destruct (skipn k xs)|apply IH].
Qed.

Lemma in_combine_slice_from {A B} (xs : list A) (ys : list B) n p :
  length ys = length xs ->
  In p (combine (slice_from n xs) (slice_from n ys)) -> In p (combine xs ys).
Proof.
  intros Hlen Hin. unfold slice_from in Hin. rewrite Hlen in Hin.
  rewrite combine_skipn in Hin.
  rewrite <- (firstn_skipn (Z.to_nat (slice_bound (length xs) n)) (combine xs ys)).
  apply in_or_app. now right.
Qed.

Lemma length_slices_agree {A B} (xs : list A) (ys : list B) n :
  length ys = length xs ->
  length (slice_to n ys) = length (slice_to n xs) /\
  length (slice_from n ys) = length (slice_from n xs).
Proof.
  intros Hlen. unfold slice_to, slice_from.
  rewrite !length_firstn, !length_skipn, Hlen. split; reflexivity.
Qed.

(** The number of copies of the label [v] among the labels laid out category
    by category. *)
Lemma count_label_segments quotas v names :
  Z.of_nat (count_occ Z.eq_dec (concat (map (labels_for quotas) names)) v) =
  fold_right Z.add 0
    (map (fun name => if label_of name =? v then Zpos (quota_of quotas name)
                      else 0) names).
Proof.
  induction names as [|name names IH]; [reflexivity|].
  cbn [map concat fold_right]. rewrite count_occ_app, Nat2Z.inj_add, IH.
  f_equal. unfold labels_for, sp_repeat.
  destruct (Z.eqb_spec (label_of name) v) as [E|E].
  - rewrite count_occ_repeat_eq by congruence. apply positive_nat_Z.
  - rewrite count_occ_repeat_neq by congruence. reflexivity.
Qed.

Lemma not_empty_strip :
  ~ has_empty_pool
      (map (fun name => (name, corpus_pool [truth_strip] 1 name)) category_names).
Proof.
  intros (name & Hin & He).
  pose proof (AggregateFacts.keys_named
                (fun name => corpus_pool [truth_strip] 1 name) category_names) as E.
  cbv beta in E. rewrite E in Hin. unfold category_names in Hin.
  destruct Hin as [<-|[<-|[<-|[<-|[<-|[<-|[]]]]]]];
    vm_compute in He; discriminate He.
Qed.

End PipelineFacts.

(** X13: with [border = 0] every pool of [get_centers] is empty (the slice
    [0:-0] selects nothing), and [make_labelled_sets] on that dict raises
    [ValueError "a must be non-empty"], whatever the fields, the test split
    and the random state. *)
Theorem zero_border_corpus_cannot_be_sampled :
  forall (R : RandomSource) (truth : truth_field) (truths : list truth_field)
         (test_split : Float64.float) (g : rng_state R),
    exists centers,
      get_centers (truth :: truths) 0 = inr centers /\
      (forall name pool, lookup centers name = inr pool -> pool = []) /\
      make_labelled_sets R centers test_split g =
        inl (ValueError "a must be non-empty").
Proof.
  intros R truth truths test_split g.
  exists (map (fun name => (name, corpus_pool (truth :: truths) 0 name))
              category_names).
  split; [apply CorpusFacts.get_centers_pools|]. split.
  - intros name pool Hpool.
    destruct (CorpusFacts.pool_of_get_centers (truth :: truths) 0 _ name pool
                (CorpusFacts.get_centers_pools truth truths 0) Hpool) as [_ ->].
    apply CorpusFacts.zero_border_pool.
  - assert (E : map (fun name => (name, corpus_pool (truth :: truths) 0 name))
                    category_names
                = map (fun name => (name, [])) category_names).
    { apply map_ext. intros name. now rewrite CorpusFacts.zero_border_pool. }
    rewrite E. reflexivity.
Qed.

(** X14: when no field of the corpus has a value strictly between 0.75 and
    1, the [inside_damaged] and [outside_damaged] pools of [get_centers] are
    empty and [make_labelled_sets] on its result raises
    [ValueError "a must be non-empty"]. *)
Theorem undamaged_corpus_cannot_be_sampled :
  forall (R : RandomSource) (truth : truth_field) (truths : list truth_field)
         (border : Z) (test_split : Float64.float) (g : rng_state R),
    lawful R ->
    Forall undamaged (truth :: truths) ->
    exists centers,
      get_centers (truth :: truths) border = inr centers /\
      lookup centers "inside_damaged" = inr [] /\
      lookup centers "outside_damaged" = inr [] /\
      make_labelled_sets R centers test_split g =
        inl (ValueError "a must be non-empty").
Proof.
  intros R truth truths border test_split g Hlaw Hun.
  destruct (PipelineFacts.undamaged_pools (truth :: truths) border Hun)
    as [Hin Hout].
  destruct (CorpusFacts.lookup_corpus_pool truth truths border "inside_damaged")
    as (centers & Hres & Hl1); [unfold category_names; simpl; tauto|].
  destruct (CorpusFacts.lookup_corpus_pool truth truths border "outside_damaged")
    as (centers' & Hres' & Hl2); [unfold category_names; simpl; tauto|].
  assert (centers' = centers) by congruence. subst centers'.
  rewrite Hin in Hl1. rewrite Hout in Hl2.
  exists centers. split; [exact Hres|]. split; [exact Hl1|]. split; [exact Hl2|].
  apply RunFacts.labelled_sets_empty_pool.
  - exact Hlaw.
  - exact (WitnessFacts.keyed_get_centers _ _ _ Hres).
  - exists "inside_damaged"%string. split; [|exact Hl1].
    rewrite (PipelineFacts.keys_get_centers _ _ _ Hres).
    unfold category_names. simpl. tauto.
Qed.

Lemma undamaged_corpus_cannot_be_sampled_witness :
  lawful Lcg.source /\
  Forall undamaged [truth_dot] /\
  exists centers,
    get_centers [truth_dot] 1 = inr centers /\
    lookup centers "inside_damaged" = inr [] /\
    lookup centers "outside_damaged" = inr [] /\
    make_labelled_sets Lcg.source centers Float64.lit_0_1 42 =
      inl (ValueError "a must be non-empty").
Proof.
  assert (Hun : Forall undamaged [truth_dot])
    by (constructor; [exact MaskShapeFacts.undamaged_truth_dot|constructor]).
  split; [exact LcgFacts.lawful_source|]. split; [exact Hun|].
  exact (undamaged_corpus_cannot_be_sampled Lcg.source truth_dot [] 1
           Float64.lit_0_1 42 LcgFacts.lawful_source Hun).
Defined.

(** X15: a key of [centers] that is none of the six category names makes
    [make_labelled_sets] raise [KeyError] for that key (it has no entry in
    [counts]), provided the draws of the keys before it succeed: each of them
    is a category name with a pool that is not empty. *)
Theorem unknown_category_raises_key_error :
  forall (R : RandomSource) (centers : dict coords) (test_split : Float64.float)
         (g : rng_state R) (earlier later : list string) (name : string),
    lawful R ->
    keys centers = earlier ++ name :: later ->
    (forall k, In k earlier ->
               In k category_names /\ category_array centers k <> []) ->
    ~ In name category_names ->
    make_labelled_sets R centers test_split g = inl (KeyError name).
Proof.
  intros R centers test_split g earlier later name.
  apply KeyFacts.labelled_sets_unknown_key.
Qed.

Lemma unknown_category_raises_key_error_witness :
  make_labelled_sets Lcg.source pools_with_edge Float64.lit_0_1 42
  = inl (KeyError "edge").
Proof.
  apply (unknown_category_raises_key_error Lcg.source pools_with_edge
           Float64.lit_0_1 42 ["inside"%string] ["outside"%string] "edge").
  - exact LcgFacts.lawful_source.
  - reflexivity.
  - intros k [<-|[]]. split; [unfold category_names; simpl; tauto|].
    vm_compute. discriminate.
  - unfold category_names. simpl.
    intros [H|[H|[H|[H|[H|[H|[]]]]]]]; discriminate H.
Defined.

(** X16: on any corpus whose six pools are all non-empty, [make_labelled_sets]
    with the default test split 0.1 returns 720000 training and 80000 test
    samples, and of the 800000 labels it returns 400000 are 1 and 400000 are
    0. *)
Theorem default_split_sizes_and_balance :
  forall (R : RandomSource) (truths : list truth_field) (border : Z)
         (centers : dict coords) (g : rng_state R),
    lawful R ->
    get_centers truths border = inr centers ->
    ~ has_empty_pool centers ->
    exists trc trl tec tel g',
      make_labelled_sets R centers Float64.lit_0_1 g
        = inr ((trc, trl, tec, tel), g') /\
      Z.of_nat (length trc) = 720000 /\ Z.of_nat (length trl) = 720000 /\
      Z.of_nat (length tec) = 80000 /\ Z.of_nat (length tel) = 80000 /\
      Z.of_nat (count_occ Z.eq_dec (trl ++ tel) 1) = 400000 /\
      Z.of_nat (count_occ Z.eq_dec (trl ++ tel) 0) = 400000.
Proof.
  intros R truths border centers g Hlaw Hres Hno.
  pose proof (PipelineFacts.total_count_get_centers _ _ _ Hres) as Htotal.
  pose proof (PipelineFacts.keys_get_centers _ _ _ Hres) as Hkeys.
  assert (Hsplit : python_int (training_share Float64.lit_0_1
                                 (total_count counts centers)) = inr 720000).
  { rewrite Htotal, <- WitnessFacts.total_count_unit_pools.
    exact WitnessFacts.split_index_default. }
  destruct (RunFacts.labelled_sets_run R counts centers Float64.lit_0_1 720000 g
              Hlaw (WitnessFacts.keyed_get_centers _ _ _ Hres) Hno Hsplit)
    as (cols & order & g1 & g2 & Hrun).
  cbv zeta in Hrun.
  destruct Hrun as (_ & _ & Hlen & Hlabels & Hperm & _ & Hmls).
  set (center_set := concat (map cols (keys centers))) in *.
  set (label_set := concat (map (labels_for counts) (keys centers))) in *.
  set (oc := map (fun i => nth (Z.to_nat i) center_set (0, 0, 0)) order) in *.
  set (ol := map (fun i => nth (Z.to_nat i) label_set 0) order) in *.
  assert (Hoc : Z.of_nat (length oc) = 800000).
  { unfold oc. rewrite length_map, (Permutation_length Hperm).
    rewrite ListFacts.length_arange. lia. }
  assert (Hol : Z.of_nat (length ol) = 800000).
  { unfold ol. rewrite length_map, (Permutation_length Hperm).
    rewrite ListFacts.length_arange. lia. }
  assert (Hpl : Permutation ol label_set).
  { apply ListFacts.indexed_by_permutation. now rewrite Hlabels. }
  exists (slice_to 720000 oc), (slice_to 720000 ol), (slice_from 720000 oc),
         (slice_from 720000 ol), g2.
  split; [exact Hmls|].
  rewrite !ListFacts.length_slice_to, !ListFacts.length_slice_from.
  rewrite !ListFacts.slice_bound_inside by lia.
  rewrite ListFacts.slice_partition.
  rewrite (proj1 (Permutation_count_occ Z.eq_dec ol label_set) Hpl 1).
  rewrite (proj1 (Permutation_count_occ Z.eq_dec ol label_set) Hpl 0).
  unfold label_set. rewrite Hkeys, !PipelineFacts.count_label_segments.
  repeat split; try lia; vm_compute; reflexivity.
Qed.

Lemma default_split_sizes_and_balance_witness :
  lawful Lcg.source /\
  get_centers [truth_strip] 1 =
    inr (map (fun name => (name, corpus_pool [truth_strip] 1 name))
             category_names) /\
  exists trc trl tec tel g',
    make_labelled_sets Lcg.source
      (map (fun name => (name, corpus_pool [truth_strip] 1 name)) category_names)
      Float64.lit_0_1 42
      = inr ((trc, trl, tec, tel), g') /\
    Z.of_nat (length trc) = 720000 /\ Z.of_nat (length trl) = 720000 /\
    Z.of_nat (length tec) = 80000 /\ Z.of_nat (length tel) = 80000 /\
    Z.of_nat (count_occ Z.eq_dec (trl ++ tel) 1) = 400000 /\
    Z.of_nat (count_occ Z.eq_dec (trl ++ tel) 0) = 400000.
Proof.
  split; [exact LcgFacts.lawful_source|].
  split; [apply CorpusFacts.get_centers_pools|].
  exact (default_split_sizes_and_balance Lcg.source [truth_strip] 1 _ 42
           LcgFacts.lawful_source
           (CorpusFacts.get_centers_pools truth_strip [] 1)
           PipelineFacts.not_empty_strip).
Defined.

(** X17: every sample [make_labelled_sets] returns for a dict made by
    [get_centers] is true to the corpus: its coordinate [(r, c, i)] names an
    image [i] of the input, lies at least [border] away from that image's
    edges, and its label is 1 if that image's truth is above 0.75 at [(r, c)]
    and 0 otherwise. *)
Theorem sampled_labels_match_truth :
  forall (R : RandomSource) (truths : list truth_field) (border : Z)
         (centers : dict coords) (test_split : Float64.float) (n : Z)
         (g : rng_state R),
    lawful R ->
    get_centers truths border = inr centers ->
    ~ has_empty_pool centers ->
    python_int (training_share test_split (total_count counts centers)) = inr n ->
    exists trc trl tec tel g',
      make_labelled_sets R centers test_split g
        = inr ((trc, trl, tec, tel), g') /\
      length trl = length trc /\ length tel = length tec /\
      forall r c i label,
        In ((r, c, i), label) (combine trc trl ++ combine tec tel) ->
        exists t,
          0 <= i /\ nth_error truths (Z.to_nat i) = Some t /\
          border <= r < Z.of_nat (Nd.shape0 t) - border /\
          border <= c < Z.of_nat (Nd.shape1 t) - border /\
          label = pixel_label t r c.
Proof.
  intros R truths border centers test_split n g Hlaw Hres Hno Hsplit.
  pose proof (WitnessFacts.keyed_get_centers _ _ _ Hres) as Hkeyed.
  pose proof (PipelineFacts.keys_get_centers _ _ _ Hres) as Hkeys.
  destruct (RunFacts.labelled_sets_run R counts centers test_split n g
              Hlaw Hkeyed Hno Hsplit) as (cols & order & g1 & g2 & Hrun).
  cbv zeta in Hrun.
  destruct Hrun as (Hcols & _ & _ & Hlabels & Hperm & _ & Hmls).
  set (center_set := concat (map cols (keys centers))) in *.
  set (label_set := concat (map (labels_for counts) (keys centers))) in *.
  set (oc := map (fun i => nth (Z.to_nat i) center_set (0, 0, 0)) order) in *.
  set (ol := map (fun i => nth (Z.to_nat i) label_set 0) order) in *.
  assert (Hol : length ol = length oc) by (unfold ol, oc; now rewrite !length_map).
  exists (slice_to n oc), (slice_to n ol), (slice_from n oc), (slice_from n ol), g2.
  split; [exact Hmls|].
  destruct (PipelineFacts.length_slices_agree oc ol n Hol) as [Hl1 Hl2].
  split; [exact Hl1|]. split; [exact Hl2|].
  intros r c i label Hin.
  assert (Hpair : In (r, c, i, label) (combine oc ol)).
  { apply in_app_or in Hin as [Hin|Hin].
    - exact (PipelineFacts.in_combine_slice_to oc ol n _ Hol Hin).
    - exact (PipelineFacts.in_combine_slice_from oc ol n _ Hol Hin). }
  unfold oc, ol in Hpair.
  rewrite (ListFacts.combine_indexed _ _ (0, 0, 0) 0 order) in Hpair
    by (symmetry; exact Hlabels).
  assert (Hpre : In (r, c, i, label) (combine center_set label_set)).
  { eapply Permutation_in; [|exact Hpair].
    apply ListFacts.indexed_by_permutation.
    rewrite length_combine, Hlabels, Nat.min_id. exact Hperm. }
  apply (RunFacts.in_segments counts cols) in Hpre
    as (name & Hname & Hcol & ->); [|intros k Hk; now apply Hcols].
  destruct (Hcols name Hname) as [_ Hall].
  rewrite Forall_forall in Hall. apply Hall in Hcol.
  rewrite Hkeys in Hname.
  rewrite (PipelineFacts.category_array_get_centers _ _ _ _ Hres Hname) in Hcol.
  destruct (PipelineFacts.pool_column_label _ _ _ _ _ _ Hcol)
    as (t & Hi & Ht & Hr & Hc & Hlabel).
  exists t. auto.
Qed.

Lemma sampled_labels_match_truth_witness :
  lawful Lcg.source /\
  get_centers [truth_strip] 1 =
    inr (map (fun name => (name, corpus_pool [truth_strip] 1 name))
             category_names) /\
  python_int (training_share Float64.lit_0_1
                (total_count counts
                   (map (fun name => (name, corpus_pool [truth_strip] 1 name))
                        category_names))) = inr 720000 /\
  exists trc trl tec tel g',
    make_labelled_sets Lcg.source
      (map (fun name => (name, corpus_pool [truth_strip] 1 name)) category_names)
      Float64.lit_0_1 42
      = inr ((trc, trl, tec, tel), g') /\
    length trl = length trc /\ length tel = length tec /\
    forall r c i label,
      In ((r, c, i), label) (combine trc trl ++ combine tec tel) ->
      exists t,
        0 <= i /\ nth_error [truth_strip] (Z.to_nat i) = Some t /\
        1 <= r < Z.of_nat (Nd.shape0 t) - 1 /\
        1 <= c < Z.of_nat (Nd.shape1 t) - 1 /\
        label = pixel_label t r c.
Proof.
  assert (Hsplit :
            python_int (training_share Float64.lit_0_1
                          (total_count counts
                             (map (fun name =>
                                     (name, corpus_pool [truth_strip] 1 name))
                                  category_names))) = inr 720000).
  { rewrite (PipelineFacts.total_count_get_centers [truth_strip] 1 _
               (CorpusFacts.get_centers_pools truth_strip [] 1)).
    rewrite <- WitnessFacts.total_count_unit_pools.
    exact WitnessFacts.split_index_default. }
  split; [exact LcgFacts.lawful_source|].
  split; [apply CorpusFacts.get_centers_pools|].
  split; [exact Hsplit|].
  exact (sampled_labels_match_truth Lcg.source [truth_strip] 1 _
           Float64.lit_0_1 720000 42 LcgFacts.lawful_source
           (CorpusFacts.get_centers_pools truth_strip [] 1)
           PipelineFacts.not_empty_strip Hsplit).
Defined.

(** ** Shapes *)

Module ShapeFacts.
Import NdFacts MorphFacts.

Lemma rect_of_width {A} (a : Nd.ndarray A) w :
  Forall (fun row => length row = w) a -> Nd.rect a.
Proof.
  intros Hall. unfold Nd.rect. destruct a as [|row a]; [constructor|].
  simpl. inversion Hall as [|? ? Hrow Hrest]; subst.
  constructor; [reflexivity|exact Hrest].
Qed.

Lemma rows_zip {A B C} (f : A -> B -> C) a b wa wb :
  Forall (fun row => length row = wa) a ->
  Forall (fun row => length row = wb) b ->
  Forall (fun row => length row = Nat.min wa wb) (Nd.zip f a b).
Proof.
  unfold Nd.zip. intros Ha. revert b.
  induction Ha as [|ra a Hra _ IH]; intros b Hb; [constructor|].
  destruct Hb as [|rb b Hrb Hb]; [constructor|].
  cbn [Nd.zip_row]. constructor; [|now apply IH].
  rewrite ClosingFacts.length_zip_row. now rewrite Hra, Hrb.
Qed.

Lemma shaped_and truth (a b : mask) :
  shaped_as truth a -> shaped_as truth b -> shaped_as truth (Nd.and_ a b).
Proof.
  intros (Ha & Ha0 & Ha1) (Hb & Hb0 & Hb1). split; [|split].
  - apply (rect_of_width _ (Nat.min (Nd.shape1 a) (Nd.shape1 b))).
    now apply rows_zip.
  - rewrite ClosingFacts.shape0_and. lia.
  - rewrite ClosingFacts.shape1_and. lia.
Qed.

Lemma shaped_map {A B} truth (f : A -> B) (a : Nd.ndarray A) :
  shaped_as truth a -> shaped_as truth (Nd.map f a).
Proof.
  intros (Ha & Ha0 & Ha1). split; [|split].
  - apply (rect_of_width _ (Nd.shape1 a)). unfold Nd.map.
    apply Forall_map. eapply Forall_impl; [|exact Ha].
    intros row Hrow. simpl in Hrow. now rewrite length_map.
  - now rewrite shape0_map.
  - now rewrite shape1_map.
Qed.

Lemma shaped_truth (truth : truth_field) : Nd.rect truth -> shaped_as truth truth.
Proof. intros H. now split. Qed.

Lemma shaped_tabulate {A} truth (x : Nd.ndarray A) (f : Z -> Z -> bool) :
  Nd.shape0 x = Nd.shape0 truth -> Nd.shape1 x = Nd.shape1 truth ->
  shaped_as truth (Nd.tabulate (Nd.shape0 x) (Nd.shape1 x) f).
Proof.
  intros H0 H1. split; [apply rect_tabulate|]. split.
  - now rewrite shape0_tabulate.
  - now rewrite shape1_tabulate_same.
Qed.

Lemma shaped_dilation truth (x : mask) n :
  shaped_as truth x ->
  shaped_as truth (ndimage.binary_dilation x (Nd.ones 3 3) n).
Proof.
  intros (_ & H0 & H1).
  destruct (binary_dilation_tabulated x (Nd.ones 3 3) n) as [f ->].
  now apply shaped_tabulate.
Qed.

Lemma shaped_closing truth (x : mask) :
  shaped_as truth x ->
  shaped_as truth (ndimage.binary_closing x (Nd.ones 3 3)).
Proof.
  intros (_ & H0 & H1). rewrite ClosingFacts.binary_closing_once.
  destruct (ClosingFacts.dilate_once_shapes x) as [D0 D1].
  unfold ndimage.erode_once. apply shaped_tabulate; congruence.
Qed.

Lemma shaped_damaged_spot truth :
  Nd.rect truth -> shaped_as truth (make_damaged_spot_mask truth).
Proof.
  intros Hrect. pose proof (shaped_truth truth Hrect) as Ht.
  unfold make_damaged_spot_mask, gt_0_75, lt_1. cbv zeta.
  apply shaped_and; [|now apply shaped_map].
  apply shaped_closing. apply shaped_and; now apply shaped_map.
Qed.

End ShapeFacts.

(** X18: for a rectangular field, the four mask builders return rectangular
    arrays of the shape of the field, so the boolean indexing of
    [get_centers_single_image] always meets a mask of the shape of its index
    grid. *)
Theorem masks_keep_the_shape :
  forall (truth : truth_field),
    Nd.rect truth ->
    Forall (fun m : mask =>
              Nd.rect m /\
              Nd.shape0 m = Nd.shape0 truth /\ Nd.shape1 m = Nd.shape1 truth)
           [ make_damaged_spot_mask truth;
             make_outside_near_damaged_spot_mask truth;
             make_block_border_mask truth;
             make_between_spot_mask truth ].
Proof.
  intros truth Hrect.
  pose proof (ShapeFacts.shaped_truth truth Hrect) as Ht.
  pose proof (ShapeFacts.shaped_damaged_spot truth Hrect) as Hd.
  assert (Hgt : shaped_as truth (gt_0_75 truth))
    by (unfold gt_0_75; now apply ShapeFacts.shaped_map).
  assert (Hlt : shaped_as truth (lt_0_25 truth))
    by (unfold lt_0_25; now apply ShapeFacts.shaped_map).
  apply Forall_cons; [exact Hd|].
  apply Forall_cons.
  { unfold make_outside_near_damaged_spot_mask. cbv zeta.
    apply ShapeFacts.shaped_and; [now apply ShapeFacts.shaped_dilation|exact Hlt]. }
  apply Forall_cons.
  { unfold make_block_border_mask. cbv zeta.
    apply ShapeFacts.shaped_and; [now apply ShapeFacts.shaped_dilation|].
    unfold Nd.not_. apply ShapeFacts.shaped_map.
    now apply ShapeFacts.shaped_dilation. }
  apply Forall_cons; [|constructor].
  unfold make_between_spot_mask. cbv zeta.
  apply ShapeFacts.shaped_and; [now apply ShapeFacts.shaped_dilation|exact Hlt].
Qed.

Lemma masks_keep_the_shape_witness :
  Nd.rect truth_block /\
  Forall (fun m : mask =>
            Nd.rect m /\
            Nd.shape0 m = Nd.shape0 truth_block /\
            Nd.shape1 m = Nd.shape1 truth_block)
         [ make_damaged_spot_mask truth_block;
           make_outside_near_damaged_spot_mask truth_block;
           make_block_border_mask truth_block;
           make_between_spot_mask truth_block ].
Proof.
  split; [exact MaskShapeFacts.rect_truth_block|].
  exact (masks_keep_the_shape truth_block MaskShapeFacts.rect_truth_block).
Defined.

(** X19: an image too small for the border yields no centre: when the height
    or the width of the field is at most [2 * border], every array of
    [get_centers_single_image] is empty. *)
Theorem small_image_has_no_centers :
  forall (truth : truth_field) (im_no border : Z) (name : string) (pool : coords),
    Z.of_nat (Nd.shape0 truth) <= 2 * border \/
    Z.of_nat (Nd.shape1 truth) <= 2 * border ->
    lookup (get_centers_single_image truth im_no border) name = inr pool ->
    pool = [].
Proof.
  intros truth im_no border name pool Hsmall Hpool.
  assert (Hname : In name category_names).
  { apply ListFacts.lookup_in_keys_inv in Hpool.
    now rewrite AggregateFacts.keys_single_image in Hpool. }
  rewrite SingleImageFacts.lookup_single_image_array in Hpool by exact Hname.
  injection Hpool as <-.
  destruct (single_image_array truth im_no border name)
    as [|[[r c] i] rest] eqn:E; [reflexivity|].
  assert (Hin : In (r, c, i) (single_image_array truth im_no border name))
    by (rewrite E; now left).
  apply SingleImageFacts.single_image_array_bounds in Hin as (_ & Hr & Hc).
  lia.
Qed.

Lemma small_image_has_no_centers_witness :
  lookup (get_centers_single_image truth_dot 0 3) "outside" = inr [].
Proof.
  assert (H : exists pool,
             lookup (get_centers_single_image truth_dot 0 3) "outside" = inr pool)
    by (eexists; apply SingleImageFacts.lookup_single_image_array;
        unfold category_names; simpl; tauto).
  destruct H as [pool Hpool]. rewrite Hpool. f_equal.
  apply (small_image_has_no_centers truth_dot 0 3 "outside" pool);
    [left; vm_compute; discriminate|exact Hpool].
Defined.
